(** * PackInSight: the package scanner and its trust score

    A shallow embedding of [src/lib/package-scanner.ts]: the vulnerability
    aggregator ([fetchGitHubAdvisories], [fetchOSVVulnerabilities],
    [fetchVulnerabilities]), the trust score calculator
    ([calculateTrustScore]) and the scan orchestrator ([scanPackages]);
    then the manifest parsers ([parsePackageJson], [parseRequirementsTxt],
    [parseDockerfile]), the retrying fetch ([fetchWithRetry],
    [safeJsonParse]), the reading of a repository URL at the head of
    [fetchGitHubStats], and the handler of [src/app/api/scan/route.ts]
    ([POST]); followed by the properties established about them.

    Conventions.
    - JavaScript numbers that the scanner only counts, compares and adds
      are [Z]; the quotients it forms ([x / 40 * 100], a number of days)
      are exact rationals [Q].  Every quotient the scanner rounds is at
      least 1/6 away from a rounding boundary, or sits exactly on one with
      a dyadic value, so IEEE doubles round the same way.
    - An optional property ([x?: T], or a property of an [any] payload) is
      an [option]; [None] is [undefined] or [null].  The score of an OSV
      record, which the code compares with numbers without checking what
      it is, is a [Js.Value]: a number, a string, a boolean, or an array
      or object.
    - An object used as a dictionary is a [gmap] of its own properties; a
      read [o[k]] also sees what [Object.prototype] provides.
    - Asynchronous code that talks to the network is a computation over an
      abstract world [W], which may raise an exception.
    - A string the code walks through character by character is a list of
      ASCII characters; an object whose property order matters is the
      list of its own properties in that order. *)

From Stdlib Require Import ZArith QArith Qround Lia Lqa Ascii String.
From stdpp Require Import base option list gmap strings pretty.

Close Scope Q_scope.
Open Scope Z_scope.

(** ** The JavaScript runtime, as far as the scanner uses it *)

Module Js.

(** Truthiness of a string value: the empty string is falsy. *)
Definition truthy_string (s : string) : bool :=
  match s with
  | EmptyString => false
  | String _ _ => true
  end.

(** Truthiness of an optional string: [undefined], [null] and [''] are
    falsy. *)
Definition truthy (o : option string) : bool :=
  match o with
  | Some s => truthy_string s
  | None => false
  end.

(** [a || b] where [a] is an optional string and [b] a string. *)
Definition or_else (a : option string) (b : string) : string :=
  match a with
  | Some s => if truthy_string s then s else b
  | None => b
  end.

(** Truthiness of a number: [0] is falsy. *)
Definition truthy_num (n : Z) : bool := negb (n =? 0).

Definition truthy_Q (q : Q) : bool := negb (Qeq_bool q 0).

(** [String.prototype.toLowerCase] on the ASCII letters; other bytes are
    kept as they are. *)
Definition lower_ascii (c : ascii) : ascii :=
  let n := nat_of_ascii c in
  if ((65 <=? n)%nat && (n <=? 90)%nat)%bool then ascii_of_nat (n + 32) else c.

Fixpoint toLowerCase (s : string) : string :=
  match s with
  | EmptyString => EmptyString
  | String c rest => String (lower_ascii c) (toLowerCase rest)
  end.

(** [Math.round]: the nearest integer, ties towards plus infinity. *)
Definition Math_round (q : Q) : Z := Qfloor (q + (1 # 2))%Q.

(** [x > y] and [x >= y] on numbers. *)
Definition gt (x y : Q) : bool := negb (Qle_bool x y).
Definition ge (x y : Q) : bool := Qle_bool y x.
Definition lt (x y : Q) : bool := negb (Qle_bool y x).

(** A number of the runtime: [NaN], a finite number or an infinity. *)
Inductive Numeric :=
| NaN
| Finite (q : Q)
| Infinite (positive : bool).

(** A value that an unchecked payload holds in a place where the scanner
    expects a number: a number, a string, a boolean, or an array or
    object, which enters a comparison as the string its [toString]
    gives. *)
Inductive Value :=
| Num (q : Q)
| Str (s : string)
| Boolean (b : bool)
| Obj (toString : string).

(** [StringToNumber]: the number a comparison with a number converts a
    string to.  The conversion is a built-in of the runtime; the scanner
    is modelled over any conversion. *)
Class NumberParser := StringToNumber : string -> Numeric.

(** Truthiness of a value: [0], [''] and [false] are falsy. *)
Definition truthy_value (v : Value) : bool :=
  match v with
  | Num q => truthy_Q q
  | Str s => truthy_string s
  | Boolean b => b
  | Obj _ => true
  end.

(** [ToNumber] *)
Definition ToNumber {numbers : NumberParser} (v : Value) : Numeric :=
  match v with
  | Num q => Finite q
  | Str s => StringToNumber s
  | Boolean b => Finite (if b then 1 else 0)
  | Obj toString => StringToNumber toString
  end.

(** [v >= y] where [y] is a number: false when [v] converts to [NaN]. *)
Definition ge_value {numbers : NumberParser} (v : Value) (y : Q) : bool :=
  match ToNumber v with
  | Finite q => ge q y
  | NaN => false
  | Infinite positive => positive
  end.

(** The members of [Object.prototype]: a property read on an object
    literal finds them when the object has no own property of that
    name.  Each is a function, except [__proto__], which is the
    prototype object itself; all are truthy and none is an array. *)
Definition Object_prototype : list string :=
  [ "constructor"; "__defineGetter__"; "__defineSetter__"; "hasOwnProperty";
    "__lookupGetter__"; "__lookupSetter__"; "isPrototypeOf";
    "propertyIsEnumerable"; "toString"; "valueOf"; "__proto__";
    "toLocaleString" ]%string.

(** The outcome of the property read [o[k]] on an object literal whose
    own properties are [o]. *)
Inductive Lookup (V : Type) : Type :=
| Own (v : V)
| Inherited (k : string)
| Undefined.
Arguments Own {V} v.
Arguments Inherited {V} k.
Arguments Undefined {V}.

Definition get {V : Type} (o : gmap string V) (k : string) : Lookup V :=
  match o !! k with
  | Some v => Own v
  | None => if bool_decide (k ∈ Object_prototype) then Inherited k else Undefined
  end.

(** [new Date(s).getTime()], [None] standing for [NaN].  The parser is a
    built-in of the runtime; the scanner is modelled over any parser. *)
Class DateParser := Date_parse : string -> option Z.

(** The readings of [Date.now()] that one call of [calculateTrustScore]
    takes: one where it looks at the publish date, one where it looks at
    the last commit. *)
Record Clock := { nowAtPublish : Z; nowAtCommit : Z }.

End Js.

(** ** A date parser for UTC ISO-8601 timestamps

    [YYYY-MM-DDTHH:MM:SSZ] and [YYYY-MM-DDTHH:MM:SS.sssZ], the form in which
    the registries report dates.  It is the instance used to evaluate the
    scanner on concrete inputs; every other string is answered with
    [None]. *)

Module IsoDate.

Definition digit (c : ascii) : option Z :=
  let n := nat_of_ascii c in
  if ((48 <=? n)%nat && (n <=? 57)%nat)%bool then Some (Z.of_nat n - 48) else None.

Fixpoint digits (acc : Z) (cs : list ascii) : option Z :=
  match cs with
  | [] => Some acc
  | c :: rest =>
      match digit c with
      | Some d => digits (acc * 10 + d) rest
      | None => None
      end
  end.

Definition number (cs : list ascii) : option Z :=
  match cs with
  | [] => None
  | _ => digits 0 cs
  end.

Definition leap (y : Z) : bool :=
  ((y mod 4 =? 0) && negb (y mod 100 =? 0) || (y mod 400 =? 0))%bool.

Definition days_in_month (y m : Z) : Z :=
  if m =? 2 then (if leap y then 29 else 28)
  else if (m =? 4) || (m =? 6) || (m =? 9) || (m =? 11) then 30
  else 31.

(** Days from 1970-01-01 to the civil date [y-m-d]. *)
Definition days_from_civil (y m d : Z) : Z :=
  let y' := if m <=? 2 then y - 1 else y in
  let era := y' / 400 in
  let yoe := y' - era * 400 in
  let mp := if 2 <? m then m - 3 else m + 9 in
  let doy := (153 * mp + 2) / 5 + d - 1 in
  let doe := yoe * 365 + yoe / 4 - yoe / 100 + doy in
  era * 146097 + doe - 719468.

Definition sep (c : ascii) (cs : list ascii) : option (list ascii) :=
  match cs with
  | c' :: rest => if Ascii.eqb c c' then Some rest else None
  | [] => None
  end.

Definition field (n : nat) (cs : list ascii) : option (Z * list ascii) :=
  if (length cs <? n)%nat then None
  else (fun v => (v, drop n cs)) <$> number (take n cs).

Definition millis (cs : list ascii) : option Z :=
  match cs with
  | ["Z"%char] => Some 0
  | "."%char :: rest =>
      match field 3 rest with
      | Some (ms, ["Z"%char]) => Some ms
      | _ => None
      end
  | _ => None
  end.

Definition parse (s : string) : option Z :=
  '(y, r) ← field 4 (list_ascii_of_string s);
  r ← sep "-" r;
  '(m, r) ← field 2 r;
  r ← sep "-" r;
  '(d, r) ← field 2 r;
  r ← sep "T" r;
  '(hh, r) ← field 2 r;
  r ← sep ":" r;
  '(mm, r) ← field 2 r;
  r ← sep ":" r;
  '(ss, r) ← field 2 r;
  ms ← millis r;
  if (1 <=? m) && (m <=? 12) && (1 <=? d) && (d <=? days_in_month y m)
     && (hh <=? 23) && (mm <=? 59) && (ss <=? 59)
  then Some ((((days_from_civil y m d * 24 + hh) * 60 + mm) * 60 + ss) * 1000 + ms)
  else None.

Definition parser : Js.DateParser := parse.

(** The parser of a runtime whose local time is [minutes] east of UTC: a
    timestamp without the final [Z] is read as local time. *)
Definition localParser (minutes : Z) : Js.DateParser :=
  fun s =>
    match parse s with
    | Some t => Some t
    | None => (fun t => t - minutes * 60000) <$> parse (s +:+ "Z")
    end.

End IsoDate.


(** ** Data model

    The interfaces of the scanner.  Property names are the source's, with a
    prefix per interface where two interfaces share a name. *)

Inductive Ecosystem := npm | python | docker.

Record PackageInfo := {
  pkg_name : string;
  pkg_version : string;
  pkg_ecosystem : Ecosystem
}.

(** [severity] is declared as one of four literals, but both adapters fill
    it with an unchecked cast of a lower-cased upstream string, so it is a
    string here.  [cvss] is declared as a number, but the OSV adapter
    copies whatever the payload holds, so it is a value here. *)
Record Vulnerability := {
  vuln_id : string;
  vuln_severity : string;
  vuln_title : string;
  vuln_description : string;
  vuln_cvss : option Js.Value;
  vuln_cwe : list string;
  vuln_references : list string;
  vuln_fixedIn : option string
}.

Record GitHubStats := {
  gh_stars : Z;
  gh_forks : Z;
  gh_watchers : Z;
  gh_openIssues : Z;
  gh_contributors : Z;
  gh_pullRequests : Z;
  gh_lastCommit : option string;
  gh_createdAt : option string;
  gh_defaultBranch : option string;
  gh_language : string;
  gh_topics : list string
}.

Record DownloadStats := {
  dl_lastDay : option Z;
  dl_lastWeek : option Z;
  dl_lastMonth : option Z;
  dl_total : option Z
}.

Record Metadata := {
  meta_description : option string;
  meta_license : option string;
  meta_author : option string;
  meta_downloads : option Z;
  meta_stars : option Z;
  meta_lastPublish : option string;
  meta_homepage : option string;
  meta_repository : option string;
  meta_dependencies : option (gmap string string);
  meta_latestVersion : option string;
  meta_currentVersion : option string;
  meta_isDeprecated : option bool;
  meta_npmUrl : option string;
  meta_githubUrl : option string;
  meta_officialUrl : option string;
  meta_maintainers : option Z;
  meta_hasTests : option bool;
  meta_hasSecurity : option bool;
  meta_bundleSize : option string
}.

(** The object literal [{}]. *)
Definition emptyMetadata : Metadata :=
  {| meta_description := None; meta_license := None; meta_author := None;
     meta_downloads := None; meta_stars := None; meta_lastPublish := None;
     meta_homepage := None; meta_repository := None; meta_dependencies := None;
     meta_latestVersion := None; meta_currentVersion := None;
     meta_isDeprecated := None; meta_npmUrl := None; meta_githubUrl := None;
     meta_officialUrl := None; meta_maintainers := None; meta_hasTests := None;
     meta_hasSecurity := None; meta_bundleSize := None |}.

Definition emptyDownloadStats : DownloadStats :=
  {| dl_lastDay := None; dl_lastWeek := None; dl_lastMonth := None; dl_total := None |}.

Record TrustScoreBreakdown := {
  security : Z;
  maintenance : Z;
  popularity : Z;
  dependencies : Z
}.

Record TrustScore := {
  score : Z;
  breakdown : TrustScoreBreakdown
}.

Record PackageAnalysis := {
  package : PackageInfo;
  vulnerabilities : list Vulnerability;
  trustScore : Z;
  trustScoreBreakdown : TrustScoreBreakdown;
  metadata : Metadata;
  githubStats : option GitHubStats;
  downloadStats : option DownloadStats;
  aiDescription : option string
}.

(** ** Trust score calculation *)

Module Trust.

(** [vulnerabilities.filter(v => v.severity === sev).length] *)
Definition countSeverity (sev : string) (vulns : list Vulnerability) : Z :=
  Z.of_nat (length (List.filter (fun v => String.eqb (vuln_severity v) sev) vulns)).

(** Security Score (40 points) *)
Definition securityScore (vulns : list Vulnerability) : Z :=
  let criticalCount := countSeverity "critical" vulns in
  let highCount := countSeverity "high" vulns in
  let mediumCount := countSeverity "medium" vulns in
  Z.max 0 (40 - criticalCount * 15 - highCount * 10 - mediumCount * 5).

(** [(Date.now() - date.getTime()) / (1000 * 60 * 60 * 24)] *)
Definition daysSince (now t : Z) : Q :=
  (inject_Z (now - t) / inject_Z (1000 * 60 * 60 * 24))%Q.

(** The block guarded by [if (metadata?.lastPublish)]: what it makes of the
    running [maintenanceScore]. *)
Definition afterLastPublish {dates : Js.DateParser} (now : Z) (meta : option Metadata)
    (maintenanceScore : Z) : Z :=
  match meta ≫= meta_lastPublish with
  | Some lastPublish =>
      if Js.truthy_string lastPublish then
        match Js.Date_parse lastPublish with
        | Some t =>
            let daysSinceUpdate := daysSince now t in
            if Js.gt daysSinceUpdate (730 # 1) then maintenanceScore - 15
            else if Js.gt daysSinceUpdate (365 # 1) then maintenanceScore - 10
            else if Js.gt daysSinceUpdate (180 # 1) then maintenanceScore - 5
            else maintenanceScore
        | None => maintenanceScore
        end
      else maintenanceScore
  | None => maintenanceScore
  end.

(** The block guarded by [if (githubStats?.lastCommit)]. *)
Definition afterLastCommit {dates : Js.DateParser} (now : Z) (stats : option GitHubStats)
    (maintenanceScore : Z) : Z :=
  match stats ≫= gh_lastCommit with
  | Some lastCommit =>
      if Js.truthy_string lastCommit then
        match Js.Date_parse lastCommit with
        | Some t =>
            let daysSinceCommit := daysSince now t in
            if Js.lt daysSinceCommit (30 # 1) then maintenanceScore + 5
            else maintenanceScore
        | None => maintenanceScore
        end
      else maintenanceScore
  | None => maintenanceScore
  end.

(** Maintenance Score (25 points) *)
Definition maintenanceScore {dates : Js.DateParser} (clock : Js.Clock)
    (meta : option Metadata) (stats : option GitHubStats) : Z :=
  let m := 25 in
  let m := afterLastPublish (Js.nowAtPublish clock) meta m in
  let m := afterLastCommit (Js.nowAtCommit clock) stats m in
  Z.min 25 (Z.max 0 m).

(** GitHub stars factor *)
Definition starsFactor (stats : option GitHubStats) : Z :=
  match stats with
  | Some g =>
      let stars := gh_stars g in
      if Js.truthy_num stars then
        if 10000 <? stars then 8
        else if 1000 <? stars then 6
        else if 100 <? stars then 4
        else if 10 <? stars then 2
        else 0
      else 0
  | None => 0
  end.

(** Download stats factor *)
Definition downloadsFactor (downloads : option DownloadStats) : Z :=
  match downloads ≫= dl_lastMonth with
  | Some lastMonth =>
      if Js.truthy_num lastMonth then
        if 1000000 <? lastMonth then 7
        else if 100000 <? lastMonth then 5
        else if 10000 <? lastMonth then 3
        else if 1000 <? lastMonth then 1
        else 0
      else 0
  | None => 0
  end.

(** Popularity Score (20 points) *)
Definition popularityScore (stats : option GitHubStats)
    (downloads : option DownloadStats) : Z :=
  Z.min 20 (5 + starsFactor stats + downloadsFactor downloads).

(** Dependencies Score (15 points); [deps] is the argument [dependencies],
    [None] when it is not given. *)
Definition dependenciesScore (deps : option (gmap string string)) : Z :=
  let depCount := Z.of_nat (size (default ∅ deps)) in
  if 100 <? depCount then 5
  else if 50 <? depCount then 10
  else if 20 <? depCount then 12
  else 15.

(** [Math.round((raw / max) * 100)] *)
Definition percentOf (raw max : Z) : Z :=
  Js.Math_round ((inject_Z raw / inject_Z max) * (100 # 1))%Q.

(** [Math.round(securityScore + maintenanceScore + popularityScore +
    dependenciesScore)] *)
Definition totalScore {dates : Js.DateParser} (clock : Js.Clock) (vulns : list Vulnerability)
    (meta : option Metadata) (deps : option (gmap string string))
    (stats : option GitHubStats) (downloads : option DownloadStats) : Z :=
  Js.Math_round (inject_Z (securityScore vulns + maintenanceScore clock meta stats
                           + popularityScore stats downloads + dependenciesScore deps)).

Definition calculateTrustScore {dates : Js.DateParser} (clock : Js.Clock)
    (vulns : list Vulnerability) (meta : option Metadata)
    (deps : option (gmap string string)) (stats : option GitHubStats)
    (downloads : option DownloadStats) : TrustScore :=
  {| score := Z.min 100 (Z.max 0 (totalScore clock vulns meta deps stats downloads));
     breakdown :=
       {| security := percentOf (securityScore vulns) 40;
          maintenance := percentOf (maintenanceScore clock meta stats) 25;
          popularity := percentOf (popularityScore stats downloads) 20;
          dependencies := percentOf (dependenciesScore deps) 15 |} |}.

End Trust.

(** ** Asynchronous computations

    An [async] function runs against the outside world (registries, advisory
    services, the process environment) and either returns or throws. *)

Module Async.

Inductive Exn :=
| TypeError (message : string)
| Rejected (reason : string).

Definition M (W A : Type) : Type := W -> (Exn + A) * W.

Definition ret {W A} (a : A) : M W A := fun w => (inr a, w).

Definition throw {W A} (e : Exn) : M W A := fun w => (inl e, w).

Definition bind {W A B} (m : M W A) (k : A -> M W B) : M W B :=
  fun w =>
    match m w with
    | (inr a, w') => k a w'
    | (inl e, w') => (inl e, w')
    end.

(** [try { m } catch (error) { handler(error) }] *)
Definition tryCatch {W A} (m : M W A) (handler : Exn -> M W A) : M W A :=
  fun w =>
    match m w with
    | (inr a, w') => (inr a, w')
    | (inl e, w') => handler e w'
    end.

(** Reading the world without changing it. *)
Definition observe {W A} (f : W -> A) : M W A := fun w => (inr (f w), w).

#[global] Instance M_ret {W} : MRet (M W) := @ret W.
#[global] Instance M_bind {W} : MBind (M W) := fun A B k m => bind m k.

End Async.

Import Async.

(** ** Upstream payloads *)

(** A node of [securityVulnerabilities.nodes] in the reply of the GitHub
    GraphQL query, with the properties the adapter reads.  The reply is
    typed by the GraphQL schema: [cvss.score] is a [Float]. *)
Record RawAdvisory := {
  ghsaId : string;
  adv_summary : string;
  adv_description : string;
  adv_severity : option string;
  (** [cvss?.score] *)
  adv_cvss_score : option Q;
  (** [cwes?.nodes?.map(c => c.cweId)] *)
  adv_cweIds : option (list string);
  (** [references?.map(r => r.url)] *)
  adv_reference_urls : option (list string)
}.

Record RawAdvisoryNode := {
  advisory : RawAdvisory;
  (** [firstPatchedVersion?.identifier] *)
  firstPatchedVersion_identifier : option string
}.

(** An element of [vulns] in the reply of the OSV query, with the
    properties the adapter reads.  The payload is unchecked ([any]):
    [severity?.[0]?.score] is whatever the service sends, a number or, as
    the OSV schema has it, a CVSS vector string; [None] is [undefined] or
    [null]. *)
Record RawOsvVuln := {
  osv_id : string;
  osv_summary : option string;
  osv_details : option string;
  (** [database_specific?.severity], a string where a database sets it: the
      adapter calls [toLowerCase] on it *)
  osv_database_specific_severity : option string;
  (** [database_specific?.cwe_ids] *)
  osv_database_specific_cwe_ids : option (list string);
  (** [severity?.[0]?.score] *)
  osv_score : option Js.Value;
  (** [references?.map(r => r.url)] *)
  osv_reference_urls : option (list string);
  (** [affected?.[0]?.ranges?.[0]?.events?.find(e => e.fixed)?.fixed] *)
  osv_fixed : option string
}.

(** The body of the POST to [api.osv.dev/v1/query]. *)
Record OsvQuery := {
  q_name : string;
  q_ecosystem : string;
  q_version : option string
}.

(** ** The outside world

    What the scanner reaches through [fetchWithRetry], [safeJsonParse],
    [process.env] and [Date.now].  The registry, statistics and description
    fetchers are taken whole; the two advisory services are taken at the
    level of the decoded reply, so that the adapters' own code is modelled.
    Each fetcher has a catch-all of its own in the source; here any of them
    may throw all the same, so that nothing proved about the callers rests
    on it.  [Date_now] gives the readings of the clock that
    [calculateTrustScore] takes when it is called in that world. *)
Class Upstream (W : Type) := {
  env_GITHUB_TOKEN : W -> option string;
  (** [data?.data?.securityVulnerabilities?.nodes] for a token, an
      ecosystem and a package name *)
  githubAdvisories : string -> string -> string -> M W (option (list RawAdvisoryNode));
  (** [data?.vulns] *)
  osvVulns : OsvQuery -> M W (option (list RawOsvVuln));
  fetchNpmPackageData : string -> string -> M W Metadata;
  fetchPypiPackageData : string -> M W Metadata;
  fetchDockerImageData : string -> M W Metadata;
  fetchNpmDownloadStats : string -> M W DownloadStats;
  fetchPypiDownloadStats : string -> M W DownloadStats;
  fetchGitHubStats : string -> M W (option GitHubStats);
  generateAIDescription :
    string -> Ecosystem -> Metadata -> option GitHubStats -> M W string;
  Date_now : W -> Js.Clock
}.

(** ** Vulnerability fetching *)

Module Vulns.

Section Adapters.
Context {W : Type} {numbers : Js.NumberParser} {upstream : Upstream W}.

Definition githubEcosystem (e : Ecosystem) : option string :=
  match e with
  | npm => Some "NPM"
  | python => Some "PIP"
  | docker => None
  end.

(** The arrow function mapped over the advisory nodes. *)
Definition advisoryToVulnerability (vuln : RawAdvisoryNode) : Vulnerability :=
  let a := advisory vuln in
  {| vuln_id := ghsaId a;
     vuln_severity := Js.or_else (Js.toLowerCase <$> adv_severity a) "medium";
     vuln_title := adv_summary a;
     vuln_description := adv_description a;
     vuln_cvss := Js.Num <$> adv_cvss_score a;
     vuln_cwe := default [] (adv_cweIds a);
     vuln_references := default [] (adv_reference_urls a);
     vuln_fixedIn := firstPatchedVersion_identifier vuln |}.

Definition fetchGitHubAdvisories (pkg : PackageInfo) : M W (list Vulnerability) :=
  githubToken ← observe env_GITHUB_TOKEN;
  if negb (Js.truthy githubToken) then mret []
  else
    match githubEcosystem (pkg_ecosystem pkg) with
    | None => mret []
    | Some ecosystem =>
        tryCatch
          (nodes ← githubAdvisories (default "" githubToken) ecosystem (pkg_name pkg);
           match nodes with
           | None => mret []
           | Some vulns => mret (advisoryToVulnerability <$> vulns)
           end)
          (fun _ => mret [])
    end.

Definition osvEcosystem (e : Ecosystem) : string :=
  match e with
  | npm => "npm"
  | python => "PyPI"
  | docker => "Docker"
  end.

(** The severity computed at the head of the arrow function mapped over the
    OSV records. *)
Definition osvSeverity (vuln : RawOsvVuln) : string :=
  let severity := "medium"%string in
  let byScore :=
    match osv_score vuln with
    | Some score =>
        if Js.truthy_value score then
          if Js.ge_value score (9 # 1) then "critical"%string
          else if Js.ge_value score (7 # 1) then "high"%string
          else if Js.ge_value score (4 # 1) then "medium"%string
          else "low"%string
        else severity
    | None => severity
    end in
  match osv_database_specific_severity vuln with
  | Some tag => if Js.truthy_string tag then Js.toLowerCase tag else byScore
  | None => byScore
  end.

Definition osvToVulnerability (vuln : RawOsvVuln) : Vulnerability :=
  {| vuln_id := osv_id vuln;
     vuln_severity := osvSeverity vuln;
     vuln_title := Js.or_else (osv_summary vuln) "Security vulnerability";
     vuln_description :=
       Js.or_else (osv_details vuln)
         (Js.or_else (osv_summary vuln) "No description available");
     vuln_cvss := osv_score vuln;
     vuln_cwe := default [] (osv_database_specific_cwe_ids vuln);
     vuln_references := default [] (osv_reference_urls vuln);
     vuln_fixedIn := osv_fixed vuln |}.

Definition osvQueryFor (pkg : PackageInfo) : OsvQuery :=
  {| q_name := pkg_name pkg;
     q_ecosystem := osvEcosystem (pkg_ecosystem pkg);
     q_version :=
       if String.eqb (pkg_version pkg) "latest" then None else Some (pkg_version pkg) |}.

Definition fetchOSVVulnerabilities (pkg : PackageInfo) : M W (list Vulnerability) :=
  tryCatch
    (data ← osvVulns (osvQueryFor pkg);
     match data with
     | None => mret []
     | Some vulns => mret (osvToVulnerability <$> take 10 vulns)
     end)
    (fun _ => mret []).

(** Fallback vulnerability database for demo/offline *)
Definition FALLBACK_VULNERABILITIES : gmap string (list Vulnerability) :=
  list_to_map
    [ ("lodash"%string,
       [ {| vuln_id := "CVE-2021-23337";
            vuln_severity := "high";
            vuln_title := "Command Injection";
            vuln_description :=
              "Lodash versions prior to 4.17.21 are vulnerable to Command Injection via template.";
            vuln_cvss := Some (Js.Num (72 # 10));
            vuln_cwe := ["CWE-78"%string];
            vuln_references := ["https://nvd.nist.gov/vuln/detail/CVE-2021-23337"%string];
            vuln_fixedIn := Some "4.17.21"%string |} ]);
      ("express"%string,
       [ {| vuln_id := "CVE-2022-24999";
            vuln_severity := "medium";
            vuln_title := "Open Redirect";
            vuln_description := "Express.js vulnerable to open redirect via malformed URLs.";
            vuln_cvss := Some (Js.Num (61 # 10));
            vuln_cwe := ["CWE-601"%string];
            vuln_references := ["https://nvd.nist.gov/vuln/detail/CVE-2022-24999"%string];
            vuln_fixedIn := Some "4.17.3"%string |} ]);
      ("django"%string,
       [ {| vuln_id := "CVE-2023-23969";
            vuln_severity := "critical";
            vuln_title := "SQL Injection";
            vuln_description := "Django 3.2 before 3.2.18 allows SQL injection.";
            vuln_cvss := Some (Js.Num (98 # 10));
            vuln_cwe := ["CWE-89"%string];
            vuln_references := ["https://nvd.nist.gov/vuln/detail/CVE-2023-23969"%string];
            vuln_fixedIn := Some "3.2.18"%string |} ]);
      ("requests"%string,
       [ {| vuln_id := "CVE-2023-32681";
            vuln_severity := "medium";
            vuln_title := "Unintended Proxy Authentication";
            vuln_description := "Requests library can leak Proxy-Authorization headers.";
            vuln_cvss := Some (Js.Num (61 # 10));
            vuln_cwe := ["CWE-200"%string];
            vuln_references := ["https://nvd.nist.gov/vuln/detail/CVE-2023-32681"%string];
            vuln_fixedIn := Some "2.31.0"%string |} ]);
      ("nginx"%string,
       [ {| vuln_id := "CVE-2021-23017";
            vuln_severity := "high";
            vuln_title := "Off-by-one Buffer Overflow";
            vuln_description := "Nginx DNS resolver off-by-one heap write.";
            vuln_cvss := Some (Js.Num (81 # 10));
            vuln_cwe := ["CWE-193"%string];
            vuln_references := ["https://nvd.nist.gov/vuln/detail/CVE-2021-23017"%string];
            vuln_fixedIn := Some "1.20.1"%string |} ]) ].

(** The value [fetchVulnerabilities] resolves to.  Its declared type is
    [Vulnerability[]]; the read [FALLBACK_VULNERABILITIES[pkg.name]] can
    also produce a member of [Object.prototype]. *)
Inductive VulnsValue :=
| Array (array : list Vulnerability)
| PrototypeMember (name : string).

(** One of the two [for (const vuln of ...)] loops: a vulnerability is
    pushed when its id is not in [seenIds] yet. *)
Fixpoint pushUnseen (source : list Vulnerability) (seenIds : gset string)
    (vulnerabilities : list Vulnerability) : gset string * list Vulnerability :=
  match source with
  | [] => (seenIds, vulnerabilities)
  | vuln :: rest =>
      if bool_decide (vuln_id vuln ∈ seenIds)
      then pushUnseen rest seenIds vulnerabilities
      else pushUnseen rest ({[vuln_id vuln]} ∪ seenIds) (vulnerabilities ++ [vuln])
  end.

(** The two loops in sequence, on the lists the two sources returned. *)
Definition merge (githubVulns osvVulns : list Vulnerability) : list Vulnerability :=
  let '(seenIds, vulnerabilities) := pushUnseen githubVulns ∅ [] in
  snd (pushUnseen osvVulns seenIds vulnerabilities).

(** The tail of [fetchVulnerabilities]: use fallback data if no
    vulnerabilities were found from the APIs. *)
Definition orFallback (pkg : PackageInfo) (vulnerabilities : list Vulnerability)
    : VulnsValue :=
  match vulnerabilities with
  | [] =>
      match Js.get FALLBACK_VULNERABILITIES (pkg_name pkg) with
      | Js.Own entries => Array entries
      | Js.Inherited member => PrototypeMember member
      | Js.Undefined => Array vulnerabilities
      end
  | _ :: _ => Array vulnerabilities
  end.

Definition fetchVulnerabilities (pkg : PackageInfo) : M W VulnsValue :=
  let start : gset string * list Vulnerability := (∅, []) in
  afterGitHub ←
    tryCatch
      (githubVulns ← fetchGitHubAdvisories pkg;
       mret (pushUnseen githubVulns start.1 start.2))
      (fun _ => mret start);
  afterOSV ←
    tryCatch
      (osvVulns ← fetchOSVVulnerabilities pkg;
       mret (pushUnseen osvVulns afterGitHub.1 afterGitHub.2))
      (fun _ => mret afterGitHub);
  mret (orFallback pkg afterOSV.2).

End Adapters.
End Vulns.

(** ** Main scan function *)

Module Scan.

Section Orchestrator.
Context {W : Type} {dates : Js.DateParser} {numbers : Js.NumberParser}
  {upstream : Upstream W}.

(** The call [calculateTrustScore(vulnerabilities, ...)] on whatever
    [fetchVulnerabilities] resolved to: its first statement calls
    [vulnerabilities.filter], which only an array has. *)
Definition callCalculateTrustScore (clock : Js.Clock) (vulns : Vulns.VulnsValue)
    (meta : option Metadata) (deps : option (gmap string string))
    (stats : option GitHubStats) (downloads : option DownloadStats)
    : M W (list Vulnerability * TrustScore) :=
  match vulns with
  | Vulns.Array array =>
      mret (array, Trust.calculateTrustScore clock array meta deps stats downloads)
  | Vulns.PrototypeMember _ =>
      throw (TypeError "vulnerabilities.filter is not a function")
  end.

(** Fetch package data based on ecosystem. *)
Definition fetchPackageData (pkg : PackageInfo) : M W (Metadata * DownloadStats) :=
  match pkg_ecosystem pkg with
  | npm =>
      meta ← fetchNpmPackageData (pkg_name pkg) (pkg_version pkg);
      downloads ← fetchNpmDownloadStats (pkg_name pkg);
      mret (meta, downloads)
  | python =>
      meta ← fetchPypiPackageData (pkg_name pkg);
      downloads ← fetchPypiDownloadStats (pkg_name pkg);
      mret (meta, downloads)
  | docker =>
      meta ← fetchDockerImageData (pkg_name pkg);
      mret (meta, emptyDownloadStats)
  end.

Definition withHasSecurity (meta : Metadata) (flag : bool) : Metadata :=
  {| meta_description := meta_description meta; meta_license := meta_license meta;
     meta_author := meta_author meta; meta_downloads := meta_downloads meta;
     meta_stars := meta_stars meta; meta_lastPublish := meta_lastPublish meta;
     meta_homepage := meta_homepage meta; meta_repository := meta_repository meta;
     meta_dependencies := meta_dependencies meta;
     meta_latestVersion := meta_latestVersion meta;
     meta_currentVersion := meta_currentVersion meta;
     meta_isDeprecated := meta_isDeprecated meta; meta_npmUrl := meta_npmUrl meta;
     meta_githubUrl := meta_githubUrl meta; meta_officialUrl := meta_officialUrl meta;
     meta_maintainers := meta_maintainers meta; meta_hasTests := meta_hasTests meta;
     meta_hasSecurity := Some flag; meta_bundleSize := meta_bundleSize meta |}.

(** Fetch GitHub stats if repository URL exists. *)
Definition fetchRepositoryStats (meta : Metadata) : M W (Metadata * option GitHubStats) :=
  match meta_repository meta with
  | Some repository =>
      if Js.truthy_string repository then
        stats ← fetchGitHubStats repository;
        match stats with
        | Some g =>
            mret (withHasSecurity meta (bool_decide ("security"%string ∈ gh_topics g)),
                  Some g)
        | None => mret (meta, None)
        end
      else mret (meta, None)
  | None => mret (meta, None)
  end.

(** The body of the [try] block. *)
Definition analyse (pkg : PackageInfo) : M W PackageAnalysis :=
  '(meta, downloads) ← fetchPackageData pkg;
  '(meta, stats) ← fetchRepositoryStats meta;
  vulns ← Vulns.fetchVulnerabilities pkg;
  clock ← observe Date_now;
  '(array, result) ←
    callCalculateTrustScore clock vulns (Some meta) (Some (default ∅ (meta_dependencies meta)))
      stats (Some downloads);
  description ← generateAIDescription (pkg_name pkg) (pkg_ecosystem pkg) meta stats;
  mret {| package := pkg;
          vulnerabilities := array;
          trustScore := score result;
          trustScoreBreakdown := breakdown result;
          metadata := meta;
          githubStats := stats;
          downloadStats := Some downloads;
          aiDescription := Some description |}.

(** The record pushed by the [catch] block: even on error, minimal data is
    added so that the package shows up in the results. *)
Definition degraded (pkg : PackageInfo) : PackageAnalysis :=
  {| package := pkg;
     vulnerabilities := [];
     trustScore := 0;
     trustScoreBreakdown :=
       {| security := 0; maintenance := 0; popularity := 0; dependencies := 0 |};
     metadata :=
       {| meta_description := Some "Error during analysis"%string; meta_license := None;
          meta_author := None; meta_downloads := None; meta_stars := None;
          meta_lastPublish := None; meta_homepage := None; meta_repository := None;
          meta_dependencies := None; meta_latestVersion := None;
          meta_currentVersion := None; meta_isDeprecated := None; meta_npmUrl := None;
          meta_githubUrl := None; meta_officialUrl := None; meta_maintainers := None;
          meta_hasTests := None; meta_hasSecurity := None; meta_bundleSize := None |};
     githubStats := None;
     downloadStats := None;
     aiDescription := Some "Unable to generate description due to analysis error"%string |}.

(** One iteration of the [for] loop. *)
Definition scanOne (pkg : PackageInfo) (results : list PackageAnalysis)
    : M W (list PackageAnalysis) :=
  tryCatch
    (analysis ← analyse pkg; mret (results ++ [analysis]))
    (fun _ => mret (results ++ [degraded pkg])).

Fixpoint scanLoop (packages : list PackageInfo) (results : list PackageAnalysis)
    : M W (list PackageAnalysis) :=
  match packages with
  | [] => mret results
  | pkg :: rest => results ← scanOne pkg results; scanLoop rest results
  end.

Definition scanPackages (packages : list PackageInfo) : M W (list PackageAnalysis) :=
  scanLoop packages [].

End Orchestrator.
End Scan.

(** ** The rules in the words of the specification *)

(** The reconstruction the specification gives for the composite:
    [round(security*0.4 + maintenance*0.25 + popularity*0.20 +
    dependencies*0.15)] over the breakdown. *)
Definition weightedBreakdown (b : TrustScoreBreakdown) : Z :=
  Js.Math_round (inject_Z (security b) * (4 # 10) + inject_Z (maintenance b) * (25 # 100)
                 + inject_Z (popularity b) * (20 # 100)
                 + inject_Z (dependencies b) * (15 # 100))%Q.

(** Milliseconds in a day, [1000 * 60 * 60 * 24]. *)
Definition msPerDay : Z := 86400000.

(** The age in milliseconds, at the reading [now], of a date property:
    [None] when the property is absent, empty or does not parse. *)
Definition ageAt {dates : Js.DateParser} (now : Z) (date : option string) : option Z :=
  match date with
  | Some s => if Js.truthy_string s then (fun t => now - t) <$> Js.Date_parse s else None
  | None => None
  end.

(** The maintenance rule in words, over ages: what is subtracted for the
    last publish and what is added for the last commit. *)
Definition publishPenalty (age : option Z) : Z :=
  match age with
  | Some ms =>
      if 730 * msPerDay <? ms then 15
      else if 365 * msPerDay <? ms then 10
      else if 180 * msPerDay <? ms then 5
      else 0
  | None => 0
  end.

Definition commitBonus (age : option Z) : Z :=
  match age with
  | Some ms => if ms <? 30 * msPerDay then 5 else 0
  | None => 0
  end.

(** The same rule with the thresholds read as "at least", the way the
    claim words it. *)
Definition publishPenaltyAtLeast (age : option Z) : Z :=
  match age with
  | Some ms =>
      if 730 * msPerDay <=? ms then 15
      else if 365 * msPerDay <=? ms then 10
      else if 180 * msPerDay <=? ms then 5
      else 0
  | None => 0
  end.

(** The advisory ids of a list, as a set. *)
Definition ids (l : list Vulnerability) : gset string := list_to_set (vuln_id <$> l).

(** The first record of a list that carries the advisory id [id]. *)
Definition findById (id : string) (l : list Vulnerability) : option Vulnerability :=
  List.find (fun v => String.eqb (vuln_id v) id) l.

(** A vulnerability carries a severity: its [severity] is a non-empty
    string. *)
Definition hasSeverity (v : Vulnerability) : Prop :=
  Js.truthy_string (vuln_severity v) = true.

(** Both live sources yield nothing for [pkg] when queried from the world
    [w], GitHub first. *)
Definition noLiveResults {W} {numbers : Js.NumberParser} {upstream : Upstream W}
    (pkg : PackageInfo) (w : W) : Prop :=
  exists w1 w2,
    Vulns.fetchGitHubAdvisories pkg w = (inr [], w1)
    /\ Vulns.fetchOSVVulnerabilities pkg w1 = (inr [], w2).

(** The outcome of a scan in the words of the specification: from the
    world [w], each package in turn contributes its analysis, or, when its
    processing throws, its degraded record; the next package is processed
    from the world the previous one left. *)
Inductive Scanned {W} {dates : Js.DateParser} {numbers : Js.NumberParser}
    {upstream : Upstream W}
  : list PackageInfo -> W -> list PackageAnalysis -> W -> Prop :=
| Scanned_nil w : Scanned [] w [] w
| Scanned_done pkg rest w analysis w1 results w2 :
    Scan.analyse pkg w = (inr analysis, w1) ->
    Scanned rest w1 results w2 ->
    Scanned (pkg :: rest) w (analysis :: results) w2
| Scanned_failed pkg rest w error w1 results w2 :
    Scan.analyse pkg w = (inl error, w1) ->
    Scanned rest w1 results w2 ->
    Scanned (pkg :: rest) w (Scan.degraded pkg :: results) w2.

(** ** Sample inputs *)

Module Samples.

(** A clock whose two readings are the instant [iso]. *)
Definition clockAt (iso : string) : Js.Clock :=
  let now := default 0 (IsoDate.parse iso) in
  {| Js.nowAtPublish := now; Js.nowAtCommit := now |}.

(** Registry metadata whose only property is [lastPublish]. *)
Definition publishedAt (iso : string) : Metadata :=
  {| meta_description := None; meta_license := None; meta_author := None;
     meta_downloads := None; meta_stars := None; meta_lastPublish := Some iso;
     meta_homepage := None; meta_repository := None; meta_dependencies := None;
     meta_latestVersion := None; meta_currentVersion := None;
     meta_isDeprecated := None; meta_npmUrl := None; meta_githubUrl := None;
     meta_officialUrl := None; meta_maintainers := None; meta_hasTests := None;
     meta_hasSecurity := None; meta_bundleSize := None |}.

Definition vulnerability (id severity : string) : Vulnerability :=
  {| vuln_id := id; vuln_severity := severity; vuln_title := "title";
     vuln_description := "description"; vuln_cvss := None; vuln_cwe := [];
     vuln_references := []; vuln_fixedIn := None |}.

(** One critical and two high vulnerabilities. *)
Definition oneCriticalTwoHigh : list Vulnerability :=
  [ vulnerability "GHSA-1" "critical"; vulnerability "GHSA-2" "high";
    vulnerability "GHSA-3" "high" ].

(** A dependency map with [n] entries. *)
Definition dependencyMap (n : nat) : gmap string string :=
  list_to_map
    ((fun i => (String (ascii_of_nat i) EmptyString, "1.0.0"%string)) <$> seq 33 n).

(** An OSV record with the given id, summary, severity tag and score. *)
Definition osvScored (id : string) (summary tag : option string) (score : option Js.Value)
    : RawOsvVuln :=
  {| osv_id := id; osv_summary := summary; osv_details := None;
     osv_database_specific_severity := tag; osv_database_specific_cwe_ids := None;
     osv_score := score; osv_reference_urls := None; osv_fixed := None |}.

(** The same with a numeric score. *)
Definition osvRecord (id : string) (summary tag : option string) (score : option Q)
    : RawOsvVuln :=
  osvScored id summary tag (Js.Num <$> score).

(** A sample of [StringToNumber]: the empty string is 0, a numeral
    [digits], [digits.digits], [digits.] or [.digits] is its value, and
    every other string is answered with [NaN].  That is what the runtime
    answers on strings without white space, sign, exponent, radix prefix
    and [Infinity]. *)
Fixpoint uptoDot (s : list ascii) : list ascii * option (list ascii) :=
  match s with
  | [] => ([], None)
  | c :: rest =>
      if Ascii.eqb c "." then ([], Some rest)
      else let '(whole, fraction) := uptoDot rest in (c :: whole, fraction)
  end.

Definition numbers : Js.NumberParser :=
  fun s =>
    match uptoDot (list_ascii_of_string s) with
    | ([], None) => Js.Finite 0
    | ([], Some []) => Js.NaN
    | (whole, fraction) =>
        match IsoDate.digits 0 whole, IsoDate.digits 0 (default [] fraction) with
        | Some n, Some f =>
            Js.Finite (inject_Z n
                       + inject_Z f / inject_Z (10 ^ Z.of_nat (length (default [] fraction))))%Q
        | _, _ => Js.NaN
        end
    end.

(** The CVSS vector of a critical vulnerability, as the OSV service sends
    it in [severity[0].score]. *)
Definition cvssVector : string := "CVSS:3.1/AV:N/AC:L/PR:N/UI:N/S:U/C:H/I:H/A:H".

(** A GitHub advisory node with the given id, summary, severity and score. *)
Definition advisoryNode (id summary : string) (severity : option string)
    (score : option Q) : RawAdvisoryNode :=
  {| advisory :=
       {| ghsaId := id; adv_summary := summary; adv_description := "description";
          adv_severity := severity; adv_cvss_score := score; adv_cweIds := None;
          adv_reference_urls := None |};
     firstPatchedVersion_identifier := None |}.

(** The world without a network and without credentials: every
    [fetchWithRetry] gives [null], so every fetcher returns its default,
    and the description generator returns its fallback text. *)
Definition offline : Upstream unit :=
  {| env_GITHUB_TOKEN := fun _ => None;
     githubAdvisories := fun _ _ _ => mret None;
     osvVulns := fun _ => mret None;
     fetchNpmPackageData := fun _ _ => mret emptyMetadata;
     fetchPypiPackageData := fun _ => mret emptyMetadata;
     fetchDockerImageData := fun _ => mret emptyMetadata;
     fetchNpmDownloadStats := fun _ => mret emptyDownloadStats;
     fetchPypiDownloadStats := fun _ => mret emptyDownloadStats;
     fetchGitHubStats := fun _ => mret None;
     generateAIDescription := fun _ _ meta _ =>
       mret (Js.or_else (meta_description meta) "No description available");
     Date_now := fun _ => clockAt "2024-01-01T00:00:00.000Z" |}.

(** The offline world, except that OSV answers with one advisory, graded
    the way the service grades: by a CVSS vector and nothing else. *)
Definition vectorOnly : Upstream unit :=
  {| env_GITHUB_TOKEN := fun _ => None;
     githubAdvisories := fun _ _ _ => mret None;
     osvVulns := fun _ =>
       mret (Some [ osvScored "GHSA-35jh-r3h4-6jhm"
                      (Some "Command Injection in lodash"%string) None
                      (Some (Js.Str cvssVector)) ]);
     fetchNpmPackageData := fun _ _ => mret emptyMetadata;
     fetchPypiPackageData := fun _ => mret emptyMetadata;
     fetchDockerImageData := fun _ => mret emptyMetadata;
     fetchNpmDownloadStats := fun _ => mret emptyDownloadStats;
     fetchPypiDownloadStats := fun _ => mret emptyDownloadStats;
     fetchGitHubStats := fun _ => mret None;
     generateAIDescription := fun _ _ meta _ =>
       mret (Js.or_else (meta_description meta) "No description available");
     Date_now := fun _ => clockAt "2024-01-01T00:00:00.000Z" |}.

(** A world with a GitHub token in which both advisory services answer,
    and both know the advisory [CVE-1], under different titles. *)
Definition overlapping : Upstream unit :=
  {| env_GITHUB_TOKEN := fun _ => Some "token"%string;
     githubAdvisories := fun _ _ _ =>
       mret (Some [ advisoryNode "CVE-1" "title from GitHub" (Some "HIGH"%string) None;
                    advisoryNode "GHSA-2" "only on GitHub" None None ]);
     osvVulns := fun _ =>
       mret (Some [ osvRecord "OSV-3" (Some "only on OSV"%string) None (Some (95 # 10)%Q);
                    osvRecord "CVE-1" (Some "title from OSV"%string) None None ]);
     fetchNpmPackageData := fun _ _ => mret emptyMetadata;
     fetchPypiPackageData := fun _ => mret emptyMetadata;
     fetchDockerImageData := fun _ => mret emptyMetadata;
     fetchNpmDownloadStats := fun _ => mret emptyDownloadStats;
     fetchPypiDownloadStats := fun _ => mret emptyDownloadStats;
     fetchGitHubStats := fun _ => mret None;
     generateAIDescription := fun _ _ meta _ =>
       mret (Js.or_else (meta_description meta) "No description available");
     Date_now := fun _ => clockAt "2024-01-01T00:00:00.000Z" |}.

Definition pkg (name version : string) (ecosystem : Ecosystem) : PackageInfo :=
  {| pkg_name := name; pkg_version := version; pkg_ecosystem := ecosystem |}.

End Samples.

(** ** The rest of the scanner: words for its properties *)

(** The severities [calculateTrustScore] counts against a package. *)
Definition counted (v : Vulnerability) : bool :=
  String.eqb (vuln_severity v) "critical" || String.eqb (vuln_severity v) "high"
  || String.eqb (vuln_severity v) "medium".

(** ** JSON values and object literals

    A JSON text as [JSON.parse] reads it, and the object the runtime builds
    from the members of a JSON object or of a spread: an assignment to a
    key that is there keeps the key's place, and the keys come in the
    order the runtime lists them, array indices first in ascending order,
    then the other keys in the order of their creation. *)

Module Json.

Inductive t :=
| Null
| Bool (b : bool)
| Number (n : Q)
| Str (s : string)
| Array (items : list t)
| Object (members : list (string * t)).

(** [JSON.parse]: a built-in; [None] stands for the [SyntaxError]. *)
Class Parser := parse : string -> option t.

(** The array index a key stands for, if any: a decimal numeral without
    leading zero, below [2^32 - 1]. *)
Definition arrayIndex (key : string) : option Z :=
  match list_ascii_of_string key with
  | [] => None
  | ["0"%char] => Some 0
  | c :: cs =>
      if Ascii.eqb c "0" then None
      else
        match IsoDate.digits 0 (c :: cs) with
        | Some n => if n <? 4294967295 then Some n else None
        | None => None
        end
  end.

(** Creating the index property [i] in an object that does not have it. *)
Fixpoint placeIndex (i : Z) (member : string * t) (o : list (string * t))
    : list (string * t) :=
  match o with
  | [] => [member]
  | (key, value) :: rest =>
      match arrayIndex key with
      | Some j => if i <? j then member :: o else (key, value) :: placeIndex i member rest
      | None => member :: o
      end
  end.

Definition has (key : string) (o : list (string * t)) : bool :=
  existsb (fun member => String.eqb member.1 key) o.

(** [o[key] = value] on the own properties [o]. *)
Definition define (member : string * t) (o : list (string * t)) : list (string * t) :=
  if has member.1 o then
    (fun old => if String.eqb old.1 member.1 then member else old) <$> o
  else
    match arrayIndex member.1 with
    | Some i => placeIndex i member o
    | None => o ++ [member]
    end.

(** The object that results from defining the members one after the other,
    starting from [o]. *)
Definition defineAll (members : list (string * t)) (o : list (string * t))
    : list (string * t) :=
  fold_left (fun o member => define member o) members o.

(** The own property [key] of the object [o]. *)
Definition own (key : string) (o : list (string * t)) : option t :=
  snd <$> List.find (fun member => String.eqb member.1 key) o.

(** The numeral of an index. *)
Fixpoint indices {A} (from : nat) (items : list A) : list (string * A) :=
  match items with
  | [] => []
  | item :: rest => (pretty from, item) :: indices (S from) rest
  end.

(** The own enumerable properties of a value, in order: what a spread
    [...value] copies and what [Object.entries(value)] lists.  [None] is
    [undefined]. *)
Definition properties (value : option t) : list (string * t) :=
  match value with
  | Some (Object members) => defineAll members []
  | Some (Array items) => indices 0 items
  | Some (Str s) =>
      indices 0 ((fun c => Str (String c EmptyString)) <$> list_ascii_of_string s)
  | Some Null | Some (Bool _) | Some (Number _) | None => []
  end.

(** [value.key] for a key that no prototype provides; the access throws
    on [null]. *)
Definition member (key : string) (value : t) : Exn + option t :=
  match value with
  | Null => inl (TypeError "Cannot read properties of null")
  | Object members => inr (own key (defineAll members []))
  | Bool _ | Number _ | Str _ | Array _ => inr None
  end.

End Json.

(** ** Text and regular expressions

    Strings as lists of characters where the code walks through them.
    The model is exact on ASCII text.  Of the white space of [\s] and of
    [trim()] it has the ASCII part: tab, line feed, vertical tab, form
    feed, carriage return and space; of the line terminators that [.]
    leaves out it has line feed and carriage return.  Beyond ASCII the
    runtime knows more of both (U+00A0, U+FEFF, U+2028, U+2029 and the
    other Unicode spaces), so the theorems that say what a line is read
    as are stated of ASCII lines. *)

Module Text.

(** A character of the ASCII range, [U+0000] to [U+007F]. *)
Definition isAscii (c : ascii) : bool := (nat_of_ascii c <? 128)%nat.

(** The ASCII white space. *)
Definition isSpace (c : ascii) : bool :=
  let n := nat_of_ascii c in
  ((9 <=? n)%nat && (n <=? 13)%nat || (n =? 32)%nat)%bool.

(** The length of the longest prefix of [s] whose characters satisfy [p]. *)
Fixpoint span (p : ascii -> bool) (s : list ascii) : nat :=
  match s with
  | c :: rest => if p c then S (span p rest) else O
  | [] => O
  end.

Definition trimStart (s : list ascii) : list ascii := drop (span isSpace s) s.

Definition trimEnd (s : list ascii) : list ascii := rev (trimStart (rev s)).

(** [s.trim()] *)
Definition trim (s : list ascii) : list ascii := trimEnd (trimStart s).

(** [s.split(sep)] for a separator of one character; the result is never
    empty. *)
Fixpoint split (sep : ascii) (s : list ascii) : list (list ascii) :=
  match s with
  | [] => [[]]
  | c :: rest =>
      if Ascii.eqb c sep then [] :: split sep rest
      else
        match split sep rest with
        | piece :: pieces => (c :: piece) :: pieces
        | [] => [[c]]
        end
  end.

(** [s.startsWith(c)] for one character. *)
Definition startsWith (c : ascii) (s : list ascii) : bool :=
  match s with
  | c' :: _ => Ascii.eqb c' c
  | [] => false
  end.

End Text.

(** The regular expressions of the scanner are sequences of single
    characters or character classes, each taken once or under a greedy
    [?], [*] or [+]; a group is one such item.  This is their matcher:
    each item first takes as much as it can and gives back one character
    at a time while the rest of the pattern fails, as the backtracking
    matcher of the runtime does. *)

Module Re.

Inductive Quantifier := Once | Optional | Star | Plus.

Record Atom := { test : ascii -> bool; quantifier : Quantifier }.

Definition least (q : Quantifier) : nat :=
  match q with
  | Once | Plus => 1
  | Optional | Star => 0
  end.

Definition most (q : Quantifier) (run : nat) : nat :=
  match q with
  | Once | Optional => Nat.min 1 run
  | Star | Plus => run
  end.

(** The first of [f k], [f (k - 1)], ..., [f lo] that succeeds. *)
Fixpoint descend {A} (f : nat -> option A) (lo k : nat) : option A :=
  if (k <? lo)%nat then None
  else
    match f k with
    | Some r => Some r
    | None =>
        match k with
        | O => None
        | S k' => descend f lo k'
        end
    end.

(** A match of the pattern at the start of [s], up to the end of [s] when
    the pattern ends in [$]: what each item matched. *)
Fixpoint matchHere (atoms : list Atom) (toEnd : bool) (s : list ascii)
    : option (list (list ascii)) :=
  match atoms with
  | [] =>
      if toEnd then match s with [] => Some [] | _ :: _ => None end else Some []
  | a :: rest =>
      descend (fun k => cons (take k s) <$> matchHere rest toEnd (drop k s))
        (least (quantifier a)) (most (quantifier a) (Text.span (test a) s))
  end.

(** The leftmost match of a pattern without [^]: where it starts and what
    each item matched. *)
Fixpoint search (atoms : list Atom) (toEnd : bool) (s : list ascii)
    : option (nat * list (list ascii)) :=
  match matchHere atoms toEnd s with
  | Some captures => Some (O, captures)
  | None =>
      match s with
      | [] => None
      | _ :: rest =>
          (fun found => (S found.1, found.2)) <$> search atoms toEnd rest
      end
  end.

(** [s.replace(pattern, '')] for a pattern without the [g] flag. *)
Definition remove (atoms : list Atom) (anchored toEnd : bool) (s : list ascii)
    : list ascii :=
  let found :=
    if anchored then (fun captures => (O, captures)) <$> matchHere atoms toEnd s
    else search atoms toEnd s in
  match found with
  | Some (start, captures) => take start s ++ drop (start + length (concat captures)) s
  | None => s
  end.

(** Items. *)
Definition char (c : ascii) : Atom := {| test := Ascii.eqb c; quantifier := Once |}.

Definition charIgnoreCase (c : ascii) : Atom :=
  {| test := fun x => Ascii.eqb (Js.lower_ascii x) (Js.lower_ascii c); quantifier := Once |}.

Definition class (p : ascii -> bool) (q : Quantifier) : Atom :=
  {| test := p; quantifier := q |}.

(** The i-th capture, [''] when there is none. *)
Definition capture (i : nat) (captures : list (list ascii)) : list ascii :=
  nth i captures [].

End Re.

(** ** Parsing functions *)

Module Parse.

(** [[^:\s]] *)
Definition notColonNorSpace (c : ascii) : bool :=
  negb (Ascii.eqb c ":" || Text.isSpace c).

(** [[^\s]] *)
Definition notSpace (c : ascii) : bool := negb (Text.isSpace c).

(** The pattern of [parseDockerfile], matched from the start of the line
    and ignoring case: [FROM], [\s+], the group [[^:\s]+], [:?] and the
    group [[^\s]*].  The groups are items 5 and 7. *)
Definition FROM_line : list Re.Atom :=
  [ Re.charIgnoreCase "F"; Re.charIgnoreCase "R"; Re.charIgnoreCase "O";
    Re.charIgnoreCase "M"; Re.class Text.isSpace Re.Plus;
    Re.class notColonNorSpace Re.Plus; Re.class (Ascii.eqb ":") Re.Optional;
    Re.class notSpace Re.Star ].

Definition dockerImage (fromMatch : list (list ascii)) : PackageInfo :=
  {| pkg_name := string_of_list_ascii (Re.capture 5 fromMatch);
     pkg_version := Js.or_else (Some (string_of_list_ascii (Re.capture 7 fromMatch))) "latest";
     pkg_ecosystem := docker |}.

(** The [for (const line of lines)] loop of [parseDockerfile]. *)
Fixpoint dockerLines (lines : list (list ascii)) (packages : list PackageInfo)
    : list PackageInfo :=
  match lines with
  | [] => packages
  | line :: rest =>
      let trimmed := Text.trim line in
      match Re.matchHere FROM_line false trimmed with
      | Some fromMatch => dockerLines rest (packages ++ [dockerImage fromMatch])
      | None => dockerLines rest packages
      end
  end.

(** Parse Dockerfile *)
Definition parseDockerfile (content : string) : list PackageInfo :=
  dockerLines (Text.split "010" (list_ascii_of_string content)) [].

(** [[a-zA-Z0-9\-_.]] *)
Definition nameChar (c : ascii) : bool :=
  let n := nat_of_ascii c in
  ((97 <=? n)%nat && (n <=? 122)%nat || (65 <=? n)%nat && (n <=? 90)%nat
   || (48 <=? n)%nat && (n <=? 57)%nat
   || Ascii.eqb c "-" || Ascii.eqb c "_" || Ascii.eqb c ".")%bool.

(** [[=<>!]] *)
Definition operatorChar (c : ascii) : bool :=
  Ascii.eqb c "=" || Ascii.eqb c "<" || Ascii.eqb c ">" || Ascii.eqb c "!".

(** [.] on ASCII text: anything but line feed and carriage return. *)
Definition dot (c : ascii) : bool := negb (Ascii.eqb c "010" || Ascii.eqb c "013").

(** [/^([a-zA-Z0-9\-_.]+)\s*([=<>!]=?)\s*(.+)$/]; group 1 is item 0 and
    group 3 is item 5. *)
Definition requirement_line : list Re.Atom :=
  [ Re.class nameChar Re.Plus; Re.class Text.isSpace Re.Star;
    Re.class operatorChar Re.Once; Re.class (Ascii.eqb "=") Re.Optional;
    Re.class Text.isSpace Re.Star; Re.class dot Re.Plus ].

(** [/^[a-zA-Z0-9\-_.]+$/] *)
Definition bare_name : list Re.Atom := [ Re.class nameChar Re.Plus ].

(** [match[3].split(',')[0].trim()] *)
Definition firstConstraint (spec : list ascii) : list ascii :=
  Text.trim (hd [] (Text.split "," spec)).

(** The [for (const line of lines)] loop of [parseRequirementsTxt]. *)
Fixpoint requirementLines (lines : list (list ascii)) (packages : list PackageInfo)
    : list PackageInfo :=
  match lines with
  | [] => packages
  | line :: rest =>
      let trimmed := Text.trim line in
      if match trimmed with [] => true | _ :: _ => false end
         || Text.startsWith "#" trimmed
      then requirementLines rest packages
      else
        match Re.matchHere requirement_line true trimmed with
        | Some captures =>
            requirementLines rest
              (packages ++
               [ {| pkg_name := string_of_list_ascii (Re.capture 0 captures);
                    pkg_version :=
                      string_of_list_ascii (firstConstraint (Re.capture 5 captures));
                    pkg_ecosystem := python |} ])
        | None =>
            match Re.matchHere bare_name true trimmed with
            | Some _ =>
                requirementLines rest
                  (packages ++
                   [ {| pkg_name := string_of_list_ascii trimmed;
                        pkg_version := "latest";
                        pkg_ecosystem := python |} ])
            | None => requirementLines rest packages
            end
        end
  end.

(** Parse requirements.txt *)
Definition parseRequirementsTxt (content : string) : list PackageInfo :=
  requirementLines (Text.split "010" (list_ascii_of_string content)) [].

(** [/^[\^~]/] *)
Definition rangePrefix : list Re.Atom :=
  [ Re.class (fun c => Ascii.eqb c "^" || Ascii.eqb c "~") Re.Once ].

(** [(version as string).replace(/^[\^~]/, '')]; only a string has a
    [replace] to call. *)
Definition withoutRangePrefix (version : Json.t) : Exn + string :=
  match version with
  | Json.Str s =>
      inr (string_of_list_ascii (Re.remove rangePrefix true false (list_ascii_of_string s)))
  | _ => inl (TypeError "version.replace is not a function")
  end.

(** The [for (const [name, version] of Object.entries(deps))] loop. *)
Fixpoint packageEntries (entries : list (string * Json.t)) (packages : list PackageInfo)
    : Exn + list PackageInfo :=
  match entries with
  | [] => inr packages
  | (name, version) :: rest =>
      match withoutRangePrefix version with
      | inr stripped =>
          packageEntries rest
            (packages ++
             [ {| pkg_name := name; pkg_version := stripped; pkg_ecosystem := npm |} ])
      | inl e => inl e
      end
  end.

(** The body of the [try] block, after [JSON.parse]. *)
Definition packagesOf (data : Json.t) : Exn + list PackageInfo :=
  match Json.member "dependencies" data with
  | inl e => inl e
  | inr dependencies =>
      match Json.member "devDependencies" data with
      | inl e => inl e
      | inr devDependencies =>
          let deps :=
            Json.defineAll (Json.properties devDependencies)
              (Json.defineAll (Json.properties dependencies) []) in
          packageEntries deps []
      end
  end.

(** What the parsers throw: [new Error(message)]. *)
Inductive Thrown := Error (message : string).

(** Parse package.json *)
Definition parsePackageJson {json : Json.Parser} (content : string)
    : Thrown + list PackageInfo :=
  match Json.parse content with
  | Some data =>
      match packagesOf data with
      | inr packages => inr packages
      | inl _ => inl (Error "Invalid package.json format")
      end
  | None => inl (Error "Invalid package.json format")
  end.

End Parse.

(** ** Helper functions for reliable API calls *)

Module Net.

(** The arguments of [fetch]: a URL and a [RequestInit]. *)
Record Request := {
  url : string;
  method : option string;
  headers : list (string * string);
  body : option string
}.

(** A [Response], as far as the scanner looks at it: [ok], the [Link]
    header and what [json()] resolves to or rejects with. *)
Record Response := {
  ok : bool;
  link : option string;
  json : Exn + Json.t
}.

(** [fetchWithTimeout], which resolves to a response or throws (a network
    error, or the abort after [timeout] milliseconds), and the pause
    [await new Promise(resolve => setTimeout(resolve, delay))]. *)
Class Network (W : Type) := {
  fetchWithTimeout : Request -> Z -> M W Response;
  pause : Z -> W -> W
}.

Section Retry.
Context {W : Type} {network : Network W}.

(** [await new Promise(resolve => setTimeout(resolve, delay))] *)
Definition sleep (delay : Z) : M W unit := fun w => (inr tt, pause delay w).

(** The [for] loop of [fetchWithRetry] from the iteration [attempt] on;
    [remaining] is the number of iterations the loop condition
    [attempt < retries] still lets through, [retries - attempt].  The call
    sites pass 2 or 3 for [retries], or leave it at its default 3. *)
Fixpoint attempts (remaining : nat) (attempt : Z) (request : Request)
    (retries timeout : Z) : M W (option Response) :=
  match remaining with
  | O => mret None
  | S remaining' =>
      outcome ←
        tryCatch (response ← fetchWithTimeout request timeout; mret (Some response))
                 (fun _ => mret None);
      match outcome with
      | Some response => mret (Some response)
      | None =>
          let isLastAttempt := attempt =? retries - 1 in
          if isLastAttempt then mret None
          else
            let delay := 1000 * 2 ^ attempt in
            _ ← sleep delay;
            attempts remaining' (attempt + 1) request retries timeout
      end
  end.

(** Fetch with retry logic and exponential backoff *)
Definition fetchWithRetry (request : Request) (retries timeout : Z)
    : M W (option Response) :=
  attempts (Z.to_nat retries) 0 request retries timeout.

End Retry.

(** Safe JSON parse from response; [None] is [null], whether the response
    is missing or not [ok], the body is no JSON, or the body is the JSON
    text [null]. *)
Definition safeJsonParse (response : option Response) : option Json.t :=
  match response with
  | Some r =>
      if ok r then
        match json r with
        | inr Json.Null => None
        | inr value => Some value
        | inl _ => None
        end
      else None
  | None => None
  end.

(** A world in which the calls of [fetchWithTimeout] and the time paused
    can be read off. *)
Class Metered (W : Type) {network : Network W} := {
  calls : W -> Z;
  paused : W -> Z;
  fetch_calls : forall request timeout w,
    calls (fetchWithTimeout request timeout w).2 = calls w + 1;
  fetch_paused : forall request timeout w,
    paused (fetchWithTimeout request timeout w).2 = paused w;
  pause_calls : forall delay w, calls (pause delay w) = calls w;
  pause_paused : forall delay w, paused (pause delay w) = paused w + delay
}.

End Net.

(** ** The head of [fetchGitHubStats]: owner and repository of a URL *)

Module GitHub.

(** The pattern of [repoUrl.match]: [github\.com], one of [/] and [:], the
    group [[^\/]+], [\/] and the group [[^\/\.]+].  The groups are items 11
    and 13. *)
Definition repository_url : list Re.Atom :=
  (Re.char <$> list_ascii_of_string "github.com")
  ++ [ Re.class (fun c => Ascii.eqb c "/" || Ascii.eqb c ":") Re.Once;
       Re.class (fun c => negb (Ascii.eqb c "/")) Re.Plus;
       Re.char "/";
       Re.class (fun c => negb (Ascii.eqb c "/" || Ascii.eqb c ".")) Re.Plus ].

(** [/\.git$/] *)
Definition git_suffix : list Re.Atom := Re.char <$> list_ascii_of_string ".git".

(** [const [, owner, repo] = match; const cleanRepo = repo.replace(/\.git$/, '')];
    [None] where the function returns [null]. *)
Definition ownerAndRepo (repoUrl : string) : option (string * string) :=
  match Re.search repository_url false (list_ascii_of_string repoUrl) with
  | Some (_, captures) =>
      let owner := Re.capture 11 captures in
      let repo := Re.capture 13 captures in
      let cleanRepo := Re.remove git_suffix false true repo in
      Some (string_of_list_ascii owner, string_of_list_ascii cleanRepo)
  | None => None
  end.

End GitHub.

(** ** The scan route *)

Module Route.

(** An entry of the form data. *)
Inductive Entry :=
| Missing
| Field (value : string)
| Upload (name content : string).

Record ScanResult := {
  scanId : string;
  scanType : Ecosystem;
  fileName : string;
  totalPackages : Z;
  vulnerablePackages : Z;
  totalVulnerabilities : Z;
  criticalCount : Z;
  highCount : Z;
  mediumCount : Z;
  lowCount : Z;
  packages : list PackageAnalysis;
  timestamp : string;
  scanDate : string;
  createdAt : string
}.

(** [NextResponse.json(body, { status })] *)
Inductive Body :=
| Failure (error : string)
| Result (scan : ScanResult).

Record Reply := { status : Z; body : Body }.

(** What the handler takes from its surroundings besides the scanner: the
    instant [new Date()] rendered by [toISOString], the scan id built from
    [Date.now()] and [Math.random()], and the start of the save in the
    background, which the handler does not wait for. *)
Class Runtime (W : Type) := {
  isoNow : W -> string;
  newScanId : W -> string * W;
  startSave : ScanResult -> W -> W
}.

Definition ecosystemOf (type : string) : option Ecosystem :=
  if String.eqb type "npm" then Some npm
  else if String.eqb type "python" then Some python
  else if String.eqb type "docker" then Some docker
  else None.

(** [error instanceof Error ? error.message : 'Failed to scan packages'];
    [Rejected] is a rejection with something that is no [Error]. *)
Definition messageOf (e : Exn) : string :=
  match e with
  | TypeError message => message
  | Rejected _ => "Failed to scan packages"
  end.

Section Handler.
Context {W : Type} {dates : Js.DateParser} {numbers : Js.NumberParser}
  {upstream : Upstream W} {runtime : Runtime W}
  {json : Json.Parser}.

Definition freshScanId : M W string :=
  fun w => let '(id, w') := newScanId w in (inr id, w').

(** [void saveToDbAsync()] *)
Definition saveInBackground (scanResult : ScanResult) : M W unit :=
  fun w => (inr tt, startSave scanResult w).

(** Parse based on file type. *)
Definition parse (scanType : Ecosystem) (content : string)
    : Parse.Thrown + list PackageInfo :=
  match scanType with
  | npm => Parse.parsePackageJson content
  | python => inr (Parse.parseRequirementsTxt content)
  | docker => inr (Parse.parseDockerfile content)
  end.

(** Calculate statistics and build the scan result. *)
Definition buildScanResult (id now : string) (scanType : Ecosystem) (fileName : string)
    (packages : list PackageInfo) (packageAnalyses : list PackageAnalysis) : ScanResult :=
  let vulnerablePackages :=
    Z.of_nat (length (List.filter (fun p => 0 <? Z.of_nat (length (vulnerabilities p)))
                        packageAnalyses)) in
  let allVulnerabilities := flat_map vulnerabilities packageAnalyses in
  {| scanId := id;
     scanType := scanType;
     fileName := fileName;
     totalPackages := Z.of_nat (length packages);
     vulnerablePackages := vulnerablePackages;
     totalVulnerabilities := Z.of_nat (length allVulnerabilities);
     criticalCount := Trust.countSeverity "critical" allVulnerabilities;
     highCount := Trust.countSeverity "high" allVulnerabilities;
     mediumCount := Trust.countSeverity "medium" allVulnerabilities;
     lowCount := Trust.countSeverity "low" allVulnerabilities;
     packages := packageAnalyses;
     timestamp := now;
     scanDate := now;
     createdAt := now |}.

(** The handler from the validation of the form on; what it throws is
    caught by [POST].  An uploaded file is an [Upload], whose [text()]
    resolves to its content; a string entry has no [text] to call. *)
Definition respond (file type : Entry) : M W Reply :=
  match file with
  | Missing | Field "" =>
      mret {| status := 400; body := Failure "No file provided" |}
  | _ =>
      let scanType :=
        match type with
        | Field value => ecosystemOf value
        | Missing | Upload _ _ => None
        end in
      match scanType with
      | None =>
          mret {| status := 400;
                  body := Failure "Invalid or missing scan type. Must be: npm, python, or docker" |}
      | Some scanType =>
          match file with
          | Upload fileName content =>
              match parse scanType content with
              | inl (Parse.Error message) =>
                  mret {| status := 400; body := Failure ("Parse error: " +:+ message) |}
              | inr [] =>
                  mret {| status := 400; body := Failure "No packages found in file" |}
              | inr packages =>
                  packageAnalyses ←
                    tryCatch (analyses ← Scan.scanPackages packages; mret (inr analyses))
                             (fun _ => mret (inl tt));
                  match packageAnalyses with
                  | inl _ =>
                      mret {| status := 500;
                              body := Failure "Failed to scan packages. Please try again." |}
                  | inr packageAnalyses =>
                      now ← observe isoNow;
                      id ← freshScanId;
                      let scanResult :=
                        buildScanResult id now scanType fileName packages packageAnalyses in
                      _ ← saveInBackground scanResult;
                      mret {| status := 200; body := Result scanResult |}
                  end
              end
          | Missing | Field _ => throw (TypeError "file.text is not a function")
          end
      end
  end.

(** [POST]: the form data, or what reading it threw, to the reply. *)
Definition POST (form : Exn + Entry * Entry) : M W Reply :=
  tryCatch
    (match form with
     | inr (file, type) => respond file type
     | inl e => throw e
     end)
    (fun e => mret {| status := 500; body := Failure (messageOf e) |}).

End Handler.
End Route.

(** What an item may take. *)
Definition taken (a : Re.Atom) (piece : list ascii) : Prop :=
  Forall (fun c => Re.test a c = true) piece
  /\ (Re.least (Re.quantifier a) <= length piece)%nat
  /\ match Re.quantifier a with
     | Re.Once | Re.Optional => (length piece <= 1)%nat
     | Re.Star | Re.Plus => True
     end.

(** The string [rest] does not go on with something the item takes. *)
Definition stops (a : Re.Atom) (rest : list ascii) : Prop :=
  rest = [] \/ exists c t, rest = c :: t /\ Re.test a c = false.

(** A character that is neither white space nor one of [=], [<], [>],
    [!]. *)
Definition plainChar (c : ascii) : Prop :=
  Text.isSpace c = false /\ Parse.operatorChar c = false.

(** What a package.json declares for a name: the entry of
    [devDependencies] if there is one, else the entry of [dependencies]. *)
Definition declared (dependencies devDependencies : option Json.t) (name : string)
    : option Json.t :=
  match Json.own name (Json.properties devDependencies) with
  | Some value => Some value
  | None => Json.own name (Json.properties dependencies)
  end.

(** A version range without one leading [^] or [~]. *)
Definition stripRange (range : string) : string :=
  match range with
  | String c rest => if Ascii.eqb c "^" || Ascii.eqb c "~" then rest else range
  | EmptyString => range
  end.

(** ** More sample inputs *)

Module Fixtures.

Definition repository (stars : Z) (lastCommit : option string) : GitHubStats :=
  {| gh_stars := stars; gh_forks := 0; gh_watchers := 0; gh_openIssues := 0;
     gh_contributors := 0; gh_pullRequests := 0; gh_lastCommit := lastCommit;
     gh_createdAt := None; gh_defaultBranch := None; gh_language := "Unknown";
     gh_topics := [] |}.

Definition downloadsLastMonth (n : Z) : DownloadStats :=
  {| dl_lastDay := Some 0; dl_lastWeek := Some 0; dl_lastMonth := Some n;
     dl_total := None |}.

(** A string between double quotes. *)
Definition quoted (s : string) : string := String "034" (s +:+ String "034" "").

(** A package.json, and a [JSON.parse] that knows this text only. *)
Definition manifest : string :=
  "{ " +:+ quoted "name" +:+ ": " +:+ quoted "demo" +:+ ", "
  +:+ quoted "dependencies" +:+ ": { "
  +:+ quoted "express" +:+ ": " +:+ quoted "^4.18.2" +:+ ", "
  +:+ quoted "lodash" +:+ ": " +:+ quoted "~4.17.20" +:+ ", "
  +:+ quoted "7" +:+ ": " +:+ quoted "1.0.0" +:+ " }, "
  +:+ quoted "devDependencies" +:+ ": { "
  +:+ quoted "lodash" +:+ ": " +:+ quoted "4.17.21" +:+ ", "
  +:+ quoted "jest" +:+ ": " +:+ quoted "^29.0.0" +:+ " } }".

Definition manifestDependencies : Json.t :=
  Json.Object [ ("express", Json.Str "^4.18.2"); ("lodash", Json.Str "~4.17.20");
                ("7", Json.Str "1.0.0") ]%string.

Definition manifestDevDependencies : Json.t :=
  Json.Object [ ("lodash", Json.Str "4.17.21"); ("jest", Json.Str "^29.0.0") ]%string.

Definition manifestData : Json.t :=
  Json.Object [ ("name", Json.Str "demo"); ("dependencies", manifestDependencies);
                ("devDependencies", manifestDevDependencies) ]%string.

Definition parser : Json.Parser :=
  fun content => if String.eqb content manifest then Some manifestData else None.

(** A line whose calls of [fetch] end as scripted, and fail once the
    script is used up; it counts the calls and adds up the pauses. *)
Record Line := { script : list (Exn + Net.Response); made : Z; slept : Z }.

Definition network : Net.Network Line :=
  {| Net.fetchWithTimeout := fun _ _ w =>
       match script w with
       | outcome :: rest => (outcome, {| script := rest; made := made w + 1; slept := slept w |})
       | [] =>
           (inl (TypeError "fetch failed"),
            {| script := []; made := made w + 1; slept := slept w |})
       end;
     Net.pause := fun delay w =>
       {| script := script w; made := made w; slept := slept w + delay |} |}.

Definition metered : @Net.Metered Line network.
Proof.
  refine {| Net.calls := made; Net.paused := slept |}; intros; cbn;
    try destruct (script w); reflexivity.
Defined.

Definition refused : Exn + Net.Response := inl (TypeError "fetch failed").

Definition answered (value : Json.t) : Exn + Net.Response :=
  inr {| Net.ok := true; Net.link := None; Net.json := inr value |}.

Definition request (url : string) : Net.Request :=
  {| Net.url := url; Net.method := None; Net.headers := []; Net.body := None |}.

(** A runtime with a fixed clock and a fixed scan id, which saves nothing. *)
Definition runtime : Route.Runtime unit :=
  {| Route.isoNow := fun _ => "2024-01-01T00:00:00.000Z"%string;
     Route.newScanId := fun w => ("scan_1704067200000_k3x9q2m1z"%string, w);
     Route.startSave := fun _ w => w |}.

End Fixtures.
(** Unfolding the operations of [Async.M]. *)
Ltac run_async :=
  unfold mbind, M_bind, bind, mret, M_ret, ret, tryCatch, observe, throw in *.

(** * Properties *)

(** ** Rounding *)

Section Rounding.

Lemma Qfloor_unique (q : Q) (k : Z) :
  (inject_Z k <= q)%Q -> (q < inject_Z (k + 1))%Q -> Qfloor q = k.
Proof.
  intros Hlo Hhi.
  pose proof (Qfloor_le q) as Hfl.
  pose proof (Qlt_floor q) as Hlt.
  assert (Hk : (inject_Z k < inject_Z (Qfloor q + 1))%Q) by (eapply Qle_lt_trans; eauto).
  assert (Hf : (inject_Z (Qfloor q) < inject_Z (k + 1))%Q) by (eapply Qle_lt_trans; eauto).
  rewrite <- Zlt_Qlt in Hk, Hf. lia.
Qed.

(** [Math.round(q) = k] exactly when [k - 1/2 <= q < k + 1/2]; with [q] a
    fraction [a / b] this is a statement about integers. *)
Lemma Math_round_unique (a : Z) (b : positive) (k : Z) :
  2 * k * Z.pos b <= 2 * a + Z.pos b < 2 * (k + 1) * Z.pos b ->
  Js.Math_round (a # b) = k.
Proof.
  intros [Hlo Hhi]. unfold Js.Math_round. apply Qfloor_unique.
  - unfold Qle, Qplus, inject_Z. cbn [Qnum Qden]. lia.
  - unfold Qlt, Qplus, inject_Z. cbn [Qnum Qden]. lia.
Qed.

Lemma Math_round_comp (p q : Q) : (p == q)%Q -> Js.Math_round p = Js.Math_round q.
Proof.
  intros Heq. unfold Js.Math_round. apply Qfloor_comp. now rewrite Heq.
Qed.

Lemma Math_round_inject_Z (n : Z) : Js.Math_round (inject_Z n) = n.
Proof. unfold inject_Z. apply Math_round_unique. lia. Qed.

(** A percentage is the rounding of [100 * raw / max]. *)
Lemma percentOf_fraction (raw : Z) (max : positive) :
  Trust.percentOf raw (Z.pos max) = Js.Math_round (100 * raw # max).
Proof.
  unfold Trust.percentOf. apply Math_round_comp.
  unfold Qeq, Qdiv, Qmult, Qinv, inject_Z. cbn [Qnum Qden]. lia.
Qed.

End Rounding.

(** ** The date parser on sample timestamps *)

Example parse_epoch : IsoDate.parse "1970-01-01T00:00:00.000Z" = Some 0.
Proof. reflexivity. Qed.

Example parse_2024 : IsoDate.parse "2024-01-01T00:00:00.000Z" = Some 1704067200000.
Proof. reflexivity. Qed.

Example parse_leap_day : IsoDate.parse "2024-02-29T12:30:15Z" = Some 1709209815000.
Proof. reflexivity. Qed.

Example parse_no_leap_day : IsoDate.parse "2023-02-29T00:00:00Z" = None.
Proof. reflexivity. Qed.

Example parse_junk : IsoDate.parse "not a date" = None.
Proof. reflexivity. Qed.

(** ** The trust score *)

Section TrustFacts.
Context {dates : Js.DateParser}.

Lemma countSeverity_nonneg sev vulns : 0 <= Trust.countSeverity sev vulns.
Proof. unfold Trust.countSeverity. lia. Qed.

Lemma securityScore_values vulns :
  exists k, 0 <= k <= 8 /\ Trust.securityScore vulns = 5 * k.
Proof.
  unfold Trust.securityScore.
  pose proof (countSeverity_nonneg "critical" vulns).
  pose proof (countSeverity_nonneg "high" vulns).
  pose proof (countSeverity_nonneg "medium" vulns).
  exists (Z.max 0 (8 - Trust.countSeverity "critical" vulns * 3
                     - Trust.countSeverity "high" vulns * 2
                     - Trust.countSeverity "medium" vulns)).
  lia.
Qed.

Lemma dependenciesScore_values deps :
  Trust.dependenciesScore deps = 5 \/ Trust.dependenciesScore deps = 10 \/
  Trust.dependenciesScore deps = 12 \/ Trust.dependenciesScore deps = 15.
Proof.
  unfold Trust.dependenciesScore.
  repeat match goal with |- context [if ?b then _ else _] => destruct b end; auto.
Qed.

Lemma gt_daysSince (now t n : Z) :
  Js.gt (Trust.daysSince now t) (inject_Z n) = (n * msPerDay <? now - t).
Proof.
  unfold Js.gt, Trust.daysSince, msPerDay.
  change (1000 * 60 * 60 * 24) with 86400000.
  destruct (Z.ltb_spec (n * 86400000) (now - t)) as [Hlt | Hge].
  - apply negb_true_iff, not_true_iff_false. rewrite Qle_bool_iff.
    unfold Qle, Qdiv, Qmult, Qinv, inject_Z. cbn. lia.
  - apply negb_false_iff. rewrite Qle_bool_iff.
    unfold Qle, Qdiv, Qmult, Qinv, inject_Z. cbn. lia.
Qed.

Lemma lt_daysSince (now t n : Z) :
  Js.lt (Trust.daysSince now t) (inject_Z n) = (now - t <? n * msPerDay).
Proof.
  unfold Js.lt, Trust.daysSince, msPerDay.
  change (1000 * 60 * 60 * 24) with 86400000.
  destruct (Z.ltb_spec (now - t) (n * 86400000)) as [Hlt | Hge].
  - apply negb_true_iff, not_true_iff_false. rewrite Qle_bool_iff.
    unfold Qle, Qdiv, Qmult, Qinv, inject_Z. cbn. lia.
  - apply negb_false_iff. rewrite Qle_bool_iff.
    unfold Qle, Qdiv, Qmult, Qinv, inject_Z. cbn. lia.
Qed.

Lemma afterLastPublish_penalty now meta m :
  Trust.afterLastPublish now meta m
  = m - publishPenalty (ageAt now (meta ≫= meta_lastPublish)).
Proof.
  unfold Trust.afterLastPublish, ageAt, publishPenalty.
  destruct (meta ≫= meta_lastPublish) as [s |]; [| lia].
  destruct (Js.truthy_string s); [| lia].
  destruct (Js.Date_parse s) as [t |]; cbn [fmap option_fmap option_map]; [| lia].
  change (730 # 1)%Q with (inject_Z 730).
  change (365 # 1)%Q with (inject_Z 365).
  change (180 # 1)%Q with (inject_Z 180).
  rewrite !gt_daysSince.
  repeat match goal with |- context [if ?b then _ else _] => destruct b end; lia.
Qed.

Lemma afterLastCommit_bonus now stats m :
  Trust.afterLastCommit now stats m
  = m + commitBonus (ageAt now (stats ≫= gh_lastCommit)).
Proof.
  unfold Trust.afterLastCommit, ageAt, commitBonus.
  destruct (stats ≫= gh_lastCommit) as [s |]; [| lia].
  destruct (Js.truthy_string s); [| lia].
  destruct (Js.Date_parse s) as [t |]; cbn [fmap option_fmap option_map]; [| lia].
  change (30 # 1)%Q with (inject_Z 30).
  rewrite lt_daysSince.
  destruct (now - t <? 30 * msPerDay); lia.
Qed.

Lemma maintenanceScore_rule clock meta stats :
  Trust.maintenanceScore clock meta stats
  = Z.min 25 (Z.max 0
      (25 - publishPenalty (ageAt (Js.nowAtPublish clock) (meta ≫= meta_lastPublish))
          + commitBonus (ageAt (Js.nowAtCommit clock) (stats ≫= gh_lastCommit)))).
Proof.
  unfold Trust.maintenanceScore.
  now rewrite afterLastPublish_penalty, afterLastCommit_bonus.
Qed.

Lemma publishPenalty_values age :
  publishPenalty age = 0 \/ publishPenalty age = 5 \/
  publishPenalty age = 10 \/ publishPenalty age = 15.
Proof.
  unfold publishPenalty. destruct age; auto.
  repeat match goal with |- context [if ?b then _ else _] => destruct b end; auto.
Qed.

Lemma commitBonus_values age : commitBonus age = 0 \/ commitBonus age = 5.
Proof. unfold commitBonus. destruct age; auto. destruct (_ <? _); auto. Qed.

Lemma percentOf_25 m : Trust.percentOf m 25 = 4 * m.
Proof. rewrite percentOf_fraction. apply Math_round_unique. lia. Qed.

Lemma percentOf_20 p : Trust.percentOf p 20 = 5 * p.
Proof. rewrite percentOf_fraction. apply Math_round_unique. lia. Qed.

Lemma weightedBreakdown_fraction b :
  weightedBreakdown b
  = Js.Math_round (40 * security b + 25 * maintenance b + 20 * popularity b
                   + 15 * dependencies b # 100).
Proof.
  unfold weightedBreakdown. apply Math_round_comp.
  unfold Qeq, Qplus, Qmult, inject_Z. cbn [Qnum Qden]. lia.
Qed.

End TrustFacts.

Section TrustClaims.
Context {dates : Js.DateParser}.

(** C2.  For every input of [calculateTrustScore], with [s], [m], [p], [d]
    the four raw sub-scores: the breakdown holds [round(s/40*100)],
    [round(m/25*100)], [round(p/20*100)] and [round(d/15*100)];
    [round(security*0.4 + maintenance*0.25 + popularity*0.20 +
    dependencies*0.15)] over that breakdown equals the raw composite
    [round(s + m + p + d)]; and the returned score is that composite
    clamped to [[0,100]]. *)
Theorem breakdown_reconstructs_composite clock vulns meta deps stats downloads :
  let s := Trust.securityScore vulns in
  let m := Trust.maintenanceScore clock meta stats in
  let p := Trust.popularityScore stats downloads in
  let d := Trust.dependenciesScore deps in
  let r := Trust.calculateTrustScore clock vulns meta deps stats downloads in
  breakdown r
  = {| security := Js.Math_round (inject_Z s / inject_Z 40 * (100 # 1))%Q;
       maintenance := Js.Math_round (inject_Z m / inject_Z 25 * (100 # 1))%Q;
       popularity := Js.Math_round (inject_Z p / inject_Z 20 * (100 # 1))%Q;
       dependencies := Js.Math_round (inject_Z d / inject_Z 15 * (100 # 1))%Q |}
  /\ weightedBreakdown (breakdown r) = Js.Math_round (inject_Z (s + m + p + d))
  /\ score r = Z.min 100 (Z.max 0 (Js.Math_round (inject_Z (s + m + p + d)))).
Proof.
  intros s m p d r. split; [reflexivity |]. split; [| reflexivity].
  rewrite Math_round_inject_Z, weightedBreakdown_fraction.
  subst r. cbn [breakdown Trust.calculateTrustScore security maintenance popularity
                dependencies].
  fold s m p d. rewrite percentOf_25, percentOf_20.
  destruct (securityScore_values vulns) as (k & Hk & Hs). fold s in Hs.
  assert (Hcases : k = 0 \/ k = 1 \/ k = 2 \/ k = 3 \/ k = 4 \/ k = 5 \/ k = 6
                   \/ k = 7 \/ k = 8) by lia.
  destruct (dependenciesScore_values deps) as [Hd | [Hd | [Hd | Hd]]];
    fold d in Hd; rewrite Hd, Hs;
    decompose [or] Hcases; subst k;
    match goal with
    | |- context [Trust.percentOf ?a 40] =>
        let v := eval vm_compute in (Trust.percentOf a 40) in
        change (Trust.percentOf a 40) with v
    end;
    match goal with
    | |- context [Trust.percentOf ?a 15] =>
        let v := eval vm_compute in (Trust.percentOf a 15) in
        change (Trust.percentOf a 15) with v
    end;
    apply Math_round_unique; lia.
Qed.

(** C3, as amended.  [calculateTrustScore] is a function of its five
    arguments and of what it takes from the runtime, and of nothing else:
    the readings of [Date.now()] and the instants [new Date(...)] parses
    the two date strings to, which for a timestamp without a zone depend
    on the local time of the runtime.  Both matter only through the
    bracket the publish age falls in and through whether the last commit
    earns the bonus.  Two calls with the same arguments, under any two
    clocks and any two date parsers that agree on both, return the same
    [{score, breakdown}]. *)
Theorem calculateTrustScore_deterministic_up_to_clock
    (dates1 dates2 : Js.DateParser) clock1 clock2 vulns meta deps stats downloads :
  publishPenalty (ageAt (dates := dates1) (Js.nowAtPublish clock1) (meta ≫= meta_lastPublish))
  = publishPenalty
      (ageAt (dates := dates2) (Js.nowAtPublish clock2) (meta ≫= meta_lastPublish)) ->
  commitBonus (ageAt (dates := dates1) (Js.nowAtCommit clock1) (stats ≫= gh_lastCommit))
  = commitBonus (ageAt (dates := dates2) (Js.nowAtCommit clock2) (stats ≫= gh_lastCommit)) ->
  Trust.calculateTrustScore (dates := dates1) clock1 vulns meta deps stats downloads
  = Trust.calculateTrustScore (dates := dates2) clock2 vulns meta deps stats downloads.
Proof.
  intros Hpublish Hcommit.
  unfold Trust.calculateTrustScore, Trust.totalScore.
  rewrite !maintenanceScore_rule, Hpublish, Hcommit. reflexivity.
Qed.

(** C4, as amended.  The raw maintenance sub-score starts at 25; it loses
    15 when the last publish is more than 730 days before the reading of
    the clock, else 10 when more than 365 days, else 5 when more than 180
    days (one bracket only); it gains 5 when the last commit is less than
    30 days before the reading of the clock; the result is clamped to
    [[0,25]]; an absent, empty or unparseable date adjusts nothing. *)
Theorem maintenanceScore_thresholds clock meta stats :
  let publishAge := ageAt (Js.nowAtPublish clock) (meta ≫= meta_lastPublish) in
  let commitAge := ageAt (Js.nowAtCommit clock) (stats ≫= gh_lastCommit) in
  let days n := n * msPerDay in
  Trust.maintenanceScore clock meta stats
  = Z.min 25 (Z.max 0 (25 - publishPenalty publishAge + commitBonus commitAge))
  /\ 0 <= Trust.maintenanceScore clock meta stats <= 25
  /\ (forall age, publishAge = Some age ->
        (days 730 < age -> publishPenalty publishAge = 15)
        /\ (days 365 < age <= days 730 -> publishPenalty publishAge = 10)
        /\ (days 180 < age <= days 365 -> publishPenalty publishAge = 5)
        /\ (age <= days 180 -> publishPenalty publishAge = 0))
  /\ (forall age, commitAge = Some age ->
        (age < days 30 -> commitBonus commitAge = 5)
        /\ (days 30 <= age -> commitBonus commitAge = 0))
  /\ (publishAge = None -> publishPenalty publishAge = 0)
  /\ (commitAge = None -> commitBonus commitAge = 0).
Proof.
  intros publishAge commitAge days.
  split; [apply maintenanceScore_rule |].
  split; [unfold Trust.maintenanceScore; lia |].
  split; [| split; [| split]].
  - intros age ->. unfold publishPenalty, days, msPerDay.
    repeat match goal with |- context [?a <? ?b] => destruct (Z.ltb_spec a b) end; lia.
  - intros age ->. unfold commitBonus, days, msPerDay.
    repeat match goal with |- context [?a <? ?b] => destruct (Z.ltb_spec a b) end; lia.
  - now intros ->.
  - now intros ->.
Qed.

(** C8.  With exactly one critical and two high vulnerabilities (and none
    of medium severity) and a dependency map of 60 entries, the raw
    security score is [40 - 15 - 20 = 5] and its breakdown
    [round(5/40*100) = 13]; the raw dependencies score is 10 and its
    breakdown [round(10/15*100) = 67]. *)
Theorem scenario_one_critical_two_high_sixty_dependencies
    clock vulns meta (deps : gmap string string) stats downloads :
  Trust.countSeverity "critical" vulns = 1 ->
  Trust.countSeverity "high" vulns = 2 ->
  Trust.countSeverity "medium" vulns = 0 ->
  size deps = 60%nat ->
  let r := Trust.calculateTrustScore clock vulns meta (Some deps) stats downloads in
  Trust.securityScore vulns = 40 - 15 - 20
  /\ Trust.securityScore vulns = 5
  /\ security (breakdown r) = 13
  /\ Trust.dependenciesScore (Some deps) = 10
  /\ dependencies (breakdown r) = 67.
Proof.
  intros Hcritical Hhigh Hmedium Hsize r.
  assert (Hs : Trust.securityScore vulns = 5).
  { unfold Trust.securityScore. rewrite Hcritical, Hhigh, Hmedium. reflexivity. }
  assert (Hd : Trust.dependenciesScore (Some deps) = 10).
  { unfold Trust.dependenciesScore.
    change (default ∅ (Some deps)) with deps. rewrite Hsize. reflexivity. }
  subst r. cbn [breakdown Trust.calculateTrustScore security dependencies].
  rewrite Hs, Hd. repeat split; vm_compute; reflexivity.
Qed.

End TrustClaims.

(** The scenario of C8 on a list of exactly three vulnerabilities, under
    the ISO date parser. *)
Lemma scenario_one_critical_two_high_sixty_dependencies_witness :
  let r := Trust.calculateTrustScore (dates := IsoDate.parser)
             (Samples.clockAt "2024-01-01T00:00:00.000Z") Samples.oneCriticalTwoHigh
             None (Some (Samples.dependencyMap 60)) None None in
  Trust.securityScore Samples.oneCriticalTwoHigh = 40 - 15 - 20
  /\ Trust.securityScore Samples.oneCriticalTwoHigh = 5
  /\ security (breakdown r) = 13
  /\ Trust.dependenciesScore (Some (Samples.dependencyMap 60)) = 10
  /\ dependencies (breakdown r) = 67.
Proof.
  apply (scenario_one_critical_two_high_sixty_dependencies (dates := IsoDate.parser));
    vm_compute; reflexivity.
Defined.

(** C3, the claim as stated fails: the same five arguments score 85 in June
    2022 and 70 in June 2024. *)
Lemma calculateTrustScore_depends_on_clock :
  let meta := Some (Samples.publishedAt "2022-01-01T00:00:00.000Z") in
  let call clock :=
    Trust.calculateTrustScore (dates := IsoDate.parser) clock [] meta None None None in
  score (call (Samples.clockAt "2022-06-01T00:00:00.000Z")) = 85
  /\ score (call (Samples.clockAt "2024-06-01T00:00:00.000Z")) = 70
  /\ call (Samples.clockAt "2022-06-01T00:00:00.000Z")
     <> call (Samples.clockAt "2024-06-01T00:00:00.000Z").
Proof.
  split; [vm_compute; reflexivity |]. split; [vm_compute; reflexivity |].
  vm_compute. discriminate.
Qed.

(** The same arguments at the same reading of the clock, in a runtime on
    UTC and in one nine hours east of it: the publish date, which has no
    zone, is 730 days less four hours old in the first and 730 days and
    five hours in the second. *)
Example calculateTrustScore_depends_on_time_zone :
  let meta := Some (Samples.publishedAt "2022-01-01T00:00:00") in
  let call dates :=
    Trust.calculateTrustScore (dates := dates) (Samples.clockAt "2023-12-31T20:00:00.000Z")
      [] meta None None None in
  score (call (IsoDate.localParser 0)) = 75
  /\ score (call (IsoDate.localParser 540)) = 70.
Proof. split; vm_compute; reflexivity. Qed.

(** Two runtimes, on UTC and nine hours east of it, and two readings of
    the clock, 59 and 151 days after a publish date without a zone: the
    same bracket, and the same result. *)
Lemma calculateTrustScore_deterministic_up_to_clock_witness :
  let meta := Some (Samples.publishedAt "2022-01-01T00:00:00") in
  Trust.calculateTrustScore (dates := IsoDate.localParser 0)
    (Samples.clockAt "2022-03-01T00:00:00.000Z") Samples.oneCriticalTwoHigh meta None None None
  = Trust.calculateTrustScore (dates := IsoDate.localParser 540)
      (Samples.clockAt "2022-06-01T00:00:00.000Z") Samples.oneCriticalTwoHigh meta None None None.
Proof.
  apply (calculateTrustScore_deterministic_up_to_clock (IsoDate.localParser 0)
           (IsoDate.localParser 540)); vm_compute; reflexivity.
Defined.

(** The amended rule on the first scenario of the specification: a last
    publish 800 days ago and no repository statistics leave a maintenance
    score of [25 - 15 = 10]. *)
Lemma maintenanceScore_thresholds_witness :
  Trust.maintenanceScore (dates := IsoDate.parser)
    (Samples.clockAt "2024-03-11T00:00:00.000Z")
    (Some (Samples.publishedAt "2022-01-01T00:00:00.000Z")) None
  = 10.
Proof.
  pose proof (maintenanceScore_thresholds (dates := IsoDate.parser)
                (Samples.clockAt "2024-03-11T00:00:00.000Z")
                (Some (Samples.publishedAt "2022-01-01T00:00:00.000Z")) None) as Hrule.
  cbv zeta in Hrule. destruct Hrule as (Hscore & _ & Hpublish & _).
  destruct (Hpublish (800 * msPerDay) eq_refl) as [Hover _].
  rewrite Hscore, Hover; [reflexivity | reflexivity].
Defined.

(** C4, the claim as stated fails: a publish exactly 730 days before now is
    "at least 730 days" old, and the code subtracts 10, not 15. *)
Lemma maintenanceScore_at_exactly_730_days :
  let clock := Samples.clockAt "2024-01-01T00:00:00.000Z" in
  let meta := Some (Samples.publishedAt "2022-01-01T00:00:00.000Z") in
  ageAt (dates := IsoDate.parser) (Js.nowAtPublish clock) (meta ≫= meta_lastPublish)
  = Some (730 * msPerDay)
  /\ publishPenaltyAtLeast (Some (730 * msPerDay)) = 15
  /\ Trust.maintenanceScore (dates := IsoDate.parser) clock meta None = 15
  /\ Trust.maintenanceScore (dates := IsoDate.parser) clock meta None
     <> Z.min 25 (Z.max 0 (25 - publishPenaltyAtLeast (Some (730 * msPerDay)))).
Proof.
  repeat split; try (vm_compute; reflexivity). vm_compute. discriminate.
Qed.

(** ** The vulnerability aggregator *)

Section MergeFacts.

Lemma ids_app l1 l2 : ids (l1 ++ l2) = ids l1 ∪ ids l2.
Proof. unfold ids. rewrite fmap_app. apply leibniz_equiv, list_to_set_app. Qed.

Lemma ids_cons v l : ids (v :: l) = {[vuln_id v]} ∪ ids l.
Proof. reflexivity. Qed.

Lemma elem_of_ids id l : id ∈ ids l <-> id ∈ vuln_id <$> l.
Proof. unfold ids. apply elem_of_list_to_set. Qed.

Lemma findById_app id l1 l2 :
  findById id (l1 ++ l2)
  = match findById id l1 with Some v => Some v | None => findById id l2 end.
Proof.
  unfold findById. induction l1 as [| v l1 IH]; [reflexivity |].
  cbn [app List.find]. destruct (String.eqb (vuln_id v) id); auto.
Qed.

Lemma findById_None id l : findById id l = None <-> id ∉ ids l.
Proof.
  unfold findById. induction l as [| v l IH]; cbn [List.find].
  - split; [intros _; set_solver | reflexivity].
  - rewrite ids_cons. destruct (String.eqb_spec (vuln_id v) id) as [-> | Hne].
    + split; [discriminate | set_solver].
    + rewrite IH. set_solver.
Qed.

Lemma findById_Some id l v : findById id l = Some v -> v ∈ l /\ vuln_id v = id.
Proof.
  unfold findById. intros Hfind. apply find_some in Hfind as [Hin Heq].
  split; [now apply list_elem_of_In | now apply String.eqb_eq].
Qed.

(** What one loop does to the state [(seenIds, vulnerabilities)], provided
    [seenIds] holds the ids of [vulnerabilities], which are distinct. *)
Lemma pushUnseen_spec source :
  forall seenIds vulnerabilities,
    seenIds = ids vulnerabilities ->
    NoDup (vuln_id <$> vulnerabilities) ->
    let out := Vulns.pushUnseen source seenIds vulnerabilities in
    out.1 = ids out.2
    /\ NoDup (vuln_id <$> out.2)
    /\ ids out.2 = ids vulnerabilities ∪ ids source
    /\ (exists added, out.2 = vulnerabilities ++ added /\ added ⊆ source)
    /\ (forall id,
          findById id out.2
          = match findById id vulnerabilities with
            | Some v => Some v
            | None => findById id source
            end).
Proof.
  induction source as [| vuln rest IH]; intros seenIds vulnerabilities Hseen Hnodup;
    cbn [Vulns.pushUnseen].
  - cbn [fst snd]. repeat split; auto.
    + set_solver.
    + exists []. rewrite app_nil_r. split; [reflexivity | set_solver].
    + intros id. now destruct (findById id vulnerabilities).
  - case_bool_decide as Hin.
    + specialize (IH seenIds vulnerabilities Hseen Hnodup).
      destruct IH as (H1 & H2 & H3 & (added & H4 & H4') & H5).
      repeat split; auto.
      * rewrite H3, ids_cons. subst seenIds. set_solver.
      * exists added. split; [assumption | set_solver].
      * intros id. rewrite H5. destruct (findById id vulnerabilities) eqn:Hfind; auto.
        unfold findById at 2. cbn [List.find].
        destruct (String.eqb_spec (vuln_id vuln) id) as [<- | Hne]; auto.
        apply findById_None in Hfind. subst seenIds. contradiction.
    + assert (Hseen' : {[vuln_id vuln]} ∪ seenIds = ids (vulnerabilities ++ [vuln])).
      { rewrite ids_app, ids_cons. subst seenIds. set_solver. }
      assert (Hnodup' : NoDup (vuln_id <$> vulnerabilities ++ [vuln])).
      { rewrite fmap_app. apply NoDup_app. split; [assumption |]. split.
        - intros id Hid Hid'. apply list_elem_of_singleton in Hid'. subst id.
          apply Hin. subst seenIds. now apply elem_of_ids.
        - apply NoDup_singleton. }
      specialize (IH _ _ Hseen' Hnodup').
      destruct IH as (H1 & H2 & H3 & (added & H4 & H4') & H5).
      repeat split; auto.
      * rewrite H3, ids_app, !ids_cons. set_solver.
      * exists (vuln :: added). rewrite H4, <- app_assoc. split; [reflexivity | set_solver].
      * intros id. rewrite H5, findById_app.
        destruct (findById id vulnerabilities) eqn:Hfind; auto.
        unfold findById at 1 3. cbn [List.find].
        destruct (String.eqb (vuln_id vuln) id); auto.
Qed.

Lemma merge_spec githubVulns osvVulns :
  NoDup (vuln_id <$> Vulns.merge githubVulns osvVulns)
  /\ ids (Vulns.merge githubVulns osvVulns) = ids githubVulns ∪ ids osvVulns
  /\ Vulns.merge githubVulns osvVulns ⊆ githubVulns ++ osvVulns
  /\ (forall id,
        findById id (Vulns.merge githubVulns osvVulns)
        = match findById id githubVulns with
          | Some v => Some v
          | None => findById id osvVulns
          end).
Proof.
  unfold Vulns.merge.
  pose proof (pushUnseen_spec githubVulns ∅ [] eq_refl (NoDup_nil_2)) as HA.
  destruct (Vulns.pushUnseen githubVulns ∅ []) as [seenIds vulnerabilities].
  cbn [fst snd] in HA. destruct HA as (A1 & A2 & A3 & (addedA & A4 & A4') & A5).
  pose proof (pushUnseen_spec osvVulns seenIds vulnerabilities A1 A2) as HB.
  cbn zeta in HB. destruct HB as (B1 & B2 & B3 & (addedB & B4 & B4') & B5).
  repeat split; auto.
  - rewrite B3, A3. set_solver.
  - rewrite B4, A4. set_solver.
  - intros id. rewrite B5, A5. reflexivity.
Qed.

End MergeFacts.

Section AggregatorFacts.
Context {W : Type} {numbers : Js.NumberParser} {upstream : Upstream W}.

(** The GitHub adapter never throws, and what it returns is the image of
    advisory nodes under its mapping. *)
Lemma fetchGitHubAdvisories_returns pkg (w : W) :
  exists nodes w',
    Vulns.fetchGitHubAdvisories pkg w = (inr (Vulns.advisoryToVulnerability <$> nodes), w').
Proof.
  unfold Vulns.fetchGitHubAdvisories. run_async.
  destruct (negb (Js.truthy (env_GITHUB_TOKEN w))); [by exists [], w |].
  destruct (Vulns.githubEcosystem (pkg_ecosystem pkg)) as [ecosystem |]; [| by exists [], w].
  destruct (githubAdvisories _ ecosystem (pkg_name pkg) w) as [[e | [nodes |]] w'].
  - by exists [], w'.
  - by exists nodes, w'.
  - by exists [], w'.
Qed.

(** So does the OSV adapter, on at most ten records. *)
Lemma fetchOSVVulnerabilities_returns pkg (w : W) :
  exists records w',
    Vulns.fetchOSVVulnerabilities pkg w = (inr (Vulns.osvToVulnerability <$> records), w').
Proof.
  unfold Vulns.fetchOSVVulnerabilities. run_async.
  destruct (osvVulns (Vulns.osvQueryFor pkg) w) as [[e | [records |]] w'].
  - by exists [], w'.
  - by exists (take 10 records), w'.
  - by exists [], w'.
Qed.

(** [fetchVulnerabilities] is the merge of what the two adapters return,
    GitHub first, followed by the fallback step. *)
Lemma fetchVulnerabilities_merge pkg (w w1 w2 : W) githubVulns osvVulns :
  Vulns.fetchGitHubAdvisories pkg w = (inr githubVulns, w1) ->
  Vulns.fetchOSVVulnerabilities pkg w1 = (inr osvVulns, w2) ->
  Vulns.fetchVulnerabilities pkg w
  = (inr (Vulns.orFallback pkg (Vulns.merge githubVulns osvVulns)), w2).
Proof.
  intros HA HB. unfold Vulns.fetchVulnerabilities, Vulns.merge. run_async.
  rewrite HA. cbn [fst snd].
  destruct (Vulns.pushUnseen githubVulns ∅ []) as [seenIds vulnerabilities].
  cbn [fst snd]. rewrite HB. reflexivity.
Qed.

Lemma fetchVulnerabilities_returns pkg (w : W) :
  exists nodes records w',
    Vulns.fetchVulnerabilities pkg w
    = (inr (Vulns.orFallback pkg
              (Vulns.merge (Vulns.advisoryToVulnerability <$> nodes)
                           (Vulns.osvToVulnerability <$> records))), w').
Proof.
  destruct (fetchGitHubAdvisories_returns pkg w) as (nodes & w1 & HA).
  destruct (fetchOSVVulnerabilities_returns pkg w1) as (records & w2 & HB).
  exists nodes, records, w2. eapply fetchVulnerabilities_merge; eauto.
Qed.

End AggregatorFacts.

Section FallbackFacts.

Lemma merge_nil : Vulns.merge [] [] = [].
Proof. reflexivity. Qed.

Lemma merge_empty_inv githubVulns osvVulns :
  Vulns.merge githubVulns osvVulns = [] -> githubVulns = [] /\ osvVulns = [].
Proof.
  intros Hempty. destruct (merge_spec githubVulns osvVulns) as (_ & Hids & _).
  rewrite Hempty in Hids. split.
  - destruct githubVulns as [| v ?]; [reflexivity |]. rewrite ids_cons in Hids. set_solver.
  - destruct osvVulns as [| v ?]; [reflexivity |]. rewrite ids_cons in Hids. set_solver.
Qed.

(** The fallback step on an empty merged list, for a name that is an own
    key of the table. *)
Lemma orFallback_own pkg entries :
  Vulns.FALLBACK_VULNERABILITIES !! pkg_name pkg = Some entries ->
  Vulns.orFallback pkg [] = Vulns.Array entries.
Proof. intros Hkey. unfold Vulns.orFallback, Js.get. now rewrite Hkey. Qed.

(** ... for a name that is neither an own key nor a member of
    [Object.prototype] ... *)
Lemma orFallback_absent pkg :
  Vulns.FALLBACK_VULNERABILITIES !! pkg_name pkg = None ->
  pkg_name pkg ∉ Js.Object_prototype ->
  Vulns.orFallback pkg [] = Vulns.Array [].
Proof.
  intros Hkey Hproto. unfold Vulns.orFallback, Js.get. rewrite Hkey.
  now rewrite bool_decide_eq_false_2.
Qed.

(** ... and for a name that [Object.prototype] provides. *)
Lemma orFallback_inherited pkg :
  Vulns.FALLBACK_VULNERABILITIES !! pkg_name pkg = None ->
  pkg_name pkg ∈ Js.Object_prototype ->
  Vulns.orFallback pkg [] = Vulns.PrototypeMember (pkg_name pkg).
Proof.
  intros Hkey Hproto. unfold Vulns.orFallback, Js.get. rewrite Hkey.
  now rewrite bool_decide_eq_true_2.
Qed.

(** A non-empty merged list is returned as it is: the table is not read. *)
Lemma orFallback_nonempty pkg vulnerabilities :
  vulnerabilities <> [] -> Vulns.orFallback pkg vulnerabilities = Vulns.Array vulnerabilities.
Proof. intros Hne. destruct vulnerabilities; [contradiction | reflexivity]. Qed.

Lemma FALLBACK_VULNERABILITIES_keys name :
  is_Some (Vulns.FALLBACK_VULNERABILITIES !! name)
  <-> name ∈ ["lodash"; "express"; "django"; "requests"; "nginx"]%string.
Proof.
  unfold Vulns.FALLBACK_VULNERABILITIES. rewrite <- elem_of_dom, dom_list_to_map_L.
  cbn [fmap list_fmap fst]. rewrite elem_of_list_to_set. reflexivity.
Qed.

Lemma FALLBACK_entries_carry_severity name entries :
  Vulns.FALLBACK_VULNERABILITIES !! name = Some entries -> Forall hasSeverity entries.
Proof.
  intros Hkey. apply elem_of_list_to_map_2 in Hkey.
  repeat (apply elem_of_cons in Hkey as [Hkey | Hkey];
          [injection Hkey as _ ->; repeat constructor |]).
  now apply not_elem_of_nil in Hkey.
Qed.

End FallbackFacts.

Section AggregatorClaims.
Context {W : Type} {numbers : Js.NumberParser} {upstream : Upstream W}.

(** C5, as amended.  For every record of the OSV point-query, the
    normalised severity is the record's explicit severity tag, lower-cased,
    when the tag is present and not empty; otherwise, when a numeric score
    [s] other than 0 is present, it is [critical] if [s >= 9], [high] if
    [9 > s >= 7], [medium] if [7 > s >= 4] and [low] if [s < 4]; a score of
    0 counts as no score and leaves the initial [medium]. *)
Theorem osvSeverity_normalisation (record : RawOsvVuln) :
  let severity := vuln_severity (Vulns.osvToVulnerability record) in
  (forall tag,
      osv_database_specific_severity record = Some tag -> tag <> ""%string ->
      severity = Js.toLowerCase tag)
  /\ (Js.truthy (osv_database_specific_severity record) = false ->
      forall s, osv_score record = Some (Js.Num s) ->
        (~ (s == 0)%Q ->
           ((9 <= s)%Q -> severity = "critical"%string)
           /\ ((7 <= s)%Q -> (s < 9)%Q -> severity = "high"%string)
           /\ ((4 <= s)%Q -> (s < 7)%Q -> severity = "medium"%string)
           /\ ((s < 4)%Q -> severity = "low"%string))
        /\ ((s == 0)%Q -> severity = "medium"%string)).
Proof.
  intros severity. subst severity. cbn [vuln_severity Vulns.osvToVulnerability].
  unfold Vulns.osvSeverity. split.
  - intros tag -> Hne. destruct tag; [contradiction | reflexivity].
  - intros Htag s ->.
    assert (Hby : forall byScore : string,
               match osv_database_specific_severity record with
               | Some tag => if Js.truthy_string tag then Js.toLowerCase tag else byScore
               | None => byScore
               end = byScore).
    { intros byScore. destruct (osv_database_specific_severity record) as [tag |]; auto.
      cbn [Js.truthy] in Htag. now rewrite Htag. }
    rewrite Hby. unfold Js.truthy_value, Js.ge_value, Js.ToNumber, Js.truthy_Q, Js.ge.
    split.
    + intros Hnz. destruct (Qeq_bool s 0) eqn:Hzero;
        [apply Qeq_bool_eq in Hzero; contradiction |]. cbn [negb].
      repeat split; intros;
        repeat match goal with
          | |- context [Qle_bool ?a ?b] =>
              let E := fresh "E" in destruct (Qle_bool a b) eqn:E;
              [apply Qle_bool_iff in E | apply not_true_iff_false in E; rewrite Qle_bool_iff in E]
          end;
        try reflexivity; exfalso; lra.
    + intros Hz. apply Qeq_eq_bool in Hz. now rewrite Hz.
Qed.

(** C6.  The merge step of [fetchVulnerabilities] runs over the GitHub
    advisories first and the OSV records second, pushing a vulnerability
    only when its id has not been seen.  Hence every advisory id occurs at
    most once in the merged list; the merged list holds only records of the
    two sources; an id is included exactly when one of the sources has it;
    for an id that GitHub has, the merged record is GitHub's (the first one
    with that id), whatever OSV says; for the other ids it is OSV's; and the
    set of included ids is the same when the sources are swapped. *)
Theorem merge_first_seen_wins pkg (w w1 w2 : W) githubVulns osvVulns :
  Vulns.fetchGitHubAdvisories pkg w = (inr githubVulns, w1) ->
  Vulns.fetchOSVVulnerabilities pkg w1 = (inr osvVulns, w2) ->
  let merged := Vulns.merge githubVulns osvVulns in
  Vulns.fetchVulnerabilities pkg w = (inr (Vulns.orFallback pkg merged), w2)
  /\ NoDup (vuln_id <$> merged)
  /\ (forall v, v ∈ merged -> v ∈ githubVulns \/ v ∈ osvVulns)
  /\ (forall id,
        id ∈ vuln_id <$> merged
        <-> id ∈ vuln_id <$> githubVulns \/ id ∈ vuln_id <$> osvVulns)
  /\ (forall id,
        id ∈ vuln_id <$> githubVulns -> findById id merged = findById id githubVulns)
  /\ (forall id,
        id ∉ vuln_id <$> githubVulns -> findById id merged = findById id osvVulns)
  /\ ids merged = ids (Vulns.merge osvVulns githubVulns).
Proof.
  intros HA HB merged.
  destruct (merge_spec githubVulns osvVulns) as (Hnodup & Hids & Hsub & Hfind).
  destruct (merge_spec osvVulns githubVulns) as (_ & Hids' & _).
  fold merged in Hnodup, Hids, Hsub, Hfind.
  split; [now apply fetchVulnerabilities_merge with (w1 := w1) |].
  split; [assumption |].
  split; [intros v Hv; apply Hsub in Hv; now apply elem_of_app in Hv |].
  split; [| split; [| split]].
  - intros id. rewrite <- !elem_of_ids, Hids. set_solver.
  - intros id Hid. rewrite Hfind.
    destruct (findById id githubVulns) eqn:Hnone; [reflexivity |].
    apply findById_None in Hnone. now apply elem_of_ids in Hid.
  - intros id Hid. rewrite Hfind.
    destruct (findById id githubVulns) eqn:Hsome; [| reflexivity].
    apply findById_Some in Hsome as [Hin <-]. exfalso. apply Hid.
    now apply list_elem_of_fmap_2.
  - rewrite Hids, Hids'. set_solver.
Qed.

(** C9.  The fallback table is read under the package name alone.  For a
    name that is a key of the table, whenever both live sources yield
    nothing the table's entries are what [fetchVulnerabilities] returns,
    the same for any two packages of that name whatever their ecosystems
    and versions. *)
Theorem fallback_keyed_by_name_only (pkg1 pkg2 : PackageInfo) (w1 w2 : W) entries :
  pkg_name pkg1 = pkg_name pkg2 ->
  Vulns.FALLBACK_VULNERABILITIES !! pkg_name pkg1 = Some entries ->
  noLiveResults pkg1 w1 ->
  noLiveResults pkg2 w2 ->
  (Vulns.fetchVulnerabilities pkg1 w1).1 = inr (Vulns.Array entries)
  /\ (Vulns.fetchVulnerabilities pkg2 w2).1 = inr (Vulns.Array entries).
Proof.
  intros Hname Hkey (a1 & b1 & HA1 & HB1) (a2 & b2 & HA2 & HB2).
  rewrite (fetchVulnerabilities_merge _ _ _ _ _ _ HA1 HB1).
  rewrite (fetchVulnerabilities_merge _ _ _ _ _ _ HA2 HB2).
  cbn [fst]. rewrite merge_nil, (orFallback_own pkg1 entries Hkey).
  rewrite Hname in Hkey. now rewrite (orFallback_own pkg2 entries Hkey).
Qed.

(** X26.  A GitHub advisory without a severity, and an OSV record with
    neither a severity tag nor a truthy score, are given the severity
    [medium]; every vulnerability either adapter builds carries a
    severity, whatever the payload holds; and so does every vulnerability
    of a list that [fetchVulnerabilities] returns. *)
Theorem severity_always_present :
  (forall node,
      adv_severity (advisory node) = None ->
      vuln_severity (Vulns.advisoryToVulnerability node) = "medium"%string)
  /\ (forall record,
        Js.truthy (osv_database_specific_severity record) = false ->
        (forall score, osv_score record = Some score -> Js.truthy_value score = false) ->
        vuln_severity (Vulns.osvToVulnerability record) = "medium"%string)
  /\ (forall node, hasSeverity (Vulns.advisoryToVulnerability node))
  /\ (forall record, hasSeverity (Vulns.osvToVulnerability record))
  /\ (forall pkg (w w' : W) array,
        Vulns.fetchVulnerabilities pkg w = (inr (Vulns.Array array), w') ->
        Forall hasSeverity array).
Proof.
  assert (Hgithub : forall node, hasSeverity (Vulns.advisoryToVulnerability node)).
  { intros node. unfold hasSeverity. cbn [vuln_severity Vulns.advisoryToVulnerability].
    destruct (adv_severity (advisory node)) as [[| c rest] |]; reflexivity. }
  assert (Hosv : forall record, hasSeverity (Vulns.osvToVulnerability record)).
  { intros record. unfold hasSeverity. cbn [vuln_severity Vulns.osvToVulnerability].
    unfold Vulns.osvSeverity.
    assert (Hscore :
      Js.truthy_string
        match osv_score record with
        | Some score =>
            if Js.truthy_value score then
              if Js.ge_value score (9 # 1) then "critical"%string
              else if Js.ge_value score (7 # 1) then "high"%string
              else if Js.ge_value score (4 # 1) then "medium"%string
              else "low"%string
            else "medium"%string
        | None => "medium"%string
        end = true).
    { destruct (osv_score record) as [score |]; [| reflexivity].
      repeat match goal with |- context [if ?b then _ else _] => destruct b end;
        reflexivity. }
    destruct (osv_database_specific_severity record) as [[| c rest] |];
      [exact Hscore | reflexivity | exact Hscore]. }
  split; [| split; [| split; [| split]]]; auto.
  - intros node Hnone. cbn [vuln_severity Vulns.advisoryToVulnerability].
    now rewrite Hnone.
  - intros record Htag Hscore. cbn [vuln_severity Vulns.osvToVulnerability].
    unfold Vulns.osvSeverity.
    assert (Hby : forall byScore : string,
               match osv_database_specific_severity record with
               | Some tag => if Js.truthy_string tag then Js.toLowerCase tag else byScore
               | None => byScore
               end = byScore).
    { intros byScore. destruct (osv_database_specific_severity record) as [tag |]; auto.
      cbn [Js.truthy] in Htag. now rewrite Htag. }
    rewrite Hby. destruct (osv_score record) as [score |]; [| reflexivity].
    now rewrite (Hscore score eq_refl).
  - intros pkg w w' array Hfetch.
    destruct (fetchVulnerabilities_returns pkg w) as (nodes & records & w'' & Hret).
    rewrite Hret in Hfetch. injection Hfetch as Hvalue _.
    unfold Vulns.orFallback in Hvalue.
    destruct (Vulns.merge _ _) as [| v merged] eqn:Hmerged.
    + unfold Js.get in Hvalue.
      destruct (Vulns.FALLBACK_VULNERABILITIES !! pkg_name pkg) as [entries |] eqn:Hkey.
      * injection Hvalue as <-. now apply FALLBACK_entries_carry_severity in Hkey.
      * destruct (bool_decide _); [discriminate |]. injection Hvalue as <-. constructor.
    + injection Hvalue as <-. rewrite <- Hmerged. apply Forall_forall.
      intros x Hx.
      destruct (merge_spec (Vulns.advisoryToVulnerability <$> nodes)
                           (Vulns.osvToVulnerability <$> records)) as (_ & _ & Hsub & _).
      apply Hsub, elem_of_app in Hx as [Hx | Hx];
        apply list_elem_of_fmap in Hx as (raw & -> & _); auto.
Qed.

(** A score that is truthy and no number: a string that [StringToNumber]
    answers with [NaN], such as a CVSS vector.  Every comparison with a
    number is false, so the last [else] is taken and the severity is
    [low]; the value itself is copied to [cvss]. *)
Lemma osvSeverity_not_a_number record score :
  Js.truthy (osv_database_specific_severity record) = false ->
  osv_score record = Some score ->
  Js.truthy_value score = true ->
  Js.ToNumber score = Js.NaN ->
  vuln_severity (Vulns.osvToVulnerability record) = "low"%string
  /\ vuln_cvss (Vulns.osvToVulnerability record) = Some score.
Proof.
  intros Htag Hscore Htruthy Hnan.
  cbn [vuln_severity vuln_cvss Vulns.osvToVulnerability]. split; [| exact Hscore].
  unfold Vulns.osvSeverity. rewrite Hscore, Htruthy. unfold Js.ge_value. rewrite Hnan.
  destruct (osv_database_specific_severity record) as [tag |]; [| reflexivity].
  cbn [Js.truthy] in Htag. now rewrite Htag.
Qed.

End AggregatorClaims.

(** C5, the claim as stated fails: a record without a severity tag whose
    numeric score is 0 has a score below 4, and its severity is [medium],
    not [low]. *)
Lemma osvSeverity_score_zero_is_medium :
  let record := Samples.osvRecord "OSV-2024-1" None None (Some (0 # 1)%Q) in
  osv_database_specific_severity record = None
  /\ osv_score record = Some (Js.Num (0 # 1))
  /\ (0 # 1 < 4)%Q
  /\ vuln_severity (Vulns.osvToVulnerability (numbers := Samples.numbers) record) = "medium"%string
  /\ vuln_severity (Vulns.osvToVulnerability (numbers := Samples.numbers) record) <> "low"%string.
Proof. repeat split; try reflexivity. discriminate. Qed.

(** The amended rule on a record scored 9.5 and on a record tagged
    [MODERATE]. *)
Lemma osvSeverity_normalisation_witness :
  vuln_severity
    (Vulns.osvToVulnerability (numbers := Samples.numbers) (Samples.osvRecord "OSV-2024-1" None None (Some (95 # 10)%Q)))
  = "critical"%string
  /\ vuln_severity
       (Vulns.osvToVulnerability (numbers := Samples.numbers)
          (Samples.osvRecord "OSV-2024-2" None (Some "MODERATE"%string) (Some (95 # 10)%Q)))
     = "moderate"%string.
Proof.
  split.
  - pose proof (osvSeverity_normalisation (numbers := Samples.numbers)
                  (Samples.osvRecord "OSV-2024-1" None None (Some (95 # 10)%Q))) as Hrule.
    cbv zeta in Hrule. destruct Hrule as [_ Hscore].
    destruct (Hscore eq_refl (95 # 10)%Q eq_refl) as [Hgraded _].
    apply Hgraded; discriminate.
  - pose proof (osvSeverity_normalisation (numbers := Samples.numbers)
                  (Samples.osvRecord "OSV-2024-2" None (Some "MODERATE"%string)
                     (Some (95 # 10)%Q))) as Hrule.
    cbv zeta in Hrule. destruct Hrule as [Htag _].
    apply (Htag "MODERATE"%string); [reflexivity | discriminate].
Defined.

(** C6 on the third scenario of the specification: both sources know
    [CVE-1] under different titles; the merged list has it once, with
    GitHub's title. *)
Lemma merge_first_seen_wins_witness :
  let pkg := Samples.pkg "left-pad" "1.3.0" npm in
  let githubVulns :=
    Vulns.advisoryToVulnerability
      <$> [ Samples.advisoryNode "CVE-1" "title from GitHub" (Some "HIGH"%string) None;
            Samples.advisoryNode "GHSA-2" "only on GitHub" None None ] in
  let osvVulns :=
    Vulns.osvToVulnerability (numbers := Samples.numbers)
      <$> [ Samples.osvRecord "OSV-3" (Some "only on OSV"%string) None (Some (95 # 10)%Q);
            Samples.osvRecord "CVE-1" (Some "title from OSV"%string) None None ] in
  vuln_id <$> Vulns.merge githubVulns osvVulns = ["CVE-1"; "GHSA-2"; "OSV-3"]%string
  /\ vuln_title <$> findById "CVE-1" (Vulns.merge githubVulns osvVulns)
     = Some "title from GitHub"%string
  /\ findById "CVE-1" (Vulns.merge githubVulns osvVulns) = findById "CVE-1" githubVulns.
Proof.
  intros pkg githubVulns osvVulns.
  split; [reflexivity |]. split; [reflexivity |].
  pose proof (merge_first_seen_wins (numbers := Samples.numbers) (upstream := Samples.overlapping)
                pkg tt tt tt githubVulns osvVulns eq_refl eq_refl) as Hmerge.
  destruct Hmerge as (_ & _ & _ & _ & Hgithub & _).
  apply Hgithub. apply (list_elem_of_fmap_2 vuln_id githubVulns (hd (Samples.vulnerability "" "") githubVulns)).
  apply list_elem_of_here.
Defined.

(** C7 at a package named [constructor], offline: the name is not a key of
    the table, both live sources yield nothing, and what is returned is
    the [constructor] member of [Object.prototype], not the empty list. *)
Lemma fetchVulnerabilities_constructor :
  let pkg := Samples.pkg "constructor" "1.0.0" npm in
  Vulns.FALLBACK_VULNERABILITIES !! pkg_name pkg = None
  /\ noLiveResults (numbers := Samples.numbers) (upstream := Samples.offline) pkg tt
  /\ Vulns.fetchVulnerabilities (numbers := Samples.numbers) (upstream := Samples.offline) pkg tt
     = (inr (Vulns.PrototypeMember "constructor"), tt)
  /\ Vulns.fetchVulnerabilities (numbers := Samples.numbers) (upstream := Samples.offline) pkg tt
     <> (inr (Vulns.Array []), tt).
Proof.
  intros pkg. split; [| split; [| split]].
  - vm_compute. reflexivity.
  - exists tt, tt. split; reflexivity.
  - vm_compute. reflexivity.
  - vm_compute. discriminate.
Qed.

(** C9 on [lodash]: offline, the npm package at 4.17.20 and the docker
    image at 4.17.21, the version the advisory is fixed in, both get the
    table's advisory. *)
Lemma fallback_keyed_by_name_only_witness :
  exists entries,
    Vulns.FALLBACK_VULNERABILITIES !! "lodash"%string = Some entries
    /\ (vuln_fixedIn <$> entries) = [Some "4.17.21"%string]
    /\ (Vulns.fetchVulnerabilities (numbers := Samples.numbers) (upstream := Samples.offline)
          (Samples.pkg "lodash" "4.17.20" npm) tt).1 = inr (Vulns.Array entries)
    /\ (Vulns.fetchVulnerabilities (numbers := Samples.numbers) (upstream := Samples.offline)
          (Samples.pkg "lodash" "4.17.21" docker) tt).1 = inr (Vulns.Array entries).
Proof.
  eexists. split; [vm_compute; reflexivity |]. split; [reflexivity |].
  apply (fallback_keyed_by_name_only (numbers := Samples.numbers) (upstream := Samples.offline)).
  - reflexivity.
  - vm_compute. reflexivity.
  - exists tt, tt. split; reflexivity.
  - exists tt, tt. split; reflexivity.
Defined.

(** C10, a defect of the OSV adapter.  The record OSV holds for a command
    injection in [lodash] has no severity tag and, as the OSV schema has
    it, a CVSS vector string for its score: no numeric score.  The adapter
    does not leave its initial [medium]: the string is truthy, none of
    [score >= 9], [score >= 7], [score >= 4] holds of it, and the severity
    is [low]; the string is also what [cvss], declared a number, is set
    to.  [fetchVulnerabilities] hands the record on as it is. *)
Theorem fetchOSVVulnerabilities_cvss_vector :
  let pkg := Samples.pkg "lodash" "4.17.20" npm in
  let record :=
    Samples.osvScored "GHSA-35jh-r3h4-6jhm" (Some "Command Injection in lodash"%string) None
      (Some (Js.Str Samples.cvssVector)) in
  let v := Vulns.osvToVulnerability (numbers := Samples.numbers) record in
  osv_database_specific_severity record = None
  /\ (forall q, osv_score record <> Some (Js.Num q))
  /\ Vulns.fetchOSVVulnerabilities (numbers := Samples.numbers)
       (upstream := Samples.vectorOnly) pkg tt = (inr [v], tt)
  /\ vuln_severity v = "low"%string
  /\ vuln_severity v <> "medium"%string
  /\ vuln_cvss v = Some (Js.Str Samples.cvssVector)
  /\ Vulns.fetchVulnerabilities (numbers := Samples.numbers)
       (upstream := Samples.vectorOnly) pkg tt = (inr (Vulns.Array [v]), tt).
Proof.
  intros pkg record v.
  destruct (osvSeverity_not_a_number (numbers := Samples.numbers) record
              (Js.Str Samples.cvssVector)) as [Hlow Hcvss];
    [reflexivity | reflexivity | reflexivity | vm_compute; reflexivity |].
  fold v in Hlow, Hcvss.
  split; [reflexivity |]. split; [discriminate |].
  split; [vm_compute; reflexivity |]. split; [exact Hlow |].
  split; [rewrite Hlow; discriminate |]. split; [exact Hcvss |].
  vm_compute. reflexivity.
Qed.

(** ** The scan orchestrator *)

Section ScanFacts.
Context {W : Type} {dates : Js.DateParser} {numbers : Js.NumberParser}
  {upstream : Upstream W}.

(** A completed analysis is the analysis of the package it was asked for. *)
Lemma analyse_package pkg (w w' : W) analysis :
  Scan.analyse pkg w = (inr analysis, w') -> package analysis = pkg.
Proof.
  unfold Scan.analyse. run_async. intros Hrun.
  repeat match type of Hrun with
         | context [match ?x with _ => _ end] => destruct x eqn:?; try discriminate
         end.
  injection Hrun as <- _. reflexivity.
Qed.

(** One iteration pushes exactly one record, whatever happens. *)
Lemma scanOne_pushes pkg results (w : W) :
  exists entry w',
    Scan.scanOne pkg results w = (inr (results ++ [entry]), w')
    /\ match Scan.analyse pkg w with
       | (inr analysis, w1) => entry = analysis /\ w' = w1
       | (inl _, w1) => entry = Scan.degraded pkg /\ w' = w1
       end.
Proof.
  unfold Scan.scanOne. run_async.
  destruct (Scan.analyse pkg w) as [[error | analysis] w1].
  - by exists (Scan.degraded pkg), w1.
  - by exists analysis, w1.
Qed.

Lemma scanLoop_scanned packages :
  forall results (w : W),
    exists pushed w',
      Scan.scanLoop packages results w = (inr (results ++ pushed), w')
      /\ Scanned packages w pushed w'.
Proof.
  induction packages as [| pkg rest IH]; intros results w; cbn [Scan.scanLoop].
  - exists [], w. rewrite app_nil_r. split; [reflexivity | constructor].
  - destruct (scanOne_pushes pkg results w) as (entry & w1 & Hone & Hentry).
    destruct (IH (results ++ [entry]) w1) as (pushed & w2 & Hloop & Hscanned).
    exists (entry :: pushed), w2. split.
    + unfold mbind, M_bind, bind. rewrite Hone, Hloop.
      now rewrite <- app_assoc.
    + destruct (Scan.analyse pkg w) as [[error | analysis] w1'] eqn:Hanalyse;
        destruct Hentry as [-> ->].
      * eapply Scanned_failed; eauto.
      * eapply Scanned_done; eauto.
Qed.

Lemma Scanned_length packages (w w' : W) results :
  Scanned packages w results w' -> length results = length packages.
Proof. induction 1; cbn [length]; congruence. Qed.

Lemma Scanned_order packages (w w' : W) results :
  Scanned packages w results w' -> package <$> results = packages.
Proof.
  induction 1 as [| pkg rest w analysis w1 results w2 Hrun _ IH
                    | pkg rest w error w1 results w2 Hrun _ IH];
    [reflexivity | |].
  - rewrite fmap_cons, IH. f_equal. eapply analyse_package; eauto.
  - rewrite fmap_cons, IH. reflexivity.
Qed.

(** C1.  For every list of packages and every world, [scanPackages]
    returns, and never throws; the result has one record per package, in
    the order of the input; a package whose processing throws gets the
    degraded record (trust score 0, the four breakdown fields 0, no
    vulnerabilities, description "Error during analysis"), and every other
    package gets its own analysis, computed from the world the previous
    package left, so a failure changes nothing for the packages around
    it. *)
Theorem scanPackages_total_and_ordered packages (w : W) :
  exists results w',
    Scan.scanPackages packages w = (inr results, w')
    /\ length results = length packages
    /\ package <$> results = packages
    /\ Scanned packages w results w'
    /\ (forall pkg,
          let d := Scan.degraded pkg in
          package d = pkg
          /\ trustScore d = 0
          /\ trustScoreBreakdown d
             = {| security := 0; maintenance := 0; popularity := 0; dependencies := 0 |}
          /\ vulnerabilities d = []
          /\ meta_description (metadata d) = Some "Error during analysis"%string).
Proof.
  destruct (scanLoop_scanned packages [] w) as (results & w' & Hrun & Hscanned).
  exists results, w'. split; [exact Hrun |].
  split; [eapply Scanned_length; eauto |].
  split; [eapply Scanned_order; eauto |].
  split; [assumption |].
  intros pkg. repeat split.
Qed.

End ScanFacts.

(** C1 on a batch scanned offline: [lodash] and [nginx] get the advisories
    of the fallback table, and [constructor], between them, whose
    vulnerability lookup yields a member of [Object.prototype], makes
    [calculateTrustScore] throw and gets the degraded record. *)
Example scanPackages_offline_batch :
  let packages :=
    [ Samples.pkg "lodash" "4.17.20" npm; Samples.pkg "constructor" "1.0.0" npm;
      Samples.pkg "nginx" "1.21" docker ] in
  exists first third,
    Scan.scanPackages (dates := IsoDate.parser) (numbers := Samples.numbers) (upstream := Samples.offline) packages tt
    = (inr [first; Scan.degraded (Samples.pkg "constructor" "1.0.0" npm); third], tt)
    /\ (vuln_id <$> vulnerabilities first) = ["CVE-2021-23337"%string]
    /\ trustScore first = 75
    /\ (vuln_id <$> vulnerabilities third) = ["CVE-2021-23017"%string]
    /\ trustScore third = 75.
Proof.
  intros packages. eexists _, _.
  split; [vm_compute; reflexivity |].
  split; [reflexivity |]. split; [vm_compute; reflexivity |].
  split; [reflexivity |]. vm_compute; reflexivity.
Qed.

(** * Further properties of the scanner *)

(** ** Ranges and monotonicity of the trust score *)

Section TrustRanges.
Context {dates : Js.DateParser}.

Lemma starsFactor_range stats : 0 <= Trust.starsFactor stats <= 8.
Proof.
  unfold Trust.starsFactor. destruct stats as [g |]; [| lia].
  repeat match goal with |- context [if ?b then _ else _] => destruct b end; lia.
Qed.

Lemma downloadsFactor_range downloads : 0 <= Trust.downloadsFactor downloads <= 7.
Proof.
  unfold Trust.downloadsFactor. destruct (downloads ≫= dl_lastMonth); [| lia].
  repeat match goal with |- context [if ?b then _ else _] => destruct b end; lia.
Qed.

Lemma popularityScore_range stats downloads :
  5 <= Trust.popularityScore stats downloads <= 20.
Proof.
  unfold Trust.popularityScore.
  pose proof (starsFactor_range stats). pose proof (downloadsFactor_range downloads). lia.
Qed.

Lemma maintenanceScore_values clock meta stats :
  Trust.maintenanceScore clock meta stats = 10 \/ Trust.maintenanceScore clock meta stats = 15
  \/ Trust.maintenanceScore clock meta stats = 20 \/ Trust.maintenanceScore clock meta stats = 25.
Proof.
  rewrite maintenanceScore_rule.
  destruct (publishPenalty_values
              (ageAt (Js.nowAtPublish clock) (meta ≫= meta_lastPublish)))
    as [-> | [-> | [-> | ->]]];
    destruct (commitBonus_values (ageAt (Js.nowAtCommit clock) (stats ≫= gh_lastCommit)))
      as [-> | ->]; vm_compute; auto.
Qed.

Lemma totalScore_sum clock vulns meta deps stats downloads :
  Trust.totalScore clock vulns meta deps stats downloads
  = Trust.securityScore vulns + Trust.maintenanceScore clock meta stats
    + Trust.popularityScore stats downloads + Trust.dependenciesScore deps.
Proof. unfold Trust.totalScore. apply Math_round_inject_Z. Qed.

Lemma percentOf_40 k : 0 <= k <= 8 -> 0 <= Trust.percentOf (5 * k) 40 <= 100.
Proof.
  intros Hk.
  assert (Hcases : k = 0 \/ k = 1 \/ k = 2 \/ k = 3 \/ k = 4 \/ k = 5 \/ k = 6
                   \/ k = 7 \/ k = 8) by lia.
  decompose [or] Hcases; subst k; vm_compute; split; discriminate.
Qed.

Lemma calculateTrustScore_score clock vulns meta deps stats downloads :
  let r := Trust.calculateTrustScore clock vulns meta deps stats downloads in
  score r
  = Trust.securityScore vulns + Trust.maintenanceScore clock meta stats
    + Trust.popularityScore stats downloads + Trust.dependenciesScore deps
  /\ 20 <= score r <= 100.
Proof.
  intros r. subst r. cbn [score Trust.calculateTrustScore]. rewrite totalScore_sum.
  destruct (securityScore_values vulns) as (k & Hk & Hs).
  pose proof (popularityScore_range stats downloads) as Hp.
  pose proof (maintenanceScore_values clock meta stats) as Hm.
  pose proof (dependenciesScore_values deps) as Hd.
  lia.
Qed.

(** X1.  The composite is the plain sum of the four raw scores: rounding and
    clamping never change it.  No computed score is below 20, and every
    breakdown field is a percentage. *)
Theorem calculateTrustScore_ranges clock vulns meta deps stats downloads :
  let r := Trust.calculateTrustScore clock vulns meta deps stats downloads in
  score r
  = Trust.securityScore vulns + Trust.maintenanceScore clock meta stats
    + Trust.popularityScore stats downloads + Trust.dependenciesScore deps
  /\ 20 <= score r <= 100
  /\ 0 <= security (breakdown r) <= 100
  /\ 40 <= maintenance (breakdown r) <= 100
  /\ 25 <= popularity (breakdown r) <= 100
  /\ 33 <= dependencies (breakdown r) <= 100.
Proof.
  intros r. subst r.
  cbn [score breakdown Trust.calculateTrustScore security maintenance popularity
         dependencies].
  rewrite totalScore_sum, percentOf_25, percentOf_20.
  destruct (securityScore_values vulns) as (k & Hk & Hs).
  pose proof (popularityScore_range stats downloads) as Hp.
  pose proof (maintenanceScore_values clock meta stats) as Hm.
  pose proof (percentOf_40 k Hk) as Hs40. rewrite <- Hs in Hs40.
  assert (Hd : 5 <= Trust.dependenciesScore deps <= 15
               /\ 33 <= Trust.percentOf (Trust.dependenciesScore deps) 15 <= 100).
  { destruct (dependenciesScore_values deps) as [-> | [-> | [-> | ->]]];
      vm_compute; repeat split; discriminate. }
  lia.
Qed.

End TrustRanges.

Section TrustMonotone.
Context {dates : Js.DateParser}.

Lemma countSeverity_cons sev v vulns :
  Trust.countSeverity sev (v :: vulns)
  = (if String.eqb (vuln_severity v) sev then 1 else 0) + Trust.countSeverity sev vulns.
Proof.
  unfold Trust.countSeverity. cbn [List.filter].
  destruct (String.eqb (vuln_severity v) sev); cbn [length]; lia.
Qed.

Lemma countSeverity_filter_counted sev vulns :
  sev = "critical"%string \/ sev = "high"%string \/ sev = "medium"%string ->
  Trust.countSeverity sev (List.filter counted vulns) = Trust.countSeverity sev vulns.
Proof.
  intros Hsev. induction vulns as [| v vulns IH]; [reflexivity |].
  cbn [List.filter]. unfold counted at 1.
  destruct (String.eqb_spec (vuln_severity v) "critical") as [Hc | Hc];
    destruct (String.eqb_spec (vuln_severity v) "high") as [Hh | Hh];
    destruct (String.eqb_spec (vuln_severity v) "medium") as [Hm | Hm];
    cbn [orb]; rewrite ?countSeverity_cons, IH; try reflexivity.
  destruct (String.eqb_spec (vuln_severity v) sev) as [He | He]; [| lia].
  destruct Hsev as [-> | [-> | ->]]; contradiction.
Qed.

(** X2.  One more vulnerability never raises the trust score, and lowers it by
    at most 15; once [15 * critical + 10 * high + 5 * medium] reaches 40
    the security score is 0 and stays there. *)
Theorem calculateTrustScore_antitone clock v vulns meta deps stats downloads :
  let before := Trust.calculateTrustScore clock vulns meta deps stats downloads in
  let after := Trust.calculateTrustScore clock (v :: vulns) meta deps stats downloads in
  score before - 15 <= score after <= score before
  /\ (40 <= 15 * Trust.countSeverity "critical" vulns + 10 * Trust.countSeverity "high" vulns
            + 5 * Trust.countSeverity "medium" vulns ->
      Trust.securityScore vulns = 0 /\ security (breakdown before) = 0
      /\ score after = score before).
Proof.
  intros before after.
  destruct (calculateTrustScore_score clock vulns meta deps stats downloads) as (Hb & _).
  destruct (calculateTrustScore_score clock (v :: vulns) meta deps stats downloads)
    as (Ha & _).
  fold before in Hb. fold after in Ha. rewrite Ha, Hb.
  assert (Hsec : Trust.securityScore vulns - 15 <= Trust.securityScore (v :: vulns)
                 <= Trust.securityScore vulns
                 /\ (40 <= 15 * Trust.countSeverity "critical" vulns
                          + 10 * Trust.countSeverity "high" vulns
                          + 5 * Trust.countSeverity "medium" vulns ->
                     Trust.securityScore vulns = 0 /\ Trust.securityScore (v :: vulns) = 0)).
  { unfold Trust.securityScore. rewrite !countSeverity_cons.
    pose proof (countSeverity_nonneg "critical" vulns).
    pose proof (countSeverity_nonneg "high" vulns).
    pose proof (countSeverity_nonneg "medium" vulns).
    destruct (String.eqb_spec (vuln_severity v) "critical") as [-> | _];
      cbn [String.eqb Ascii.eqb Bool.eqb]; [lia |].
    destruct (String.eqb_spec (vuln_severity v) "high") as [-> | _];
      cbn [String.eqb Ascii.eqb Bool.eqb]; [lia |].
    destruct (String.eqb (vuln_severity v) "medium"); lia. }
  destruct Hsec as [Hstep Hfloor]. split; [lia |].
  intros Hmany. destruct (Hfloor Hmany) as [H0 H0']. split; [assumption |].
  split; [| lia].
  subst before. cbn [breakdown Trust.calculateTrustScore security]. now rewrite H0.
Qed.

(** X3.  Only the severities [critical], [high] and [medium] count: dropping
    every other vulnerability from the list changes nothing in the
    result.  GitHub grades its middle level [MODERATE]; lower-cased by the
    adapter it is none of the three, so such an advisory costs nothing. *)
Theorem calculateTrustScore_ignores_other_severities
    clock vulns meta deps stats downloads :
  Trust.calculateTrustScore clock (List.filter counted vulns) meta deps stats downloads
  = Trust.calculateTrustScore clock vulns meta deps stats downloads
  /\ (forall node,
        adv_severity (advisory node) = Some "MODERATE"%string ->
        counted (Vulns.advisoryToVulnerability node) = false
        /\ Trust.calculateTrustScore clock (Vulns.advisoryToVulnerability node :: vulns)
             meta deps stats downloads
           = Trust.calculateTrustScore clock vulns meta deps stats downloads).
Proof.
  assert (Hsec : forall l, Trust.securityScore (List.filter counted l) = Trust.securityScore l).
  { intros l. unfold Trust.securityScore.
    rewrite !countSeverity_filter_counted; auto. }
  split.
  - unfold Trust.calculateTrustScore, Trust.totalScore. now rewrite Hsec.
  - intros node Hmoderate.
    assert (Hnot : counted (Vulns.advisoryToVulnerability node) = false).
    { unfold counted. cbn [vuln_severity Vulns.advisoryToVulnerability].
      rewrite Hmoderate. reflexivity. }
    split; [assumption |].
    unfold Trust.calculateTrustScore, Trust.totalScore.
    rewrite <- (Hsec (_ :: vulns)). cbn [List.filter]. rewrite Hnot. now rewrite Hsec.
Qed.

(** X4.  The bonus for a recent commit only offsets a penalty for a stale
    publish: the maintenance score is 10, 15, 20 or 25, it is 25 whenever
    the publish date costs nothing, and without repository statistics it
    is 25 minus the penalty. *)
Theorem maintenanceScore_bonus_offsets_penalty clock meta stats :
  let penalty := publishPenalty (ageAt (Js.nowAtPublish clock) (meta ≫= meta_lastPublish)) in
  (Trust.maintenanceScore clock meta stats = 10 \/ Trust.maintenanceScore clock meta stats = 15
   \/ Trust.maintenanceScore clock meta stats = 20 \/ Trust.maintenanceScore clock meta stats = 25)
  /\ (penalty = 0 -> Trust.maintenanceScore clock meta stats = 25)
  /\ Trust.maintenanceScore clock meta None = 25 - penalty
  /\ Trust.maintenanceScore clock meta None <= Trust.maintenanceScore clock meta stats
     <= Trust.maintenanceScore clock meta None + 5.
Proof.
  intros penalty. split; [apply maintenanceScore_values |].
  rewrite !maintenanceScore_rule. fold penalty. cbn [mbind option_bind ageAt commitBonus].
  pose proof (publishPenalty_values
                (ageAt (Js.nowAtPublish clock) (meta ≫= meta_lastPublish))) as Hp.
  fold penalty in Hp.
  pose proof (commitBonus_values (ageAt (Js.nowAtCommit clock) (stats ≫= gh_lastCommit))) as Hb.
  lia.
Qed.

Lemma starsFactor_monotone (g1 g2 : GitHubStats) :
  gh_stars g1 <= gh_stars g2 ->
  Trust.starsFactor (Some g1) <= Trust.starsFactor (Some g2)
  /\ (Trust.starsFactor (Some g1) = 8 <-> 10000 < gh_stars g1).
Proof.
  intros Hstars. unfold Trust.starsFactor, Js.truthy_num.
  repeat match goal with
         | |- context [?a <? ?b] => destruct (Z.ltb_spec a b)
         | |- context [?a =? ?b] => destruct (Z.eqb_spec a b)
         end; cbn [negb]; lia.
Qed.

Lemma downloadsFactor_monotone (d1 d2 : DownloadStats) n1 n2 :
  dl_lastMonth d1 = Some n1 -> dl_lastMonth d2 = Some n2 -> n1 <= n2 ->
  Trust.downloadsFactor (Some d1) <= Trust.downloadsFactor (Some d2)
  /\ (Trust.downloadsFactor (Some d1) = 7 <-> 1000000 < n1).
Proof.
  intros Hd1 Hd2 Hn. unfold Trust.downloadsFactor, Js.truthy_num.
  cbn [mbind option_bind]. rewrite Hd1, Hd2.
  repeat match goal with
         | |- context [?a <? ?b] => destruct (Z.ltb_spec a b)
         | |- context [?a =? ?b] => destruct (Z.eqb_spec a b)
         end; cbn [negb]; lia.
Qed.

(** X5.  More stars or more downloads last month never lower the popularity
    score, which lies between 5 and 20; the cap of 20 is reached exactly by
    more than 10000 stars together with more than 1000000 downloads. *)
Theorem popularityScore_monotone (g1 g2 : GitHubStats) (d1 d2 : DownloadStats) n1 n2 :
  gh_stars g1 <= gh_stars g2 ->
  dl_lastMonth d1 = Some n1 -> dl_lastMonth d2 = Some n2 -> n1 <= n2 ->
  Trust.popularityScore (Some g1) (Some d1) <= Trust.popularityScore (Some g2) (Some d2)
  /\ 5 <= Trust.popularityScore (Some g1) (Some d1) <= 20
  /\ (Trust.popularityScore (Some g1) (Some d1) = 20
      <-> 10000 < gh_stars g1 /\ 1000000 < n1).
Proof.
  intros Hstars Hd1 Hd2 Hn.
  destruct (starsFactor_monotone g1 g2 Hstars) as [Hs Hs8].
  destruct (downloadsFactor_monotone d1 d2 n1 n2 Hd1 Hd2 Hn) as [Hd Hd7].
  pose proof (starsFactor_range (Some g1)). pose proof (starsFactor_range (Some g2)).
  pose proof (downloadsFactor_range (Some d1)). pose proof (downloadsFactor_range (Some d2)).
  unfold Trust.popularityScore. lia.
Qed.

(** X6.  More dependencies never raise the dependencies score; an absent map
    scores like an empty one. *)
Theorem dependenciesScore_antitone (deps1 deps2 : gmap string string) :
  deps1 ⊆ deps2 ->
  Trust.dependenciesScore (Some deps2) <= Trust.dependenciesScore (Some deps1)
  /\ Trust.dependenciesScore (Some deps1) <= Trust.dependenciesScore None
  /\ Trust.dependenciesScore None = 15.
Proof.
  intros Hsub. apply map_subseteq_size in Hsub.
  unfold Trust.dependenciesScore.
  change (default ∅ (Some deps1)) with deps1. change (default ∅ (Some deps2)) with deps2.
  change (default ∅ None) with (∅ : gmap string string). rewrite map_size_empty.
  repeat match goal with
         | |- context [?a <? ?b] => destruct (Z.ltb_spec a b)
         end; lia.
Qed.

End TrustMonotone.

Lemma popularityScore_monotone_witness :
  Trust.popularityScore (Some (Fixtures.repository 150 None))
    (Some (Fixtures.downloadsLastMonth 20000))
  <= Trust.popularityScore (Some (Fixtures.repository 12000 None))
       (Some (Fixtures.downloadsLastMonth 2000000)).
Proof.
  apply (popularityScore_monotone (Fixtures.repository 150 None)
           (Fixtures.repository 12000 None) (Fixtures.downloadsLastMonth 20000)
           (Fixtures.downloadsLastMonth 2000000) 20000 2000000);
    [vm_compute; discriminate | reflexivity | reflexivity | lia].
Defined.

Lemma dependenciesScore_antitone_witness :
  Trust.dependenciesScore (Some (<["left-pad" := "1.3.0"]> (Samples.dependencyMap 60)))
  <= Trust.dependenciesScore (Some (Samples.dependencyMap 60)).
Proof.
  assert (Hsub : Samples.dependencyMap 60
                 ⊆ <["left-pad"%string := "1.3.0"%string]> (Samples.dependencyMap 60)).
  { apply insert_subseteq. vm_compute. reflexivity. }
  exact (proj1 (dependenciesScore_antitone _ _ Hsub)).
Defined.

(** ** More on the vulnerability aggregator *)

Section MergeOrder.

Lemma pushUnseen_sublist source :
  forall seenIds vulnerabilities,
    exists added,
      (Vulns.pushUnseen source seenIds vulnerabilities).2 = vulnerabilities ++ added
      /\ sublist added source.
Proof.
  induction source as [| vuln rest IH]; intros seenIds vulnerabilities;
    cbn [Vulns.pushUnseen].
  - exists []. rewrite app_nil_r. split; [reflexivity | constructor].
  - case_bool_decide.
    + destruct (IH seenIds vulnerabilities) as (added & -> & Hsub).
      exists added. split; [reflexivity | now constructor].
    + destruct (IH ({[vuln_id vuln]} ∪ seenIds) (vulnerabilities ++ [vuln]))
        as (added & -> & Hsub).
      exists (vuln :: added). rewrite <- app_assoc. split; [reflexivity | now constructor].
Qed.

Lemma pushUnseen_distinct source :
  forall seenIds vulnerabilities,
    seenIds = ids vulnerabilities ->
    NoDup (vuln_id <$> vulnerabilities ++ source) ->
    Vulns.pushUnseen source seenIds vulnerabilities
    = (ids (vulnerabilities ++ source), vulnerabilities ++ source).
Proof.
  induction source as [| vuln rest IH]; intros seenIds vulnerabilities Hseen Hnodup;
    cbn [Vulns.pushUnseen].
  - rewrite app_nil_r. now subst.
  - rewrite fmap_app, fmap_cons in Hnodup.
    apply NoDup_app in Hnodup as (Hleft & Hdisjoint & Hright).
    rewrite bool_decide_eq_false_2.
    + rewrite IH.
      * now rewrite <- app_assoc.
      * rewrite ids_app, ids_cons. subst seenIds. set_solver.
      * rewrite <- app_assoc. cbn [app]. rewrite fmap_app, fmap_cons.
        apply NoDup_app. repeat split; assumption.
    + subst seenIds. rewrite elem_of_ids. intros Hin.
      apply (Hdisjoint _ Hin). apply list_elem_of_here.
Qed.

(** X7.  The merged list keeps the order of the sources, GitHub's records
    before OSV's: it is a sublist of the concatenation.  When no advisory
    id occurs twice it is the concatenation itself, and merging a merged
    list with nothing gives it back. *)
Theorem merge_keeps_order githubVulns osvVulns :
  sublist (Vulns.merge githubVulns osvVulns) (githubVulns ++ osvVulns)
  /\ (NoDup (vuln_id <$> githubVulns ++ osvVulns) ->
      Vulns.merge githubVulns osvVulns = githubVulns ++ osvVulns)
  /\ Vulns.merge (Vulns.merge githubVulns osvVulns) [] = Vulns.merge githubVulns osvVulns
  /\ (length (Vulns.merge githubVulns osvVulns) <= length githubVulns + length osvVulns)%nat.
Proof.
  assert (Hsub : sublist (Vulns.merge githubVulns osvVulns) (githubVulns ++ osvVulns)).
  { unfold Vulns.merge.
    destruct (pushUnseen_sublist githubVulns ∅ []) as (addedA & HA & HsubA).
    destruct (Vulns.pushUnseen githubVulns ∅ []) as [seenIds vulnerabilities].
    cbn [snd] in HA. subst vulnerabilities.
    destruct (pushUnseen_sublist osvVulns seenIds ([] ++ addedA)) as (addedB & -> & HsubB).
    cbn [app]. now apply sublist_app. }
  assert (Hdistinct : forall l, NoDup (vuln_id <$> l) -> Vulns.merge l [] = l).
  { intros l Hl. unfold Vulns.merge.
    rewrite (pushUnseen_distinct l ∅ [] eq_refl Hl). reflexivity. }
  split; [exact Hsub |]. split; [| split].
  - intros Hnodup. unfold Vulns.merge.
    rewrite fmap_app in Hnodup. pose proof Hnodup as Hparts.
    apply NoDup_app in Hparts as (HA & _ & _).
    rewrite (pushUnseen_distinct githubVulns ∅ [] eq_refl HA). cbn [app].
    rewrite pushUnseen_distinct; [reflexivity | reflexivity | now rewrite fmap_app].
  - apply Hdistinct. apply merge_spec.
  - apply sublist_length in Hsub. now rewrite length_app in Hsub.
Qed.

End MergeOrder.

Section AggregatorEdges.
Context {W : Type} {numbers : Js.NumberParser} {upstream : Upstream W}.

(** X8.  Without a GitHub token, and for docker images, the GitHub adapter
    answers with no advisories and leaves the world as it was: no request
    is made. *)
Theorem fetchGitHubAdvisories_skipped pkg (w : W) :
  Js.truthy (env_GITHUB_TOKEN w) = false \/ pkg_ecosystem pkg = docker ->
  Vulns.fetchGitHubAdvisories pkg w = (inr [], w).
Proof.
  intros Hskip. unfold Vulns.fetchGitHubAdvisories. run_async.
  destruct (Js.truthy (env_GITHUB_TOKEN w)) eqn:Htoken; cbn [negb]; [| reflexivity].
  destruct Hskip as [Hfalse | ->]; [discriminate | reflexivity].
Qed.

(** X9.  The OSV adapter never throws and returns at most ten vulnerabilities;
    when the service fails or its reply has no [vulns] it returns none. *)
Theorem fetchOSVVulnerabilities_at_most_ten pkg (w : W) :
  exists found w',
    Vulns.fetchOSVVulnerabilities pkg w = (inr found, w')
    /\ (length found <= 10)%nat
    /\ match osvVulns (Vulns.osvQueryFor pkg) w with
       | (inr (Some records), w1) =>
           w' = w1 /\ found = Vulns.osvToVulnerability <$> take 10 records
       | (inr None, w1) | (inl _, w1) => w' = w1 /\ found = []
       end.
Proof.
  unfold Vulns.fetchOSVVulnerabilities. run_async.
  destruct (osvVulns (Vulns.osvQueryFor pkg) w) as [[e | [records |]] w1].
  - exists [], w1. repeat split. cbn [length]. lia.
  - exists (Vulns.osvToVulnerability <$> take 10 records), w1. repeat split.
    rewrite length_fmap, length_take. lia.
  - exists [], w1. repeat split. cbn [length]. lia.
Qed.

Lemma FALLBACK_entries_distinct name entries :
  Vulns.FALLBACK_VULNERABILITIES !! name = Some entries -> NoDup (vuln_id <$> entries).
Proof.
  intros Hkey. apply elem_of_list_to_map_2 in Hkey.
  repeat (apply elem_of_cons in Hkey as [Hkey | Hkey];
          [injection Hkey as _ ->; apply NoDup_singleton |]).
  now apply not_elem_of_nil in Hkey.
Qed.

(** X10.  [fetchVulnerabilities] never throws.  For a package whose name is not
    a member of [Object.prototype] it resolves to an array in which no
    advisory id occurs twice; it resolves to something else only when the
    name is such a member, and then to that member. *)
Theorem fetchVulnerabilities_resolves pkg (w : W) :
  exists value w',
    Vulns.fetchVulnerabilities pkg w = (inr value, w')
    /\ (pkg_name pkg ∉ Js.Object_prototype ->
        exists array, value = Vulns.Array array /\ NoDup (vuln_id <$> array))
    /\ (forall member,
          value = Vulns.PrototypeMember member ->
          member = pkg_name pkg /\ member ∈ Js.Object_prototype).
Proof.
  destruct (fetchVulnerabilities_returns pkg w) as (nodes & records & w' & Hret).
  eexists _, w'. split; [exact Hret |].
  destruct (merge_spec (Vulns.advisoryToVulnerability <$> nodes)
                       (Vulns.osvToVulnerability <$> records)) as (Hnodup & _).
  unfold Vulns.orFallback, Js.get.
  destruct (Vulns.merge _ _) as [| v merged].
  - destruct (Vulns.FALLBACK_VULNERABILITIES !! pkg_name pkg) as [entries |] eqn:Hkey.
    + split; [| discriminate].
      intros _. exists entries. split; [reflexivity |].
      now apply FALLBACK_entries_distinct in Hkey.
    + case_bool_decide as Hproto.
      * split; [contradiction |]. intros member [= <-]. now split.
      * split; [| discriminate]. intros _. exists []. split; [reflexivity | constructor].
  - split; [| discriminate]. intros _. now exists (v :: merged).
Qed.

End AggregatorEdges.

(** Offline there is no token, so GitHub is not asked about [lodash]; with
    a token it is still not asked about a Docker image. *)
Lemma fetchGitHubAdvisories_skipped_witness :
  Vulns.fetchGitHubAdvisories (upstream := Samples.offline)
    (Samples.pkg "lodash" "4.17.20" npm) tt = (inr [], tt)
  /\ Vulns.fetchGitHubAdvisories (upstream := Samples.overlapping)
       (Samples.pkg "nginx" "1.21" docker) tt = (inr [], tt).
Proof.
  split.
  - apply (fetchGitHubAdvisories_skipped (upstream := Samples.offline)). left. reflexivity.
  - apply (fetchGitHubAdvisories_skipped (upstream := Samples.overlapping)). right.
    reflexivity.
Defined.

(** ** More on the scan orchestrator *)

Section ScanScores.
Context {W : Type} {dates : Js.DateParser} {numbers : Js.NumberParser}
  {upstream : Upstream W}.

(** A completed analysis can be re-scored from its own fields. *)
Lemma analyse_score pkg (w w' : W) analysis :
  Scan.analyse pkg w = (inr analysis, w') ->
  exists clock,
    let r := Trust.calculateTrustScore clock (vulnerabilities analysis)
               (Some (metadata analysis))
               (Some (default ∅ (meta_dependencies (metadata analysis))))
               (githubStats analysis) (downloadStats analysis) in
    trustScore analysis = score r /\ trustScoreBreakdown analysis = breakdown r.
Proof.
  unfold Scan.analyse, Scan.callCalculateTrustScore. run_async. intros Hrun.
  repeat match type of Hrun with
         | context [match ?x with _ => _ end] =>
             match x with
             | context [match ?y with _ => _ end] => fail 1
             | _ => destruct x eqn:?; try discriminate
             end
         end.
  simplify_eq. eexists. split; reflexivity.
Qed.

Lemma Scanned_scores packages (w w' : W) results :
  Scanned packages w results w' ->
  Forall (fun analysis =>
            analysis = Scan.degraded (package analysis)
            \/ exists clock,
                 let r := Trust.calculateTrustScore clock (vulnerabilities analysis)
                            (Some (metadata analysis))
                            (Some (default ∅ (meta_dependencies (metadata analysis))))
                            (githubStats analysis) (downloadStats analysis) in
                 trustScore analysis = score r
                 /\ trustScoreBreakdown analysis = breakdown r) results.
Proof.
  induction 1 as [| pkg rest w analysis w1 results w2 Hrun _ IH
                    | pkg rest w error w1 results w2 Hrun _ IH]; constructor; auto.
  right. eapply analyse_score; eauto.
Qed.

(** X11.  In what [scanPackages] returns, a record is either the degraded record
    of its package or has a trust score between 20 and 100 that
    [calculateTrustScore] gives again on the record's own vulnerabilities,
    metadata, repository and download statistics: a trust score of 0 marks
    exactly the packages whose analysis failed. *)
Theorem scanPackages_zero_score_means_failure packages (w w' : W) results :
  Scan.scanPackages packages w = (inr results, w') ->
  Forall (fun analysis =>
            (trustScore analysis = 0 <-> analysis = Scan.degraded (package analysis))
            /\ (analysis = Scan.degraded (package analysis)
                \/ 20 <= trustScore analysis <= 100
                   /\ exists clock,
                        let r := Trust.calculateTrustScore clock (vulnerabilities analysis)
                                   (Some (metadata analysis))
                                   (Some (default ∅ (meta_dependencies (metadata analysis))))
                                   (githubStats analysis) (downloadStats analysis) in
                        trustScore analysis = score r
                        /\ trustScoreBreakdown analysis = breakdown r)) results.
Proof.
  intros Hscan.
  destruct (scanLoop_scanned packages [] w) as (pushed & w'' & Hrun & Hscanned).
  unfold Scan.scanPackages in Hscan. rewrite Hrun in Hscan. cbn [app] in Hscan.
  injection Hscan as <- <-.
  eapply Forall_impl; [apply (Scanned_scores _ _ _ _ Hscanned) |].
  intros analysis [Hdegraded | (clock & Hscore)]; cbv zeta in *.
  - split; [| now left]. split; [auto |]. intros _. now rewrite Hdegraded.
  - destruct Hscore as [Hscore Hbreakdown].
    pose proof (calculateTrustScore_score clock (vulnerabilities analysis)
                  (Some (metadata analysis))
                  (Some (default ∅ (meta_dependencies (metadata analysis))))
                  (githubStats analysis) (downloadStats analysis)) as Hrange.
    cbv zeta in Hrange. destruct Hrange as (_ & Hrange). rewrite <- Hscore in Hrange.
    split.
    + split; [lia |]. intros Hdegraded. rewrite Hdegraded in Hrange.
      cbn [trustScore Scan.degraded] in Hrange. lia.
    + right. split; [assumption |]. exists clock. now split.
Qed.

End ScanScores.

(** The offline batch of [lodash], [constructor] and [nginx]: the scores are
    75, 0 and 75, and the record with the score 0 is the degraded one. *)
Lemma scanPackages_zero_score_means_failure_witness :
  let packages :=
    [ Samples.pkg "lodash" "4.17.20" npm; Samples.pkg "constructor" "1.0.0" npm;
      Samples.pkg "nginx" "1.21" docker ] in
  exists results,
    Scan.scanPackages (dates := IsoDate.parser) (numbers := Samples.numbers) (upstream := Samples.offline) packages tt
    = (inr results, tt)
    /\ trustScore <$> results = [75; 0; 75]
    /\ Forall (fun analysis =>
                 trustScore analysis = 0 <-> analysis = Scan.degraded (package analysis))
         results.
Proof.
  intros packages. eexists. split; [vm_compute; reflexivity |].
  split; [vm_compute; reflexivity |].
  eapply Forall_impl.
  - apply (scanPackages_zero_score_means_failure (dates := IsoDate.parser)
             (numbers := Samples.numbers) (upstream := Samples.offline) packages tt tt).
    vm_compute. reflexivity.
  - intros analysis [Hzero _]. exact Hzero.
Defined.

(** ** Text and the matcher *)

Section TextFacts.

Lemma span_le p s : (Text.span p s <= length s)%nat.
Proof. induction s as [| c s IH]; cbn; [lia |]. destruct (p c); cbn; lia. Qed.

Lemma span_take p s k :
  (k <= Text.span p s)%nat -> Forall (fun c => p c = true) (take k s).
Proof.
  revert k. induction s as [| c s IH]; intros k Hk; cbn in *.
  - rewrite take_nil. constructor.
  - destruct k as [| k]; [constructor |]. destruct (p c) eqn:Hc; [| lia].
    cbn. constructor; [assumption |]. apply IH. lia.
Qed.

(** A run of characters that satisfy [p], followed by nothing or by a
    character that does not, is what [span] measures. *)
Lemma span_app p run rest :
  Forall (fun c => p c = true) run ->
  (rest = [] \/ exists c t, rest = c :: t /\ p c = false) ->
  Text.span p (run ++ rest) = length run.
Proof.
  intros Hrun Hrest. induction Hrun as [| c run Hc _ IH]; cbn.
  - destruct Hrest as [-> | (c & t & -> & Hc)]; cbn; [reflexivity | now rewrite Hc].
  - now rewrite Hc, IH.
Qed.

Lemma trimEnd_snoc s c :
  Text.trimEnd (s ++ [c]) = if Text.isSpace c then Text.trimEnd s else s ++ [c].
Proof.
  unfold Text.trimEnd, Text.trimStart. rewrite rev_app_distr. cbn [rev app Text.span].
  destruct (Text.isSpace c); cbn [drop]; [reflexivity |].
  cbn [rev]. now rewrite rev_involutive.
Qed.

Lemma trimEnd_nil : Text.trimEnd [] = [].
Proof. reflexivity. Qed.

(** [trimEnd] cuts a suffix of white space. *)
Lemma trimEnd_prefix s :
  exists spaces,
    s = Text.trimEnd s ++ spaces /\ Forall (fun c => Text.isSpace c = true) spaces.
Proof.
  induction s as [| c s IH] using rev_ind.
  - exists []. split; [reflexivity | constructor].
  - rewrite trimEnd_snoc. destruct (Text.isSpace c) eqn:Hc.
    + destruct IH as (spaces & Heq & Hspaces). exists (spaces ++ [c]). split.
      * rewrite app_assoc. now rewrite <- Heq.
      * apply Forall_app. split; [assumption | repeat constructor; assumption].
    + exists []. rewrite app_nil_r. split; [reflexivity | constructor].
Qed.

(** What ends in a character that is not white space is kept whole, and
    so is everything before it. *)
Lemma trimEnd_app s c rest :
  Text.isSpace c = false ->
  Text.trimEnd (s ++ c :: rest) = s ++ c :: Text.trimEnd rest.
Proof.
  intros Hc. induction rest as [| d rest IH] using rev_ind.
  - rewrite trimEnd_nil. change (s ++ [c]) with (s ++ [c]).
    rewrite trimEnd_snoc. now rewrite Hc.
  - replace (s ++ c :: rest ++ [d]) with ((s ++ c :: rest) ++ [d])
      by (now rewrite <- app_assoc).
    rewrite !trimEnd_snoc. destruct (Text.isSpace d); [assumption |].
    now rewrite <- app_assoc.
Qed.

Lemma trimStart_head c s : Text.isSpace c = false -> Text.trimStart (c :: s) = c :: s.
Proof. intros Hc. unfold Text.trimStart. cbn [Text.span]. now rewrite Hc. Qed.

Lemma trimStart_Forall p s : Forall p s -> Forall p (Text.trimStart s).
Proof. unfold Text.trimStart. apply Forall_drop. Qed.

Lemma trimEnd_Forall (p : ascii -> Prop) s : Forall p s -> Forall p (Text.trimEnd s).
Proof.
  intros Hs. destruct (trimEnd_prefix s) as (spaces & Heq & _).
  rewrite Heq in Hs. now apply Forall_app in Hs as [Hs _].
Qed.

Lemma trim_Forall (p : ascii -> Prop) s : Forall p s -> Forall p (Text.trim s).
Proof. intros Hs. unfold Text.trim. now apply trimEnd_Forall, trimStart_Forall. Qed.

(** A trimmed string neither starts nor ends with white space. *)
Lemma trimStart_starts s :
  match Text.trimStart s with
  | c :: _ => Text.isSpace c = false
  | [] => True
  end.
Proof.
  unfold Text.trimStart. induction s as [| c s IH]; cbn [Text.span]; [exact I |].
  destruct (Text.isSpace c) eqn:Hc; cbn [drop]; assumption.
Qed.

Lemma trimEnd_ends s :
  match rev (Text.trimEnd s) with
  | c :: _ => Text.isSpace c = false
  | [] => True
  end.
Proof.
  unfold Text.trimEnd. rewrite rev_involutive. apply trimStart_starts.
Qed.

Lemma trimEnd_starts s :
  match s with c :: _ => Text.isSpace c = false | [] => True end ->
  match Text.trimEnd s with c :: _ => Text.isSpace c = false | [] => True end.
Proof.
  intros Hs. destruct (trimEnd_prefix s) as (spaces & Heq & _).
  destruct (Text.trimEnd s) as [| c t]; [exact I |]. rewrite Heq in Hs. exact Hs.
Qed.

Lemma split_nonempty sep s : Text.split sep s <> [].
Proof.
  destruct s as [| c s]; cbn; [discriminate |].
  destruct (Ascii.eqb c sep); [discriminate |]. destruct (Text.split sep s); discriminate.
Qed.

(** Splitting at a separator splits the pieces. *)
Lemma split_app sep a b :
  Text.split sep (a ++ sep :: b) = Text.split sep a ++ Text.split sep b.
Proof.
  induction a as [| c a IH]; cbn [app Text.split].
  - now rewrite Ascii.eqb_refl.
  - destruct (Ascii.eqb c sep); [now rewrite IH |].
    rewrite IH. pose proof (split_nonempty sep a) as Hne.
    destruct (Text.split sep a) as [| piece pieces]; [contradiction | reflexivity].
Qed.

(** A string without the separator is one piece. *)
Lemma split_none sep s :
  Forall (fun c => Ascii.eqb c sep = false) s -> Text.split sep s = [s].
Proof.
  induction 1 as [| c s Hc _ IH]; cbn [Text.split]; [reflexivity |].
  now rewrite Hc, IH.
Qed.

(** No piece holds the separator, and there is one piece more than there
    are separators. *)
Lemma split_pieces sep s :
  Forall (Forall (fun c => Ascii.eqb c sep = false)) (Text.split sep s)
  /\ length (Text.split sep s) = S (length (List.filter (fun c => Ascii.eqb c sep) s)).
Proof.
  induction s as [| c s [IHpieces IHlength]]; cbn [Text.split List.filter].
  - split; [repeat constructor | reflexivity].
  - destruct (Ascii.eqb c sep) eqn:Hc.
    + split; [constructor; [constructor | assumption] | cbn [length]; now rewrite IHlength].
    + pose proof (split_nonempty sep s) as Hne.
      destruct (Text.split sep s) as [| piece pieces]; [contradiction |].
      apply Forall_cons in IHpieces as [Hpiece Hpieces].
      split; [| exact IHlength]. constructor; [| assumption]. now constructor.
Qed.

End TextFacts.

Section MatcherFacts.

Lemma descend_Some {A} (f : nat -> option A) lo k r :
  Re.descend f lo k = Some r -> exists j, (lo <= j <= k)%nat /\ f j = Some r.
Proof.
  induction k as [| k IH]; cbn [Re.descend].
  - destruct (Nat.ltb_spec 0 lo); [discriminate |].
    destruct (f O) eqn:Hf; [| discriminate]. intros [= <-]. exists O. split; [lia | assumption].
  - destruct (Nat.ltb_spec (S k) lo); [discriminate |].
    destruct (f (S k)) eqn:Hf.
    + intros [= <-]. exists (S k). split; [lia | assumption].
    + intros Hrest. destruct (IH Hrest) as (j & Hj & Hfj). exists j. split; [lia | assumption].
Qed.

(** The greedy choice is final when the rest of the pattern accepts it. *)
Lemma descend_first {A} (f : nat -> option A) lo k r :
  (lo <= k)%nat -> f k = Some r -> Re.descend f lo k = Some r.
Proof.
  intros Hlo Hf. destruct k as [| k]; cbn [Re.descend].
  - destruct (Nat.ltb_spec 0 lo); [lia |]. now rewrite Hf.
  - destruct (Nat.ltb_spec (S k) lo); [lia |]. now rewrite Hf.
Qed.

(** One step back. *)
Lemma descend_next {A} (f : nat -> option A) lo k :
  (lo <= S k)%nat -> f (S k) = None -> Re.descend f lo (S k) = Re.descend f lo k.
Proof.
  intros Hlo Hf. cbn [Re.descend]. destruct (Nat.ltb_spec (S k) lo); [lia |]. now rewrite Hf.
Qed.

Lemma descend_None {A} (f : nat -> option A) lo k :
  (forall j, (lo <= j <= k)%nat -> f j = None) -> Re.descend f lo k = None.
Proof.
  induction k as [| k IH]; intros Hf; cbn [Re.descend].
  - destruct (Nat.ltb_spec 0 lo); [reflexivity |]. rewrite Hf; [reflexivity | lia].
  - destruct (Nat.ltb_spec (S k) lo); [reflexivity |].
    rewrite Hf by lia. apply IH. intros j Hj. apply Hf. lia.
Qed.

(** Every match splits a prefix of the string into one piece per item, each
    piece being something its item may take; under [$] the prefix is the
    whole string. *)
Lemma matchHere_sound atoms toEnd :
  forall s captures,
    Re.matchHere atoms toEnd s = Some captures ->
    Forall2 taken atoms captures
    /\ exists rest, s = concat captures ++ rest /\ (toEnd = true -> rest = []).
Proof.
  induction atoms as [| a atoms IH]; intros s captures; cbn [Re.matchHere].
  - destruct toEnd.
    + destruct s; [| discriminate]. intros [= <-]. split; [constructor |].
      exists []. split; [reflexivity | reflexivity].
    + intros [= <-]. split; [constructor |]. exists s. split; [reflexivity | discriminate].
  - intros Hmatch. apply descend_Some in Hmatch as (k & Hk & Hmatch).
    destruct (Re.matchHere atoms toEnd (drop k s)) as [tail |] eqn:Htail; [| discriminate].
    cbn in Hmatch. injection Hmatch as <-.
    destruct (IH _ _ Htail) as (Htaken & rest & Hrest & Hend).
    assert (Hspan : (k <= Text.span (Re.test a) s)%nat).
    { destruct (Re.quantifier a); cbn [Re.most] in Hk; lia. }
    pose proof (span_le (Re.test a) s) as Hlen.
    split.
    + constructor; [| assumption]. unfold taken. rewrite length_take.
      split; [now apply span_take |]. split; [lia |].
      destruct (Re.quantifier a); cbn [Re.most] in Hk; try exact I; lia.
    + exists rest. split; [| assumption].
      cbn [concat]. rewrite <- app_assoc, <- Hrest. now rewrite take_drop.
Qed.

Lemma search_sound atoms toEnd :
  forall s start captures,
    Re.search atoms toEnd s = Some (start, captures) ->
    Forall2 taken atoms captures
    /\ exists rest,
         s = take start s ++ concat captures ++ rest /\ (start <= length s)%nat
         /\ (toEnd = true -> rest = []).
Proof.
  induction s as [| c s IH]; intros start captures; cbn [Re.search].
  - destruct (Re.matchHere atoms toEnd []) as [found |] eqn:Hhere; [| discriminate].
    intros [= <- <-]. destruct (matchHere_sound _ _ _ _ Hhere) as (Htaken & rest & Heq & Hend).
    split; [assumption |]. exists rest. cbn [take app length]. split; [assumption |].
    split; [lia | assumption].
  - destruct (Re.matchHere atoms toEnd (c :: s)) as [found |] eqn:Hhere.
    + intros [= <- <-]. destruct (matchHere_sound _ _ _ _ Hhere) as (Htaken & rest & Heq & Hend).
      split; [assumption |]. exists rest. cbn [take app length]. split; [assumption |].
      split; [lia | assumption].
    + destruct (Re.search atoms toEnd s) as [[start' found] |] eqn:Hlater; [| discriminate].
      cbn. intros [= <- <-].
      destruct (IH _ _ eq_refl) as (Htaken & rest & Heq & Hstart & Hend).
      split; [assumption |]. exists rest. cbn [take app length]. rewrite <- Heq.
      split; [reflexivity |]. split; [lia | assumption].
Qed.

End MatcherFacts.

Section MatcherSteps.

(** An item under [*] or [+] takes the whole run in front of it when the
    rest of the pattern matches what follows. *)
Lemma matchHere_run a atoms toEnd run rest captures :
  Re.quantifier a = Re.Star \/ Re.quantifier a = Re.Plus /\ run <> [] ->
  Forall (fun c => Re.test a c = true) run ->
  stops a rest ->
  Re.matchHere atoms toEnd rest = Some captures ->
  Re.matchHere (a :: atoms) toEnd (run ++ rest) = Some (run :: captures).
Proof.
  intros Hq Hrun Hstops Hrest. cbn [Re.matchHere].
  rewrite (span_app _ run rest Hrun Hstops).
  assert (Hmost : Re.most (Re.quantifier a) (length run) = length run).
  { destruct Hq as [-> | [-> _]]; reflexivity. }
  rewrite Hmost. apply descend_first.
  - destruct Hq as [-> | [-> Hne]]; cbn [Re.least]; [lia |].
    destruct run; [contradiction | cbn [length]; lia].
  - rewrite take_app_length, drop_app_length, Hrest. reflexivity.
Qed.

(** An item taken once, or under [?], takes the character in front of it. *)
Lemma matchHere_char a atoms toEnd c rest captures :
  Re.quantifier a = Re.Once \/ Re.quantifier a = Re.Optional ->
  Re.test a c = true ->
  Re.matchHere atoms toEnd rest = Some captures ->
  Re.matchHere (a :: atoms) toEnd (c :: rest) = Some ([c] :: captures).
Proof.
  intros Hq Hc Hrest. cbn [Re.matchHere Text.span]. rewrite Hc.
  assert (Hmost : Re.most (Re.quantifier a) (S (Text.span (Re.test a) rest)) = 1%nat).
  { destruct Hq as [-> | ->]; cbn [Re.most]; lia. }
  rewrite Hmost. apply descend_first.
  - destruct Hq as [-> | ->]; cbn [Re.least]; lia.
  - change (take 1 (c :: rest)) with [c]. change (drop 1 (c :: rest)) with rest.
    rewrite Hrest. reflexivity.
Qed.

(** An item under [?] takes nothing where its character is not found. *)
Lemma matchHere_absent a atoms toEnd rest captures :
  Re.quantifier a = Re.Optional ->
  stops a rest ->
  Re.matchHere atoms toEnd rest = Some captures ->
  Re.matchHere (a :: atoms) toEnd rest = Some ([] :: captures).
Proof.
  intros Hq Hstops Hrest. cbn [Re.matchHere].
  assert (Hspan : Text.span (Re.test a) rest = O)
    by (apply (span_app _ [] rest); [constructor | assumption]).
  rewrite Hspan, Hq. cbn [Re.most Re.least length Nat.min]. apply descend_first; [lia |].
  change (take 0 rest) with (@nil ascii). change (drop 0 rest) with rest.
  rewrite Hrest. reflexivity.
Qed.

(** Where the string does not start with what the first item takes, an
    item that must take something finds no match. *)
Lemma matchHere_mismatch a atoms toEnd s :
  Re.quantifier a = Re.Once \/ Re.quantifier a = Re.Plus ->
  stops a s ->
  Re.matchHere (a :: atoms) toEnd s = None.
Proof.
  intros Hq Hstops. cbn [Re.matchHere].
  assert (Hspan : Text.span (Re.test a) s = O)
    by (apply (span_app _ [] s); [constructor | assumption]).
  rewrite Hspan. destruct Hq as [-> | ->]; reflexivity.
Qed.

End MatcherSteps.

(** ** The manifest parsers *)

Section ParserFacts.

Lemma list_ascii_of_string_app (a b : string) :
  list_ascii_of_string (a +:+ b) = list_ascii_of_string a ++ list_ascii_of_string b.
Proof.
  induction a as [| c a IH]; [reflexivity |].
  change (String c a +:+ b) with (String c (a +:+ b)).
  cbn [list_ascii_of_string]. now rewrite IH.
Qed.

Lemma string_of_list_ascii_nonempty l : l <> [] -> string_of_list_ascii l <> ""%string.
Proof. destruct l; [contradiction | discriminate]. Qed.

Lemma dockerLines_acc lines :
  forall packages, Parse.dockerLines lines packages = packages ++ Parse.dockerLines lines [].
Proof.
  induction lines as [| line lines IH]; intros packages; cbn [Parse.dockerLines].
  - now rewrite app_nil_r.
  - destruct (Re.matchHere Parse.FROM_line false (Text.trim line)) as [fromMatch |].
    + rewrite (IH (packages ++ _)), (IH ([] ++ _)). now rewrite <- app_assoc.
    + apply IH.
Qed.

Lemma dockerLines_app lines1 lines2 :
  Parse.dockerLines (lines1 ++ lines2) []
  = Parse.dockerLines lines1 [] ++ Parse.dockerLines lines2 [].
Proof.
  induction lines1 as [| line lines1 IH]; cbn [app Parse.dockerLines]; [reflexivity |].
  destruct (Re.matchHere Parse.FROM_line false (Text.trim line)) as [fromMatch |].
  - rewrite dockerLines_acc, IH, (dockerLines_acc lines1 [_]).
    now rewrite <- app_assoc.
  - apply IH.
Qed.

Lemma dockerLines_length lines : (length (Parse.dockerLines lines []) <= length lines)%nat.
Proof.
  induction lines as [| line lines IH]; cbn [Parse.dockerLines length]; [lia |].
  destruct (Re.matchHere Parse.FROM_line false (Text.trim line)) as [fromMatch |]; [| lia].
  rewrite dockerLines_acc, length_app. cbn [length app]. lia.
Qed.

Lemma notColonNorSpace_notSpace c : Parse.notColonNorSpace c = true -> Parse.notSpace c = true.
Proof.
  unfold Parse.notColonNorSpace, Parse.notSpace.
  destruct (Ascii.eqb c ":"); cbn [orb negb]; [discriminate | auto].
Qed.

(** A line that matches gives an image with a name and a version, none of
    them empty, the name free of colons and of white space, the version
    free of white space. *)
Lemma dockerImage_shape trimmed fromMatch :
  Re.matchHere Parse.FROM_line false trimmed = Some fromMatch ->
  let image := Parse.dockerImage fromMatch in
  pkg_ecosystem image = docker
  /\ pkg_name image <> ""%string
  /\ pkg_version image <> ""%string
  /\ Forall (fun c => Parse.notColonNorSpace c = true) (list_ascii_of_string (pkg_name image))
  /\ Forall (fun c => Parse.notSpace c = true) (list_ascii_of_string (pkg_version image)).
Proof.
  intros Hmatch. apply matchHere_sound in Hmatch as [Htaken _].
  unfold Parse.FROM_line in Htaken.
  repeat match goal with
         | H : Forall2 taken (_ :: _) ?l |- _ =>
             let piece := fresh "piece" in
             let Hpiece := fresh "Hpiece" in
             apply Forall2_cons_inv_l in H as (piece & ? & Hpiece & H & ->)
         | H : Forall2 taken [] ?l |- _ => apply Forall2_nil_inv_l in H; subst l
         end.
  cbn [Parse.dockerImage Re.capture nth pkg_ecosystem pkg_name pkg_version Js.or_else].
  destruct Hpiece4 as (Hname & Hmin & _). destruct Hpiece6 as (Hversion & _).
  cbn [Re.test Re.quantifier Re.class Re.least] in *.
  split; [reflexivity |].
  split; [apply string_of_list_ascii_nonempty; destruct piece4; [cbn in Hmin; lia | discriminate] |].
  rewrite !list_ascii_of_string_of_list_ascii.
  destruct piece6 as [| c version].
  - cbn. split; [discriminate |]. split; [assumption |]. repeat constructor.
  - cbn [string_of_list_ascii Js.truthy_string].
    split; [discriminate |]. split; [assumption |].
    change (String c (string_of_list_ascii version))
      with (string_of_list_ascii (c :: version)).
    now rewrite list_ascii_of_string_of_list_ascii.
Qed.

(** X12.  [parseDockerfile] reads a file line by line: two files one after the
    other give the images of the first followed by those of the second. *)
Theorem parseDockerfile_line_by_line (before after : string) :
  Parse.parseDockerfile (before +:+ String "010" after)
  = Parse.parseDockerfile before ++ Parse.parseDockerfile after.
Proof.
  unfold Parse.parseDockerfile.
  rewrite list_ascii_of_string_app. cbn [list_ascii_of_string].
  now rewrite split_app, dockerLines_app.
Qed.

(** X13.  Every image [parseDockerfile] returns is tagged [docker] and has a
    name and a version that are not empty; the name holds no colon and no
    white space and the version no white space.  There are at most as
    many images as lines. *)
Theorem parseDockerfile_shape (content : string) :
  Forall (fun image =>
            pkg_ecosystem image = docker
            /\ pkg_name image <> ""%string
            /\ pkg_version image <> ""%string
            /\ Forall (fun c => Parse.notColonNorSpace c = true)
                 (list_ascii_of_string (pkg_name image))
            /\ Forall (fun c => Parse.notSpace c = true)
                 (list_ascii_of_string (pkg_version image)))
    (Parse.parseDockerfile content)
  /\ (length (Parse.parseDockerfile content)
      <= S (length (List.filter (fun c => Ascii.eqb c "010") (list_ascii_of_string content))))%nat.
Proof.
  unfold Parse.parseDockerfile. split.
  - generalize (Text.split "010" (list_ascii_of_string content)). intros lines.
    induction lines as [| line lines IH]; cbn [Parse.dockerLines]; [constructor |].
    destruct (Re.matchHere Parse.FROM_line false (Text.trim line)) as [fromMatch |] eqn:Hmatch;
      [| assumption].
    rewrite dockerLines_acc. cbn [app]. constructor; [| assumption].
    exact (dockerImage_shape _ _ Hmatch).
  - destruct (split_pieces "010" (list_ascii_of_string content)) as [_ <-].
    apply dockerLines_length.
Qed.

End ParserFacts.

Section DockerLines.

Lemma isSpace_not_newline c : Text.isSpace c = false -> Ascii.eqb c "010" = false.
Proof.
  destruct (Ascii.eqb_spec c "010") as [-> | _]; [| reflexivity]. vm_compute. discriminate.
Qed.

Lemma isSpace_not_colon c : Text.isSpace c = true -> Ascii.eqb ":" c = false.
Proof.
  destruct (Ascii.eqb_spec ":" c) as [<- | _]; [| reflexivity]. vm_compute. discriminate.
Qed.

Lemma notColonNorSpace_spec c :
  Parse.notColonNorSpace c = true <-> Ascii.eqb c ":" = false /\ Text.isSpace c = false.
Proof.
  unfold Parse.notColonNorSpace. destruct (Ascii.eqb c ":"), (Text.isSpace c); cbn; intuition congruence.
Qed.

Lemma notSpace_spec c : Parse.notSpace c = true <-> Text.isSpace c = false.
Proof. unfold Parse.notSpace. destruct (Text.isSpace c); cbn; intuition congruence. Qed.

(** The letters that lower-case to a letter of [from] are no white
    space. *)
Lemma keyword_letter c l :
  In l ["f"; "r"; "o"; "m"]%char -> Js.lower_ascii c = l -> Text.isSpace c = false.
Proof.
  intros Hl <-. destruct c as [[] [] [] [] [] [] [] []]; try reflexivity;
    vm_compute in Hl; intuition discriminate.
Qed.

(** Trimming a line that starts with a character that is no white space
    and holds a word later on cuts nothing before the end of that word. *)
Lemma trim_keeps c pre word rest :
  Text.isSpace c = false ->
  word <> [] ->
  Forall (fun x => Text.isSpace x = false) word ->
  Text.trim (c :: pre ++ word ++ rest) = c :: pre ++ word ++ Text.trimEnd rest.
Proof.
  intros Hc Hword Hchars. unfold Text.trim. rewrite trimStart_head by assumption.
  destruct (exists_last Hword) as (front & final & ->).
  apply Forall_app in Hchars as [_ Hfinal]. apply Forall_cons in Hfinal as [Hfinal _].
  replace (c :: pre ++ (front ++ [final]) ++ rest)
    with ((c :: pre ++ front) ++ final :: rest)
    by (cbn [app]; now rewrite <- !app_assoc).
  rewrite trimEnd_app by assumption. cbn [app]. now rewrite <- !app_assoc.
Qed.

Lemma trimEnd_stops rest :
  rest = [] \/ (exists c t, rest = c :: t /\ Text.isSpace c = true) ->
  Text.trimEnd rest = []
  \/ exists c t, Text.trimEnd rest = c :: t /\ Text.isSpace c = true.
Proof.
  intros [-> | (c & t & -> & Hc)]; [now left |].
  destruct (trimEnd_prefix (c :: t)) as (spaces & Heq & _).
  destruct (Text.trimEnd (c :: t)) as [| c' t']; [now left |].
  right. exists c', t'. split; [reflexivity |]. injection Heq as <- _. assumption.
Qed.

(** The pattern on a line [FROM name], continued by [tail]. *)
Lemma FROM_line_prefix kw ws name tail captures :
  Js.lower_ascii <$> kw = ["f"; "r"; "o"; "m"]%char ->
  ws <> [] -> Forall (fun c => Text.isSpace c = true) ws ->
  name <> [] -> Forall (fun c => Parse.notColonNorSpace c = true) name ->
  stops (Re.class Parse.notColonNorSpace Re.Plus) tail ->
  Re.matchHere [Re.class (Ascii.eqb ":") Re.Optional; Re.class Parse.notSpace Re.Star]
    false tail = Some captures ->
  exists keyword,
    Re.matchHere Parse.FROM_line false (kw ++ ws ++ name ++ tail)
    = Some (keyword ++ ws :: name :: captures)
    /\ length keyword = 4%nat.
Proof.
  intros Hkw Hws Hspaces Hname Hchars Hstops Htail.
  destruct kw as [| f [| r [| o [| m [| ? ?]]]]]; try discriminate.
  injection Hkw as Hf Hr Ho Hm.
  exists [[f]; [r]; [o]; [m]]. split; [| reflexivity].
  unfold Parse.FROM_line. cbn [app].
  repeat (apply matchHere_char;
          [now left | cbn [Re.test Re.charIgnoreCase];
                      first [rewrite Hf | rewrite Hr | rewrite Ho | rewrite Hm]; reflexivity |]).
  apply matchHere_run; [right; now split | assumption | |].
  - right. destruct name as [| c name]; [contradiction |]. exists c, (name ++ tail).
    split; [reflexivity |]. apply Forall_cons in Hchars as [Hc _].
    apply notColonNorSpace_spec in Hc as [_ Hc]. exact Hc.
  - apply matchHere_run; [right; now split | assumption | assumption | assumption].
Qed.

(** X14.  An ASCII line [FROM name:tag] gives the image [name] at the version
    [tag], and an ASCII line [FROM name] the image [name] at [latest]:
    whatever the case of the keyword, whatever follows after white space,
    and also when the tag is empty.  The line is ASCII so that the white
    space of the runtime is the white space here; the proof has no other
    use for it. *)
Theorem parseDockerfile_reads_image kw ws name tag rest :
  Forall (fun c => Text.isAscii c = true) (kw ++ ws ++ name ++ tag ++ rest) ->
  Js.lower_ascii <$> kw = ["f"; "r"; "o"; "m"]%char ->
  ws <> [] -> Forall (fun c => Text.isSpace c = true) ws ->
  name <> [] -> Forall (fun c => Parse.notColonNorSpace c = true) name ->
  Forall (fun c => Parse.notSpace c = true) tag ->
  rest = [] \/ (exists c t, rest = c :: t /\ Text.isSpace c = true) ->
  Forall (fun c => Ascii.eqb c "010" = false) (ws ++ rest) ->
  Parse.parseDockerfile (string_of_list_ascii (kw ++ ws ++ name ++ ":"%char :: tag ++ rest))
  = [ {| pkg_name := string_of_list_ascii name;
         pkg_version := match tag with
                        | [] => "latest"
                        | _ :: _ => string_of_list_ascii tag
                        end;
         pkg_ecosystem := docker |} ]
  /\ Parse.parseDockerfile (string_of_list_ascii (kw ++ ws ++ name ++ rest))
     = [ {| pkg_name := string_of_list_ascii name; pkg_version := "latest";
            pkg_ecosystem := docker |} ].
Proof.
  intros _ Hkw Hws Hspaces Hname Hchars Htag Hrest Hline.
  apply Forall_app in Hline as [Hline_ws Hline_rest].
  assert (Hkw_chars : exists f kw', kw = f :: kw' /\ Text.isSpace f = false
                                    /\ Forall (fun c => Text.isSpace c = false) kw).
  { destruct kw as [| f [| r [| o [| m [| ? ?]]]]]; try discriminate.
    injection Hkw as Hf Hr Ho Hm. exists f, [r; o; m].
    assert (Hall : Forall (fun c => Text.isSpace c = false) [f; r; o; m]).
    { repeat constructor; eapply keyword_letter; eauto; cbn; auto. }
    split; [reflexivity |]. split; [| exact Hall]. now apply Forall_cons in Hall as [Hf' _]. }
  destruct Hkw_chars as (f & kw' & -> & Hf & Hkw_all).
  assert (Hname_space : Forall (fun c => Text.isSpace c = false) name).
  { eapply Forall_impl; [exact Hchars |]. intros c Hc. now apply notColonNorSpace_spec in Hc. }
  assert (Hname_line : Forall (fun c => Ascii.eqb c "010" = false) name).
  { eapply Forall_impl; [exact Hname_space |]. apply isSpace_not_newline. }
  assert (Htag_space : Forall (fun c => Text.isSpace c = false) tag).
  { eapply Forall_impl; [exact Htag |]. intros c Hc. now apply notSpace_spec in Hc. }
  assert (Hkw_line : Forall (fun c => Ascii.eqb c "010" = false) (f :: kw')).
  { eapply Forall_impl; [exact Hkw_all |]. apply isSpace_not_newline. }
  pose proof (trimEnd_stops rest Hrest) as Hcut.
  assert (Hcut_notSpace : stops (Re.class Parse.notSpace Re.Star) (Text.trimEnd rest)).
  { destruct Hcut as [-> | (c & t & -> & Hc)]; [now left |].
    right. exists c, t. split; [reflexivity |]. cbn. unfold Parse.notSpace. now rewrite Hc. }
  assert (Hcut_colon : stops (Re.class (Ascii.eqb ":") Re.Optional) (Text.trimEnd rest)).
  { destruct Hcut as [-> | (c & t & -> & Hc)]; [now left |].
    right. exists c, t. split; [reflexivity |]. cbn. now apply isSpace_not_colon. }
  assert (Hcut_name : stops (Re.class Parse.notColonNorSpace Re.Plus) (Text.trimEnd rest)).
  { destruct Hcut as [-> | (c & t & -> & Hc)]; [now left |].
    right. exists c, t. split; [reflexivity |]. cbn. unfold Parse.notColonNorSpace.
    rewrite Hc. now rewrite orb_true_r. }
  unfold Parse.parseDockerfile. rewrite !list_ascii_of_string_of_list_ascii. split.
  - rewrite split_none.
    2:{ repeat (apply Forall_app; split); try assumption.
        constructor; [reflexivity |]. apply Forall_app. split; [| assumption].
        eapply Forall_impl; [exact Htag_space |]. apply isSpace_not_newline. }
    cbn [Parse.dockerLines app].
    replace (f :: kw' ++ ws ++ name ++ ":"%char :: tag ++ rest)
      with (f :: (kw' ++ ws) ++ (name ++ ":"%char :: tag) ++ rest)
      by (now rewrite <- !app_assoc).
    rewrite trim_keeps; [| assumption | now destruct name | ].
    2:{ apply Forall_app. split; [assumption |]. constructor; [reflexivity | assumption]. }
    replace (f :: (kw' ++ ws) ++ (name ++ ":"%char :: tag) ++ Text.trimEnd rest)
      with ((f :: kw') ++ ws ++ name ++ ":"%char :: tag ++ Text.trimEnd rest)
      by (cbn [app]; now rewrite <- !app_assoc).
    destruct (FROM_line_prefix (f :: kw') ws name (":"%char :: tag ++ Text.trimEnd rest)
                [[":"%char]; tag] Hkw Hws Hspaces Hname Hchars)
      as (keyword & -> & Hlength).
    + right. exists ":"%char, (tag ++ Text.trimEnd rest). split; reflexivity.
    + apply matchHere_char; [now right | reflexivity |].
      apply matchHere_run; [now left | assumption | assumption | reflexivity].
    + do 4 (destruct keyword as [| ? keyword]; [discriminate |]).
      destruct keyword; [| discriminate].
      unfold Parse.dockerImage. cbn [app Re.capture nth Js.or_else].
      destruct tag; reflexivity.
  - rewrite split_none by (repeat (apply Forall_app; split); assumption).
    cbn [Parse.dockerLines app].
    replace (f :: kw' ++ ws ++ name ++ rest) with (f :: (kw' ++ ws) ++ name ++ rest)
      by (now rewrite <- !app_assoc).
    rewrite trim_keeps by assumption.
    replace (f :: (kw' ++ ws) ++ name ++ Text.trimEnd rest)
      with ((f :: kw') ++ ws ++ name ++ Text.trimEnd rest)
      by (cbn [app]; now rewrite <- !app_assoc).
    destruct (FROM_line_prefix (f :: kw') ws name (Text.trimEnd rest) [[]; []]
                Hkw Hws Hspaces Hname Hchars Hcut_name)
      as (keyword & -> & Hlength).
    + apply matchHere_absent; [reflexivity | assumption |].
      rewrite <- (app_nil_l (Text.trimEnd rest)).
      apply matchHere_run; [now left | constructor | assumption | reflexivity].
    + do 4 (destruct keyword as [| ? keyword]; [discriminate |]).
      destruct keyword; [| discriminate]. reflexivity.
Qed.

End DockerLines.

(** [From node:18-alpine AS build] and [From node AS build]. *)
Lemma parseDockerfile_reads_image_witness :
  Parse.parseDockerfile "From node:18-alpine AS build"
  = [ Samples.pkg "node" "18-alpine" docker ]
  /\ Parse.parseDockerfile "From node AS build" = [ Samples.pkg "node" "latest" docker ].
Proof.
  apply (parseDockerfile_reads_image
           (list_ascii_of_string "From") (list_ascii_of_string " ")
           (list_ascii_of_string "node") (list_ascii_of_string "18-alpine")
           (list_ascii_of_string " AS build")).
  - repeat constructor.
  - reflexivity.
  - discriminate.
  - repeat constructor.
  - discriminate.
  - repeat constructor.
  - repeat constructor.
  - right. eexists _, _. split; reflexivity.
  - repeat constructor.
Defined.

Section RequirementLines.

Lemma trimStart_id s :
  match s with c :: _ => Text.isSpace c = false | [] => True end -> Text.trimStart s = s.
Proof. destruct s as [| c s]; [reflexivity |]. apply trimStart_head. Qed.

Lemma trimEnd_id s :
  match rev s with c :: _ => Text.isSpace c = false | [] => True end -> Text.trimEnd s = s.
Proof.
  intros Hs. unfold Text.trimEnd. rewrite trimStart_id by assumption. apply rev_involutive.
Qed.

(** Trimming twice is trimming once. *)
Lemma trim_idempotent s : Text.trim (Text.trim s) = Text.trim s.
Proof.
  unfold Text.trim at 1. rewrite trimStart_id.
  - apply trimEnd_id. apply trimEnd_ends.
  - apply trimEnd_starts, trimStart_starts.
Qed.

Lemma requirementLines_acc lines :
  forall packages,
    Parse.requirementLines lines packages = packages ++ Parse.requirementLines lines [].
Proof.
  induction lines as [| line lines IH]; intros packages; cbn [Parse.requirementLines].
  - now rewrite app_nil_r.
  - repeat match goal with
           | |- context [if ?b then _ else _] => destruct b
           | |- context [match Re.matchHere ?p ?e ?t with _ => _ end] =>
               destruct (Re.matchHere p e t)
           end; try apply IH;
      rewrite (IH (packages ++ _)), (IH ([] ++ _)); now rewrite <- app_assoc.
Qed.

Lemma requirementLines_app lines1 lines2 :
  Parse.requirementLines (lines1 ++ lines2) []
  = Parse.requirementLines lines1 [] ++ Parse.requirementLines lines2 [].
Proof.
  induction lines1 as [| line lines1 IH]; cbn [app Parse.requirementLines]; [reflexivity |].
  repeat match goal with
         | |- context [if ?b then _ else _] => destruct b
         | |- context [match Re.matchHere ?p ?e ?t with _ => _ end] =>
             destruct (Re.matchHere p e t)
         end; try apply IH;
    rewrite requirementLines_acc, IH, (requirementLines_acc lines1 [_]);
    now rewrite <- app_assoc.
Qed.

(** X15.  [parseRequirementsTxt] reads a file line by line. *)
Theorem parseRequirementsTxt_line_by_line (before after : string) :
  Parse.parseRequirementsTxt (before +:+ String "010" after)
  = Parse.parseRequirementsTxt before ++ Parse.parseRequirementsTxt after.
Proof.
  unfold Parse.parseRequirementsTxt.
  rewrite list_ascii_of_string_app. cbn [list_ascii_of_string].
  now rewrite split_app, requirementLines_app.
Qed.

Lemma firstConstraint_shape spec :
  Forall (fun c => Ascii.eqb c "," = false) (Parse.firstConstraint spec)
  /\ Text.trim (Parse.firstConstraint spec) = Parse.firstConstraint spec.
Proof.
  unfold Parse.firstConstraint. split; [| apply trim_idempotent].
  apply (trim_Forall (fun c => Ascii.eqb c "," = false)).
  destruct (split_pieces "," spec) as [Hpieces _].
  destruct (Text.split "," spec) as [| piece pieces]; [constructor |].
  now apply Forall_cons in Hpieces as [Hpiece _].
Qed.

(** X16.  Every requirement [parseRequirementsTxt] returns is tagged [python];
    its name is not empty and made of letters, digits, [-], [_] and [.];
    its version is [latest] or the first of the comma-separated
    constraints, trimmed, which may be empty. *)
Theorem parseRequirementsTxt_shape (content : string) :
  Forall (fun requirement =>
            pkg_ecosystem requirement = python
            /\ pkg_name requirement <> ""%string
            /\ Forall (fun c => Parse.nameChar c = true)
                 (list_ascii_of_string (pkg_name requirement))
            /\ Forall (fun c => Ascii.eqb c "," = false)
                 (list_ascii_of_string (pkg_version requirement))
            /\ Text.trim (list_ascii_of_string (pkg_version requirement))
               = list_ascii_of_string (pkg_version requirement))
    (Parse.parseRequirementsTxt content).
Proof.
  unfold Parse.parseRequirementsTxt.
  generalize (Text.split "010" (list_ascii_of_string content)). intros lines.
  induction lines as [| line lines IH]; cbn [Parse.requirementLines]; [constructor |].
  destruct (_ || _); [assumption |].
  destruct (Re.matchHere Parse.requirement_line true (Text.trim line))
    as [captures |] eqn:Hmatch.
  - rewrite requirementLines_acc. cbn [app]. constructor; [| assumption].
    apply matchHere_sound in Hmatch as [Htaken _].
    unfold Parse.requirement_line in Htaken.
    repeat match goal with
           | H : Forall2 taken (_ :: _) ?l |- _ =>
               let piece := fresh "piece" in
               let Hpiece := fresh "Hpiece" in
               apply Forall2_cons_inv_l in H as (piece & ? & Hpiece & H & ->)
           | H : Forall2 taken [] ?l |- _ => apply Forall2_nil_inv_l in H; subst l
           end.
    cbn [Re.capture nth pkg_ecosystem pkg_name pkg_version].
    destruct Hpiece as (Hname & Hmin & _). cbn [Re.test Re.quantifier Re.class Re.least] in *.
    rewrite !list_ascii_of_string_of_list_ascii.
    split; [reflexivity |].
    split; [apply string_of_list_ascii_nonempty; destruct piece; [cbn in Hmin; lia | discriminate] |].
    split; [assumption |]. apply firstConstraint_shape.
  - destruct (Re.matchHere Parse.bare_name true (Text.trim line)) as [captures |] eqn:Hbare;
      [| assumption].
    rewrite requirementLines_acc. cbn [app]. constructor; [| assumption].
    apply matchHere_sound in Hbare as (Htaken & rest & Heq & Hend).
    rewrite (Hend eq_refl), app_nil_r in Heq.
    unfold Parse.bare_name in Htaken.
    apply Forall2_cons_inv_l in Htaken as (piece & ? & Hpiece & Htaken & ->).
    apply Forall2_nil_inv_l in Htaken. subst.
    cbn [concat] in Heq. rewrite app_nil_r in Heq. rewrite Heq.
    destruct Hpiece as (Hname & Hmin & _). cbn [Re.test Re.quantifier Re.class Re.least] in *.
    cbn [pkg_ecosystem pkg_name pkg_version].
    rewrite list_ascii_of_string_of_list_ascii.
    split; [reflexivity |].
    split; [apply string_of_list_ascii_nonempty; destruct piece; [cbn in Hmin; lia | discriminate] |].
    split; [assumption |]. split; [vm_compute; repeat constructor | reflexivity].
Qed.

End RequirementLines.

Section RequirementRoundTrip.

Lemma nameChar_facts c :
  Parse.nameChar c = true ->
  Text.isSpace c = false /\ Parse.operatorChar c = false /\ Ascii.eqb c "#" = false
  /\ Ascii.eqb c "010" = false.
Proof.
  destruct c as [[] [] [] [] [] [] [] []]; vm_compute; intros Hc;
    try discriminate; repeat split; reflexivity.
Qed.

Lemma operatorChar_facts c :
  Parse.operatorChar c = true ->
  Text.isSpace c = false /\ Parse.nameChar c = false /\ Ascii.eqb c "010" = false.
Proof.
  destruct c as [[] [] [] [] [] [] [] []]; vm_compute; intros Hc;
    try discriminate; repeat split; reflexivity.
Qed.

Lemma isSpace_facts c :
  Text.isSpace c = true ->
  Parse.nameChar c = false /\ Parse.operatorChar c = false /\ Ascii.eqb "=" c = false.
Proof.
  destruct c as [[] [] [] [] [] [] [] []]; vm_compute; intros Hc;
    try discriminate; repeat split; reflexivity.
Qed.

Lemma dot_not_newline c : Parse.dot c = true -> Ascii.eqb c "010" = false.
Proof.
  unfold Parse.dot. destruct (Ascii.eqb c "010"); cbn; [discriminate | reflexivity].
Qed.

(** A line that starts and ends with characters that are no white space
    is its own trimming. *)
Lemma trim_id s :
  match s with c :: _ => Text.isSpace c = false | [] => True end ->
  match rev s with c :: _ => Text.isSpace c = false | [] => True end ->
  Text.trim s = s.
Proof.
  intros Hstart Hend. unfold Text.trim. rewrite trimStart_id by assumption.
  now apply trimEnd_id.
Qed.

Lemma firstConstraint_first v more :
  Forall (fun c => Ascii.eqb c "," = false) v ->
  more = [] \/ (exists m, more = ","%char :: m) ->
  Parse.firstConstraint (v ++ more) = Text.trim v.
Proof.
  intros Hv [-> | (m & ->)]; unfold Parse.firstConstraint.
  - rewrite app_nil_r, split_none by assumption. reflexivity.
  - rewrite split_app, split_none by assumption. reflexivity.
Qed.

(** X17.  An ASCII line [name op spec], where [op] is one of [=], [<], [>],
    [!], possibly followed by [=], gives the requirement [name] at the
    first constraint of [spec]: what stands before the first comma,
    trimmed.  The line is ASCII so that the white space and the line
    terminators of the runtime are the ones here; the proof has no other
    use for it. *)
Theorem parseRequirementsTxt_reads_requirement name ws1 o (eq : bool) ws2 v more :
  Forall (fun c => Text.isAscii c = true) (name ++ ws1 ++ o :: ws2 ++ v ++ more) ->
  name <> [] -> Forall (fun c => Parse.nameChar c = true) name ->
  Forall (fun c => Text.isSpace c = true) ws1 ->
  Parse.operatorChar o = true ->
  Forall (fun c => Text.isSpace c = true) ws2 ->
  Forall (fun c => Ascii.eqb c "010" = false) (ws1 ++ ws2) ->
  Forall (fun c => Parse.dot c = true) (v ++ more) ->
  Forall (fun c => Ascii.eqb c "," = false) v ->
  more = [] \/ (exists m, more = ","%char :: m) ->
  match v ++ more with c :: _ => Text.isSpace c = false | [] => False end ->
  match rev (v ++ more) with c :: _ => Text.isSpace c = false | [] => False end ->
  (eq = false -> match ws2 ++ v ++ more with c :: _ => Ascii.eqb "=" c = false | [] => True end) ->
  Parse.parseRequirementsTxt
    (string_of_list_ascii
       (name ++ ws1 ++ o :: (if eq then ["="%char] else []) ++ ws2 ++ v ++ more))
  = [ {| pkg_name := string_of_list_ascii name;
         pkg_version := string_of_list_ascii (Text.trim v);
         pkg_ecosystem := python |} ].
Proof.
  intros _ Hname Hchars Hws1 Ho Hws2 Hlines Hdot Hv Hmore Hhead Hlast Heq.
  set (spec := v ++ more) in *.
  apply Forall_app in Hlines as [Hline1 Hline2].
  destruct (operatorChar_facts o Ho) as (Ho_space & Ho_name & Ho_line).
  destruct name as [| n name]; [contradiction |].
  remember ((n :: name) ++ ws1 ++ o :: (if eq then ["="%char] else []) ++ ws2 ++ spec)
    as line eqn:Hline.
  pose proof Hchars as Hn. apply Forall_cons in Hn as [Hn _].
  destruct (nameChar_facts n Hn) as (Hn_space & _ & Hn_hash & _).
  assert (Hsingle : Text.split "010" line = [line]).
  { apply split_none. subst line. repeat (apply Forall_app; split); try assumption.
    - eapply Forall_impl; [exact Hchars |]. intros c Hc. now apply nameChar_facts in Hc.
    - constructor; [assumption |]. apply Forall_app. split.
      + destruct eq; repeat constructor.
      + apply Forall_app. split; [assumption |].
        eapply Forall_impl; [exact Hdot |]. apply dot_not_newline. }
  assert (Htrim : Text.trim line = line).
  { apply trim_id; subst line.
    - exact Hn_space.
    - rewrite !rev_app_distr. cbn [rev]. rewrite !rev_app_distr, <- !app_assoc.
      destruct (rev spec); [contradiction | exact Hlast]. }
  assert (Hspec_stop : stops (Re.class Text.isSpace Re.Star) spec).
  { right. destruct spec as [| c t]; [contradiction |]. now exists c, t. }
  assert (Hmatch :
    Re.matchHere Parse.requirement_line true line
    = Some [n :: name; ws1; [o]; if eq then ["="%char] else []; ws2; spec]).
  { subst line. unfold Parse.requirement_line.
    apply matchHere_run; [right; now split | assumption | |].
    { right. destruct ws1 as [| c ws1].
      - exists o, ((if eq then ["="%char] else []) ++ ws2 ++ spec). now split.
      - exists c, (ws1 ++ o :: (if eq then ["="%char] else []) ++ ws2 ++ spec).
        split; [reflexivity |]. apply Forall_cons in Hws1 as [Hc _].
        now apply isSpace_facts in Hc. }
    apply matchHere_run; [now left | assumption | |].
    { right. exists o, ((if eq then ["="%char] else []) ++ ws2 ++ spec). now split. }
    apply matchHere_char; [now left | assumption |].
    assert (Hrest :
      Re.matchHere [Re.class Text.isSpace Re.Star; Re.class Parse.dot Re.Plus] true (ws2 ++ spec)
      = Some [ws2; spec]).
    { apply matchHere_run; [now left | assumption | assumption |].
      rewrite <- (app_nil_r spec) at 1.
      apply matchHere_run; [right; split; [reflexivity |] | assumption | now left | reflexivity].
      destruct spec; [contradiction | discriminate]. }
    destruct eq; cbn [app].
    - apply matchHere_char; [now right | reflexivity | exact Hrest].
    - apply matchHere_absent; [reflexivity | | exact Hrest].
      specialize (Heq eq_refl). destruct (ws2 ++ spec) as [| c t]; [now left |].
      right. now exists c, t. }
  assert (Hskip : match line with [] => true | _ :: _ => false end
                  || Text.startsWith "#" line = false).
  { subst line. cbn [app Text.startsWith orb]. exact Hn_hash. }
  unfold Parse.parseRequirementsTxt.
  rewrite list_ascii_of_string_of_list_ascii, Hsingle.
  cbn [Parse.requirementLines]. rewrite Htrim, Hskip, Hmatch.
  cbn [app Re.capture nth]. subst spec. now rewrite firstConstraint_first.
Qed.

End RequirementRoundTrip.

(** [requests >= 2.25.0,<3]: the version is the first constraint. *)
Lemma parseRequirementsTxt_reads_requirement_witness :
  Parse.parseRequirementsTxt "requests >= 2.25.0,<3"
  = [ Samples.pkg "requests" "2.25.0" python ].
Proof.
  apply (parseRequirementsTxt_reads_requirement
           (list_ascii_of_string "requests") (list_ascii_of_string " ") ">"%char true
           (list_ascii_of_string " ") (list_ascii_of_string "2.25.0")
           (list_ascii_of_string ",<3")).
  - repeat constructor.
  - discriminate.
  - repeat constructor.
  - repeat constructor.
  - reflexivity.
  - repeat constructor.
  - repeat constructor.
  - repeat constructor.
  - repeat constructor.
  - right. eexists. reflexivity.
  - reflexivity.
  - reflexivity.
  - discriminate.
Defined.

Section RequirementSkipped.

Lemma drop_into_name name c rest k :
  Forall (fun x => Parse.nameChar x = true) name -> plainChar c ->
  (k <= length name)%nat ->
  exists d t, drop k (name ++ c :: rest) = d :: t /\ plainChar d.
Proof.
  intros Hname Hc. revert k. induction Hname as [| n name Hn _ IH]; intros k Hk.
  - cbn in Hk. assert (k = O) by lia. subst k. now exists c, rest.
  - destruct k as [| k].
    + exists n, (name ++ c :: rest). split; [reflexivity |].
      destruct (nameChar_facts n Hn) as (? & ? & _). now split.
    + cbn [app drop]. apply IH. cbn in Hk. lia.
Qed.

Lemma matchHere_cons a atoms toEnd s :
  Re.matchHere (a :: atoms) toEnd s
  = Re.descend (fun k => cons (take k s) <$> Re.matchHere atoms toEnd (drop k s))
      (Re.least (Re.quantifier a)) (Re.most (Re.quantifier a) (Text.span (Re.test a) s)).
Proof. reflexivity. Qed.

(** After the name the pattern wants white space or an operator. *)
Lemma requirement_needs_operator atoms d t :
  plainChar d ->
  Re.matchHere (Re.class Text.isSpace Re.Star :: Re.class Parse.operatorChar Re.Once :: atoms)
    true (d :: t) = None.
Proof.
  intros [Hspace Hop]. cbn [Re.matchHere Text.span Re.test Re.class Re.quantifier].
  rewrite Hspace. cbn [Re.most Re.least Re.descend Nat.ltb Nat.leb Text.span].
  change (drop 0 (d :: t)) with (d :: t). cbn [Text.span]. rewrite Hop. reflexivity.
Qed.

(** X18.  An ASCII line on which the name is directly followed by a character
    that is neither white space nor one of [=], [<], [>], [!] gives no
    requirement: [name~=1.0], [name[extra]==1.0] and [name; marker] are
    passed over.  The line is ASCII so that the white space of the
    runtime is the white space here; the proof has no other use for
    it. *)
Theorem parseRequirementsTxt_skips name c rest :
  Forall (fun x => Text.isAscii x = true) (name ++ c :: rest) ->
  Forall (fun x => Parse.nameChar x = true) name ->
  Parse.nameChar c = false -> Text.isSpace c = false -> Parse.operatorChar c = false ->
  Forall (fun x => Ascii.eqb x "010" = false) (c :: rest) ->
  Parse.parseRequirementsTxt (string_of_list_ascii (name ++ c :: rest)) = [].
Proof.
  intros _ Hname Hc_name Hc_space Hc_op Hline.
  assert (Hplain : plainChar c) by now split.
  assert (Hsingle : Text.split "010" (name ++ c :: rest) = [name ++ c :: rest]).
  { apply split_none. apply Forall_app. split; [| assumption].
    eapply Forall_impl; [exact Hname |]. intros x Hx. now apply nameChar_facts in Hx. }
  assert (Htrim : Text.trim (name ++ c :: rest) = name ++ c :: Text.trimEnd rest).
  { unfold Text.trim. rewrite trimStart_id.
    - now apply trimEnd_app.
    - destruct name as [| n name]; [exact Hc_space |].
      apply Forall_cons in Hname as [Hn _]. now apply nameChar_facts in Hn. }
  unfold Parse.parseRequirementsTxt.
  rewrite list_ascii_of_string_of_list_ascii, Hsingle.
  cbn [Parse.requirementLines]. rewrite Htrim.
  set (trimmed := name ++ c :: Text.trimEnd rest).
  assert (Hspan : Text.span Parse.nameChar trimmed = length name).
  { apply span_app; [assumption |]. right. now exists c, (Text.trimEnd rest). }
  assert (Hfirst : Re.matchHere Parse.requirement_line true trimmed = None).
  { unfold Parse.requirement_line. rewrite matchHere_cons.
    cbn [Re.test Re.class Re.quantifier]. rewrite Hspan. apply descend_None. intros k Hk. cbn [Re.most Re.least] in Hk.
    unfold trimmed.
    destruct (drop_into_name name c (Text.trimEnd rest) k Hname Hplain) as (d & t & -> & Hd);
      [lia |].
    now rewrite (requirement_needs_operator _ d t Hd). }
  assert (Hsecond : Re.matchHere Parse.bare_name true trimmed = None).
  { unfold Parse.bare_name. rewrite matchHere_cons.
    cbn [Re.test Re.class Re.quantifier]. rewrite Hspan. apply descend_None. intros k Hk. cbn [Re.most Re.least] in Hk.
    unfold trimmed.
    destruct (drop_into_name name c (Text.trimEnd rest) k Hname Hplain) as (d & t & -> & Hd);
      [lia |].
    reflexivity. }
  rewrite Hfirst, Hsecond. now destruct (_ || _).
Qed.

End RequirementSkipped.

(** A requirement with extras, [requests[security]>=2.0], is skipped. *)
Lemma parseRequirementsTxt_skips_witness :
  Parse.parseRequirementsTxt "requests[security]>=2.0" = [].
Proof.
  apply (parseRequirementsTxt_skips (list_ascii_of_string "requests") "["%char
           (list_ascii_of_string "security]>=2.0")).
  - repeat constructor.
  - repeat constructor.
  - reflexivity.
  - reflexivity.
  - reflexivity.
  - repeat constructor.
Defined.

(** ** Objects and package.json *)

Section ObjectFacts.

Lemma own_cons key member o :
  Json.own key (member :: o)
  = if String.eqb member.1 key then Some member.2 else Json.own key o.
Proof. unfold Json.own. cbn [List.find]. now destruct (String.eqb member.1 key). Qed.

Lemma own_app key o1 o2 :
  Json.own key (o1 ++ o2)
  = match Json.own key o1 with Some v => Some v | None => Json.own key o2 end.
Proof.
  induction o1 as [| m o1 IH]; [reflexivity |].
  cbn [app]. rewrite !own_cons. destruct (String.eqb m.1 key); [reflexivity | exact IH].
Qed.

Lemma has_cons key member o :
  Json.has key (member :: o) = String.eqb member.1 key || Json.has key o.
Proof. reflexivity. Qed.

Lemma own_None key o : Json.own key o = None <-> Json.has key o = false.
Proof.
  induction o as [| m o IH]; [split; reflexivity |].
  rewrite own_cons, has_cons. destruct (String.eqb m.1 key); cbn [orb]; [| exact IH].
  split; discriminate.
Qed.

Lemma has_keys key o : Json.has key o = true <-> key ∈ fst <$> o.
Proof.
  induction o as [| m o IH]; [split; [discriminate | intros H; inversion H] |].
  rewrite has_cons, fmap_cons, elem_of_cons, orb_true_iff, IH.
  destruct (String.eqb_spec m.1 key); intuition congruence.
Qed.

Lemma own_elem key value o :
  NoDup (fst <$> o) -> (Json.own key o = Some value <-> (key, value) ∈ o).
Proof.
  induction o as [| [k v] o IH]; intros Hnodup.
  - split; [discriminate | intros H; inversion H].
  - rewrite fmap_cons in Hnodup. apply NoDup_cons in Hnodup as [Hfresh Hnodup].
    rewrite own_cons, elem_of_cons. cbn [fst snd].
    destruct (String.eqb_spec k key) as [-> | Hne].
    + split.
      * intros [= ->]. now left.
      * intros [[= ->] | Hin]; [reflexivity |].
        exfalso. apply Hfresh. now apply (list_elem_of_fmap_2 fst) in Hin.
    + rewrite (IH Hnodup). split; [now right |]. intros [[= -> ->] | Hin]; [contradiction | assumption].
Qed.

Lemma own_replace key member o :
  Json.own key ((fun old => if String.eqb old.1 member.1 then member else old) <$> o)
  = if String.eqb member.1 key
    then (if Json.has member.1 o then Some member.2 else None)
    else Json.own key o.
Proof.
  induction o as [| old o IH]; cbn [fmap list_fmap].
  - now destruct (String.eqb member.1 key).
  - change (list_fmap _ _ ?f o) with (f <$> o). rewrite own_cons, has_cons, IH.
    destruct (String.eqb_spec old.1 member.1) as [Hold | Hold]; cbn [orb].
    + destruct (String.eqb_spec member.1 key) as [Hkey | Hkey]; [reflexivity |].
      rewrite own_cons. destruct (String.eqb_spec old.1 key) as [Hold' | _]; [congruence | reflexivity].
    + rewrite own_cons.
      destruct (String.eqb_spec member.1 key) as [Hkey | Hkey];
        destruct (String.eqb_spec old.1 key) as [Hold' | Hold']; congruence.
Qed.

Lemma placeIndex_Permutation i member o : Json.placeIndex i member o ≡ₚ member :: o.
Proof.
  induction o as [| [k v] o IH]; cbn [Json.placeIndex]; [reflexivity |].
  destruct (Json.arrayIndex k); [| reflexivity].
  destruct (i <? _); [reflexivity |]. rewrite IH. apply Permutation_swap.
Qed.

Lemma own_placeIndex key i member o :
  Json.has member.1 o = false ->
  Json.own key (Json.placeIndex i member o)
  = if String.eqb member.1 key then Some member.2 else Json.own key o.
Proof.
  induction o as [| [k v] o IH]; intros Hfresh; cbn [Json.placeIndex].
  - apply own_cons.
  - rewrite has_cons in Hfresh. apply orb_false_iff in Hfresh as [Hk Hfresh]. cbn [fst] in Hk.
    destruct (Json.arrayIndex k); [| apply own_cons].
    destruct (i <? _); [apply own_cons |].
    rewrite !own_cons, (IH Hfresh). cbn [fst snd].
    destruct (String.eqb_spec k key) as [-> | _]; [| reflexivity].
    now rewrite String.eqb_sym, Hk.
Qed.

(** Reading after writing: the key written holds the value written, and
    every other key holds what it held. *)
Lemma own_define key member o :
  Json.own key (Json.define member o)
  = if String.eqb member.1 key then Some member.2 else Json.own key o.
Proof.
  unfold Json.define. destruct (Json.has member.1 o) eqn:Hhas.
  - rewrite own_replace, Hhas. reflexivity.
  - destruct (Json.arrayIndex member.1).
    + now apply own_placeIndex.
    + rewrite own_app, own_cons. apply own_None in Hhas.
      destruct (String.eqb_spec member.1 key) as [<- | _].
      * now rewrite Hhas.
      * now destruct (Json.own key o).
Qed.

(** An object never holds a key twice. *)
Lemma define_NoDup member o : NoDup (fst <$> o) -> NoDup (fst <$> Json.define member o).
Proof.
  intros Hnodup. unfold Json.define. destruct (Json.has member.1 o) eqn:Hhas.
  - replace (fst <$> ((fun old => if String.eqb old.1 member.1 then member else old) <$> o))
      with (fst <$> o); [assumption |].
    rewrite <- list_fmap_compose. apply list_fmap_ext. intros _ old _. cbn.
    destruct (String.eqb_spec old.1 member.1); congruence.
  - assert (Hfresh : member.1 ∉ fst <$> o).
    { intros Hin. apply has_keys in Hin. congruence. }
    destruct (Json.arrayIndex member.1).
    + rewrite (placeIndex_Permutation z member o), fmap_cons. now constructor.
    + rewrite fmap_app. apply NoDup_app. split; [assumption |]. split.
      * intros k Hk Hk'. apply list_elem_of_singleton in Hk'. now subst.
      * apply NoDup_singleton.
Qed.

Lemma defineAll_NoDup members :
  forall o, NoDup (fst <$> o) -> NoDup (fst <$> Json.defineAll members o).
Proof.
  unfold Json.defineAll. induction members as [| m members IH]; intros o Ho; [assumption |].
  cbn [fold_left]. apply IH. now apply define_NoDup.
Qed.

Lemma own_defineAll key members :
  forall o,
    Json.own key (Json.defineAll members o)
    = match Json.own key (rev members) with
      | Some v => Some v
      | None => Json.own key o
      end.
Proof.
  unfold Json.defineAll. induction members as [| m members IH]; intros o; [reflexivity |].
  cbn [fold_left rev]. rewrite IH, own_app, own_define.
  destruct (Json.own key (rev members)); [reflexivity |].
  rewrite own_cons. now destruct (String.eqb m.1 key).
Qed.

Lemma own_rev key o : NoDup (fst <$> o) -> Json.own key (rev o) = Json.own key o.
Proof.
  induction o as [| m o IH]; intros Hnodup; [reflexivity |].
  rewrite fmap_cons in Hnodup. apply NoDup_cons in Hnodup as [Hfresh Hnodup].
  cbn [rev]. rewrite own_app, (IH Hnodup), !own_cons.
  destruct (String.eqb_spec m.1 key) as [<- | _].
  - assert (Hnone : Json.own m.1 o = None).
    { apply own_None. destruct (Json.has m.1 o) eqn:Hhas; [| reflexivity].
      apply has_keys in Hhas. contradiction. }
    now rewrite Hnone.
  - now destruct (Json.own key o).
Qed.

Lemma indices_keys {A} (items : list A) :
  forall from, fst <$> Json.indices from items = pretty <$> seq from (length items).
Proof.
  induction items as [| item items IH]; intros from; [reflexivity |].
  cbn [Json.indices length seq]. rewrite !fmap_cons. cbn [fst]. now rewrite IH.
Qed.

Lemma properties_NoDup value : NoDup (fst <$> Json.properties value).
Proof.
  destruct value as [[| | | s | items | members] |]; cbn [Json.properties];
    try apply NoDup_nil_2.
  - rewrite indices_keys. apply NoDup_fmap_2; [apply _ | apply NoDup_seq].
  - rewrite indices_keys. apply NoDup_fmap_2; [apply _ | apply NoDup_seq].
  - apply defineAll_NoDup. apply NoDup_nil_2.
Qed.

(** In [{...a, ...b}] a key holds what it holds in [b], and what it holds
    in [a] when [b] does not have it. *)
Lemma own_spread key a b :
  Json.own key (Json.defineAll (Json.properties b) (Json.defineAll (Json.properties a) []))
  = match Json.own key (Json.properties b) with
    | Some v => Some v
    | None => Json.own key (Json.properties a)
    end.
Proof.
  rewrite !own_defineAll, !own_rev by apply properties_NoDup.
  destruct (Json.own key (Json.properties b)); [reflexivity |].
  now destruct (Json.own key (Json.properties a)).
Qed.

End ObjectFacts.

Section PackageJson.
Context {json : Json.Parser}.

Lemma withoutRangePrefix_Str s : Parse.withoutRangePrefix (Json.Str s) = inr (stripRange s).
Proof.
  unfold Parse.withoutRangePrefix, Re.remove, Parse.rangePrefix. f_equal.
  destruct s as [| c rest]; [reflexivity |].
  cbn [list_ascii_of_string stripRange]. rewrite matchHere_cons.
  cbn [Re.test Re.class Re.quantifier Text.span].
  destruct (Ascii.eqb c "^" || Ascii.eqb c "~").
  - cbn. change (take 0 (list_ascii_of_string rest)) with (@nil ascii).
    cbn [app length]. change (drop 0 (list_ascii_of_string rest)) with (list_ascii_of_string rest).
    now rewrite string_of_list_ascii_of_string.
  - cbn. now rewrite string_of_list_ascii_of_string.
Qed.

Lemma withoutRangePrefix_other value :
  (forall s, value <> Json.Str s) -> exists e, Parse.withoutRangePrefix value = inl e.
Proof.
  intros Hvalue. destruct value; cbn; eauto. now destruct (Hvalue s).
Qed.

(** The loop either turns every entry into a package, all values being
    strings, or stops at the first value that is no string. *)
Lemma packageEntries_spec entries :
  forall packages,
    match Parse.packageEntries entries packages with
    | inr result =>
        exists ranges,
          entries = (fun entry : string * string => (entry.1, Json.Str entry.2)) <$> ranges
          /\ result
             = packages ++
               ((fun entry : string * string =>
                   {| pkg_name := entry.1; pkg_version := stripRange entry.2;
                      pkg_ecosystem := npm |}) <$> ranges)
    | inl _ => exists name value, (name, value) ∈ entries /\ forall s, value <> Json.Str s
    end.
Proof.
  induction entries as [| [name value] entries IH]; intros packages; cbn [Parse.packageEntries].
  - exists []. now rewrite app_nil_r.
  - destruct value as [| b | n | s | items | members];
      try (exists name; eexists; split; [apply list_elem_of_here | discriminate]).
    rewrite withoutRangePrefix_Str. specialize (IH (packages ++ [Samples.pkg name (stripRange s) npm])).
    fold (Samples.pkg name (stripRange s) npm).
    destruct (Parse.packageEntries entries _) as [e | result].
    + destruct IH as (name' & value' & Hin & Hvalue). exists name', value'.
      split; [now apply list_elem_of_further | assumption].
    + destruct IH as (ranges & -> & ->). exists ((name, s) :: ranges).
      split; [reflexivity |]. now rewrite <- app_assoc.
Qed.

(** X19.  [parsePackageJson] merges [dependencies] and [devDependencies]: every
    name declared in either gives one package, tagged [npm], at the range
    declared for it without one leading [^] or [~], the range of
    [devDependencies] taking precedence.  It gives up on the whole file,
    with the error "Invalid package.json format", exactly when some name
    is declared with something that is no string. *)
Theorem parsePackageJson_reads_dependencies content data dependencies devDependencies :
  Json.parse content = Some data ->
  Json.member "dependencies" data = inr dependencies ->
  Json.member "devDependencies" data = inr devDependencies ->
  match Parse.parsePackageJson content with
  | inr packages =>
      NoDup (pkg_name <$> packages)
      /\ Forall (fun package => pkg_ecosystem package = npm) packages
      /\ (forall name version,
            Samples.pkg name version npm ∈ packages
            <-> exists range,
                  declared dependencies devDependencies name = Some (Json.Str range)
                  /\ version = stripRange range)
      /\ (forall name value,
            declared dependencies devDependencies name = Some value ->
            exists range, value = Json.Str range)
  | inl thrown =>
      thrown = Parse.Error "Invalid package.json format"
      /\ exists name value,
           declared dependencies devDependencies name = Some value
           /\ forall range, value <> Json.Str range
  end.
Proof.
  intros Hparse Hdeps Hdev. unfold Parse.parsePackageJson, Parse.packagesOf.
  rewrite Hparse, Hdeps, Hdev.
  set (deps := Json.defineAll (Json.properties devDependencies)
                 (Json.defineAll (Json.properties dependencies) [])).
  assert (Hnodup : NoDup (fst <$> deps)).
  { apply defineAll_NoDup, defineAll_NoDup. apply NoDup_nil_2. }
  assert (Hown : forall name, Json.own name deps = declared dependencies devDependencies name).
  { intros name. apply own_spread. }
  pose proof (packageEntries_spec deps []) as Hloop.
  destruct (Parse.packageEntries deps []) as [e | packages].
  - destruct Hloop as (name & value & Hin & Hvalue). split; [reflexivity |].
    exists name, value. split; [| assumption]. rewrite <- Hown. now apply own_elem.
  - destruct Hloop as (ranges & Hentries & ->). cbn [app].
    assert (Hnames : pkg_name <$> ((fun entry : string * string =>
                        {| pkg_name := entry.1; pkg_version := stripRange entry.2;
                           pkg_ecosystem := npm |}) <$> ranges) = fst <$> deps).
    { rewrite Hentries, <- !list_fmap_compose. now apply list_fmap_ext. }
    split; [now rewrite Hnames |].
    split; [apply Forall_fmap, Forall_forall; now intros |].
    split.
    + intros name version. rewrite list_elem_of_fmap. split.
      * intros ([name' range] & [= -> ->] & Hin). exists range. split; [| reflexivity].
        rewrite <- Hown. apply own_elem; [assumption |]. rewrite Hentries.
        now apply (list_elem_of_fmap_2
                     (fun entry : string * string => (entry.1, Json.Str entry.2))) in Hin.
      * intros (range & Hdeclared & ->). rewrite <- Hown in Hdeclared.
        apply own_elem in Hdeclared; [| assumption]. rewrite Hentries in Hdeclared.
        apply list_elem_of_fmap in Hdeclared as ([name' range'] & [= -> ->] & Hin).
        now exists (name', range').
    + intros name value Hdeclared. rewrite <- Hown in Hdeclared.
      apply own_elem in Hdeclared; [| assumption]. rewrite Hentries in Hdeclared.
      apply list_elem_of_fmap in Hdeclared as ([name' range'] & [= -> ->] & _).
      now exists range'.
Qed.

(** X20.  What is no JSON, and the JSON text [null], make [parsePackageJson]
    throw; any other JSON value that is no object, and an object with
    neither [dependencies] nor [devDependencies], give no package and no
    error. *)
Theorem parsePackageJson_without_dependencies content :
  (Json.parse content = None \/ Json.parse content = Some Json.Null ->
   Parse.parsePackageJson content = inl (Parse.Error "Invalid package.json format"))
  /\ (forall data,
        Json.parse content = Some data ->
        match data with
        | Json.Null => False
        | Json.Object members =>
            Json.own "dependencies" (Json.defineAll members []) = None
            /\ Json.own "devDependencies" (Json.defineAll members []) = None
        | _ => True
        end ->
        Parse.parsePackageJson content = inr []).
Proof.
  unfold Parse.parsePackageJson, Parse.packagesOf. split.
  - intros [-> | ->]; reflexivity.
  - intros data -> Hdata.
    destruct data as [| b | n | s | items | members]; try contradiction; try reflexivity.
    destruct Hdata as [Hdeps Hdev]. cbn [Json.member]. now rewrite Hdeps, Hdev.
Qed.

End PackageJson.

(** The sample manifest: the key [7] comes first, [lodash] keeps the place
    it has in [dependencies] and takes the range of [devDependencies], and
    the ranges lose their [^] and [~]. *)
Lemma parsePackageJson_reads_dependencies_witness :
  Parse.parsePackageJson (json := Fixtures.parser) Fixtures.manifest
  = inr [ Samples.pkg "7" "1.0.0" npm; Samples.pkg "express" "4.18.2" npm;
          Samples.pkg "lodash" "4.17.21" npm; Samples.pkg "jest" "29.0.0" npm ]
  /\ forall name version,
       Samples.pkg name version npm
       ∈ [ Samples.pkg "7" "1.0.0" npm; Samples.pkg "express" "4.18.2" npm;
           Samples.pkg "lodash" "4.17.21" npm; Samples.pkg "jest" "29.0.0" npm ]
       <-> exists range,
             declared (Some Fixtures.manifestDependencies)
               (Some Fixtures.manifestDevDependencies) name = Some (Json.Str range)
             /\ version = stripRange range.
Proof.
  assert (Hrun : Parse.parsePackageJson (json := Fixtures.parser) Fixtures.manifest
                 = inr [ Samples.pkg "7" "1.0.0" npm; Samples.pkg "express" "4.18.2" npm;
                         Samples.pkg "lodash" "4.17.21" npm; Samples.pkg "jest" "29.0.0" npm ])
    by (vm_compute; reflexivity).
  split; [exact Hrun |].
  pose proof (parsePackageJson_reads_dependencies (json := Fixtures.parser)
                Fixtures.manifest Fixtures.manifestData
                (Some Fixtures.manifestDependencies)
                (Some Fixtures.manifestDevDependencies)) as Hreads.
  rewrite Hrun in Hreads.
  destruct Hreads as (_ & _ & Hmembers & _); [vm_compute; reflexivity .. |].
  exact Hmembers.
Defined.

(** ** Retries *)

Section RetryFacts.
Context {W : Type} {network : Net.Network W} {metered : Net.Metered W}.

Lemma attempts_spec request retries timeout remaining :
  forall attempt (w : W),
    0 <= attempt -> Z.of_nat remaining = retries - attempt ->
    exists result w',
      Net.attempts remaining attempt request retries timeout w = (inr result, w')
      /\ let made := Net.calls w' - Net.calls w in
         (remaining = O -> made = 0 /\ Net.paused w' = Net.paused w /\ result = None)
         /\ (remaining <> O ->
             1 <= made <= Z.of_nat remaining
             /\ Net.paused w' - Net.paused w = 1000 * 2 ^ attempt * (2 ^ (made - 1) - 1)
             /\ (result = None -> made = Z.of_nat remaining)).
Proof.
  induction remaining as [| remaining IH]; intros attempt w Hattempt Hleft;
    cbn [Net.attempts].
  - exists None, w. split; [reflexivity |]. cbv zeta. split; [| contradiction].
    intros _. split; [lia | now split].
  - run_async. unfold Net.sleep.
    pose proof (Net.fetch_calls request timeout w) as Hcalls.
    pose proof (Net.fetch_paused request timeout w) as Hpaused.
    destruct (Net.fetchWithTimeout request timeout w) as [[e | response] w1];
      cbn [snd] in Hcalls, Hpaused.
    + destruct (Z.eqb_spec attempt (retries - 1)) as [Hlast | Hmore].
      * exists None, w1. split; [reflexivity |]. cbv zeta. split; [discriminate |].
        intros _. rewrite Hcalls, Hpaused.
        replace (Net.calls w + 1 - Net.calls w - 1) with 0 by lia.
        change (2 ^ 0) with 1. lia.
      * destruct (IH (attempt + 1) (Net.pause (1000 * 2 ^ attempt) w1)) as
          (result & w' & Hrun & Hnone & Hsome); [lia | lia |].
        exists result, w'. split; [exact Hrun |]. cbv zeta in *.
        rewrite Net.pause_calls, Net.pause_paused in *. split; [discriminate |]. intros _.
        destruct remaining as [| remaining]; [lia |].
        destruct Hsome as (Hmade & Hslept & Hresult); [discriminate |].
        rewrite Hcalls, Hpaused in *.
        set (made := Net.calls w' - (Net.calls w + 1)) in *.
        replace (Net.calls w' - Net.calls w) with (made + 1) by (subst made; lia).
        replace (made + 1 - 1) with (Z.succ (made - 1)) by lia.
        rewrite Z.pow_succ_r by lia.
        rewrite Z.pow_add_r in Hslept by lia. change (2 ^ 1) with 2 in Hslept.
        split; [lia |]. split; [| intros Hr; specialize (Hresult Hr); lia].
        nia.
    + exists (Some response), w1. split; [reflexivity |]. cbv zeta. split; [discriminate |].
      intros _. rewrite Hcalls, Hpaused.
      replace (Net.calls w + 1 - Net.calls w - 1) with 0 by lia.
      change (2 ^ 0) with 1. split; [lia |]. split; [lia | discriminate].
Qed.

(** X21.  [fetchWithRetry] never throws.  It calls [fetchWithTimeout] at most
    [retries] times, and not at all when [retries] is not positive; before
    the call number [k + 1] it pauses [1000 * 2^(k-1)] milliseconds, so
    after [n] calls it has paused [1000 * (2^(n-1) - 1)] in all, and it
    does not pause after the last failure; it returns [null] only after
    [retries] calls. *)
Theorem fetchWithRetry_backoff request retries timeout (w : W) :
  exists result w',
    Net.fetchWithRetry request retries timeout w = (inr result, w')
    /\ let made := Net.calls w' - Net.calls w in
       0 <= made <= Z.max 0 retries
       /\ (made = 0 <-> retries <= 0)
       /\ Net.paused w' - Net.paused w = (if made =? 0 then 0 else 1000 * (2 ^ (made - 1) - 1))
       /\ (result = None -> made = Z.max 0 retries).
Proof.
  unfold Net.fetchWithRetry.
  destruct (Z.le_gt_cases retries 0) as [Hnone | Hsome].
  - replace (Z.to_nat retries) with O by lia. cbn [Net.attempts].
    exists None, w. split; [reflexivity |]. cbv zeta.
    replace (Net.calls w - Net.calls w) with 0 by lia. cbn. lia.
  - destruct (attempts_spec request retries timeout (Z.to_nat retries) 0 w)
      as (result & w' & Hrun & _ & Hspec); [lia | lia |].
    exists result, w'. split; [exact Hrun |]. cbv zeta in *.
    destruct Hspec as (Hmade & Hpaused & Hresult); [lia |].
    rewrite Z2Nat.id in * by lia. change (2 ^ 0) with 1 in Hpaused.
    destruct (Z.eqb_spec (Net.calls w' - Net.calls w) 0); [lia |].
    split; [lia |]. split; [lia |]. split; [lia |].
    intros Hr. specialize (Hresult Hr). lia.
Qed.

(** [safeJsonParse] of what [fetchWithRetry] returns is [null] unless a
    response came back that is [ok] and whose body is JSON other than
    [null]. *)
Lemma safeJsonParse_Some response value :
  Net.safeJsonParse response = Some value ->
  exists r, response = Some r /\ Net.ok r = true /\ Net.json r = inr value
            /\ value <> Json.Null.
Proof.
  unfold Net.safeJsonParse. destruct response as [r |]; [| discriminate].
  destruct (Net.ok r) eqn:Hok; [| discriminate].
  destruct (Net.json r) as [e | parsed] eqn:Hjson; [discriminate |].
  intros Hvalue. exists r.
  assert (parsed = value /\ value <> Json.Null) as [-> Hnull]
    by (destruct parsed; simplify_eq; (split; [reflexivity | discriminate])).
  now repeat split.
Qed.

End RetryFacts.

(** On a line that refuses every call, with three attempts allowed:
    three calls, and pauses of 1000 and 2000 milliseconds. *)
Lemma fetchWithRetry_backoff_witness :
  let line := {| Fixtures.script := []; Fixtures.made := 0; Fixtures.slept := 0 |} in
  exists w',
    Net.fetchWithRetry (network := Fixtures.network) (Fixtures.request "https://api.osv.dev")
      3 15000 line = (inr None, w')
    /\ Fixtures.made w' - Fixtures.made line = 3
    /\ Fixtures.slept w' - Fixtures.slept line = 3000.
Proof.
  intros line.
  destruct (fetchWithRetry_backoff (metered := Fixtures.metered)
              (Fixtures.request "https://api.osv.dev") 3 15000 line)
    as (result & w' & Hrun & _ & _ & Hslept & Hmade).
  assert (Hnone : result = None) by (vm_compute in Hrun; congruence).
  subst result. specialize (Hmade eq_refl). exists w'. split; [exact Hrun |].
  split; [exact Hmade |]. rewrite Hmade in Hslept. exact Hslept.
Defined.

(** Two refusals and then an answer, with three attempts allowed: three
    calls, pauses of 1000 and 2000 milliseconds, and the answer parsed.
    With two attempts allowed: two calls, one pause, and [null]. *)
Example fetchWithRetry_on_a_bad_line :
  let line :=
    {| Fixtures.script := [Fixtures.refused; Fixtures.refused; Fixtures.answered (Json.Bool true)];
       Fixtures.made := 0; Fixtures.slept := 0 |} in
  let fetch retries :=
    Net.fetchWithRetry (network := Fixtures.network) (Fixtures.request "https://api.osv.dev")
      retries 15000 line in
  match (fetch 3).1 with
  | inr response => Net.safeJsonParse response = Some (Json.Bool true)
  | inl _ => False
  end
  /\ Fixtures.made (fetch 3).2 = 3 /\ Fixtures.slept (fetch 3).2 = 3000
  /\ (fetch 2).1 = inr None
  /\ Fixtures.made (fetch 2).2 = 2 /\ Fixtures.slept (fetch 2).2 = 1000.
Proof. vm_compute. repeat split; reflexivity. Qed.

(** ** The repository of a GitHub URL *)

Section RepositoryUrl.

Lemma search_skip atoms toEnd c s :
  Re.matchHere atoms toEnd (c :: s) = None ->
  Re.search atoms toEnd (c :: s)
  = (fun found => (S found.1, found.2)) <$> Re.search atoms toEnd s.
Proof. intros Hnone. cbn [Re.search]. now rewrite Hnone. Qed.

Lemma search_here atoms toEnd s captures :
  Re.matchHere atoms toEnd s = Some captures -> Re.search atoms toEnd s = Some (O, captures).
Proof. intros Hsome. destruct s; cbn [Re.search]; now rewrite Hsome. Qed.

(** A pattern that starts with a character the string lacks is not found. *)
Lemma search_absent a atoms toEnd s :
  Re.quantifier a = Re.Once \/ Re.quantifier a = Re.Plus ->
  Forall (fun c => Re.test a c = false) s ->
  Re.search (a :: atoms) toEnd s = None.
Proof.
  intros Hq Hs. induction Hs as [| c s Hc Hs IH].
  - cbn [Re.search]. rewrite matchHere_mismatch; [reflexivity | exact Hq | now left].
  - rewrite search_skip, IH; [reflexivity |].
    apply matchHere_mismatch; [exact Hq |]. right. eauto.
Qed.

(** What one ordinary character takes is that character. *)
Lemma taken_char c piece : taken (Re.char c) piece -> piece = [c].
Proof.
  intros (Hall & Hleast & Hmost). cbn in Hleast, Hmost.
  destruct piece as [| d [| ? ?]]; cbn [length] in *; try lia.
  apply Forall_cons in Hall as [Hd _]. cbn [Re.test Re.char] in Hd.
  apply Ascii.eqb_eq in Hd. now subst.
Qed.

Lemma taken_literal lit :
  forall pieces,
    Forall2 taken (Re.char <$> lit) pieces -> pieces = (fun c => [c]) <$> lit.
Proof.
  induction lit as [| c lit IH]; intros pieces Hall;
    inversion Hall as [| ? piece ? rest Hc Hrest]; subst; [reflexivity |].
  apply taken_char in Hc as ->. rewrite fmap_cons. f_equal. now apply IH.
Qed.

Lemma concat_singletons (lit : list ascii) : concat ((fun c => [c]) <$> lit) = lit.
Proof. induction lit as [| c lit IH]; [reflexivity |]. rewrite fmap_cons. cbn. now f_equal. Qed.

(** A match of a pattern that starts with a literal starts with it. *)
Lemma matchHere_literal lit more toEnd s captures :
  Re.matchHere ((Re.char <$> lit) ++ more) toEnd s = Some captures ->
  exists t, s = lit ++ t.
Proof.
  intros Hmatch. apply matchHere_sound in Hmatch as (Hall & rest & -> & _).
  apply Forall2_app_inv_l in Hall as (first & second & Hfirst & _ & ->).
  apply taken_literal in Hfirst as ->.
  rewrite concat_app, concat_singletons, <- app_assoc. eauto.
Qed.

Lemma matchHere_literal_complete lit more toEnd t captures :
  Re.matchHere more toEnd t = Some captures ->
  Re.matchHere ((Re.char <$> lit) ++ more) toEnd (lit ++ t)
  = Some (((fun c => [c]) <$> lit) ++ captures).
Proof.
  intros Hmore. induction lit as [| c lit IH]; [exact Hmore |].
  rewrite !fmap_cons. cbn [app].
  apply matchHere_char; [now left | apply Ascii.eqb_refl | exact IH].
Qed.

(** [github.com] does not overlap itself: where it starts before another
    occurrence of itself, it ends before it too. *)
Lemma host_no_overlap p x t :
  p <> [] ->
  p ++ list_ascii_of_string "github.com" ++ x = list_ascii_of_string "github.com" ++ t ->
  exists b, p = list_ascii_of_string "github.com" ++ b.
Proof.
  intros Hp Heq. cbn [list_ascii_of_string] in *.
  do 10 (destruct p as [| ? p]; [first [contradiction | cbn [app] in Heq; simplify_eq] |]).
  cbn [app] in Heq. simplify_eq. eauto.
Qed.

(** Nothing is found before the first [github.com] of a URL. *)
Lemma search_after before tail captures :
  Re.search (Re.char <$> list_ascii_of_string "github.com") false before = None ->
  Re.matchHere GitHub.repository_url false (list_ascii_of_string "github.com" ++ tail)
  = Some captures ->
  exists start,
    Re.search GitHub.repository_url false
      (before ++ list_ascii_of_string "github.com" ++ tail) = Some (start, captures).
Proof.
  intros Hbefore Hmatch. induction before as [| c before IH].
  - exists O. now apply search_here.
  - cbn [Re.search] in Hbefore.
    destruct (Re.matchHere (Re.char <$> list_ascii_of_string "github.com") false (c :: before))
      as [found |] eqn:Hhere; [discriminate |].
    destruct (Re.search (Re.char <$> list_ascii_of_string "github.com") false before)
      as [found |] eqn:Hlater; [discriminate |].
    destruct (IH eq_refl) as (start & Hstart).
    exists (S start). change ((c :: before) ++ ?l) with (c :: before ++ l).
    rewrite search_skip, Hstart; [reflexivity |].
    destruct (Re.matchHere GitHub.repository_url false
                (c :: before ++ list_ascii_of_string "github.com" ++ tail))
      as [found |] eqn:Hfound; [| reflexivity].
    exfalso. unfold GitHub.repository_url in Hfound.
    apply matchHere_literal in Hfound as (t & Ht).
    apply (host_no_overlap (c :: before)) in Ht as (b & Hb); [| discriminate].
    rewrite Hb in Hhere.
    pose proof (matchHere_literal_complete (list_ascii_of_string "github.com") [] false b []
                  eq_refl) as Hcomplete.
    rewrite app_nil_r in Hcomplete. congruence.
Qed.

(** [repo.replace(/\.git$/, '')] on a string without a dot. *)
Lemma remove_git_suffix s :
  Forall (fun c => c <> "."%char) s -> Re.remove GitHub.git_suffix false true s = s.
Proof.
  intros Hs. unfold Re.remove.
  change GitHub.git_suffix with (Re.char "." :: (Re.char <$> ["g"; "i"; "t"]%char)).
  rewrite search_absent; [reflexivity | now left |].
  eapply Forall_impl; [exact Hs |]. intros c Hc.
  cbn [Re.test Re.char]. apply Ascii.eqb_neq. congruence.
Qed.

Lemma repository_url_match separator owner repo rest :
  (separator = "/" \/ separator = ":")%char ->
  owner <> [] -> Forall (fun c => c <> "/"%char) owner ->
  repo <> [] -> Forall (fun c => c <> "/"%char /\ c <> "."%char) repo ->
  (rest = [] \/ exists c t, rest = c :: t /\ (c = "/" \/ c = ".")%char) ->
  Re.matchHere GitHub.repository_url false
    (list_ascii_of_string "github.com" ++ separator :: owner ++ "/"%char :: repo ++ rest)
  = Some (((fun c => [c]) <$> list_ascii_of_string "github.com")
          ++ [[separator]; owner; ["/"%char]; repo]).
Proof.
  intros Hseparator Howner Howner_chars Hrepo Hrepo_chars Hrest.
  unfold GitHub.repository_url. apply matchHere_literal_complete.
  apply matchHere_char; [now left | destruct Hseparator as [-> | ->]; reflexivity |].
  apply matchHere_run; [right; now split | | |].
  - eapply Forall_impl; [exact Howner_chars |]. intros c Hc.
    cbn [Re.test Re.class]. apply negb_true_iff. now apply Ascii.eqb_neq.
  - right. eexists _, _. split; reflexivity.
  - apply matchHere_char; [now left | reflexivity |].
    apply matchHere_run; [right; now split | | | reflexivity].
    + eapply Forall_impl; [exact Hrepo_chars |]. intros c [Hslash Hdot].
      cbn [Re.test Re.class]. apply negb_true_iff, orb_false_iff. split; now apply Ascii.eqb_neq.
    + destruct Hrest as [-> | (c & t & -> & [-> | ->])]; [now left | |];
        right; eexists _, _; split; reflexivity.
Qed.

(** X22.  What [fetchGitHubStats] takes from a URL, when it takes anything, is
    the text between [github.com/] or [github.com:] and the next [/] as
    the owner, and the text after that [/] up to the next [/] or [.] as
    the repository; neither is empty.  The repository never has a dot, so
    [repo.replace(/\.git$/, '')] never changes it. *)
Theorem ownerAndRepo_shape repoUrl owner repo :
  GitHub.ownerAndRepo repoUrl = Some (owner, repo) ->
  exists before separator owner' repo' after,
    list_ascii_of_string repoUrl
    = before ++ list_ascii_of_string "github.com" ++ separator :: owner' ++ "/"%char
      :: repo' ++ after
    /\ owner = string_of_list_ascii owner' /\ repo = string_of_list_ascii repo'
    /\ (separator = "/" \/ separator = ":")%char
    /\ owner' <> [] /\ Forall (fun c => c <> "/"%char) owner'
    /\ repo' <> [] /\ Forall (fun c => c <> "/"%char /\ c <> "."%char) repo'
    /\ Re.remove GitHub.git_suffix false true repo' = repo'.
Proof.
  unfold GitHub.ownerAndRepo.
  destruct (Re.search _ _ _) as [[start captures] |] eqn:Hsearch; [| discriminate].
  intros Hresult.
  apply search_sound in Hsearch as (Hall & after & Hurl & _ & _).
  unfold GitHub.repository_url in Hall.
  apply Forall2_app_inv_l in Hall as (host & groups & Hhost & Hgroups & ->).
  apply taken_literal in Hhost as ->.
  inversion Hgroups as [| ? sep ? groups1 Hsep Hgroups1]; subst.
  inversion Hgroups1 as [| ? owner' ? groups2 Howner Hgroups2]; subst.
  inversion Hgroups2 as [| ? slash ? groups3 Hslash Hgroups3]; subst.
  inversion Hgroups3 as [| ? repo' ? groups4 Hrepo Hgroups4]; subst.
  inversion Hgroups4; subst.
  apply taken_char in Hslash as ->.
  destruct Hsep as (Hsep_chars & Hsep_least & Hsep_most). cbn in Hsep_least, Hsep_most.
  destruct sep as [| separator [| ? ?]]; cbn [length] in *; try lia.
  apply Forall_cons in Hsep_chars as [Hseparator _].
  cbn [Re.test Re.class] in Hseparator.
  destruct Howner as (Howner_chars & Howner_least & _). cbn in Howner_least.
  destruct Hrepo as (Hrepo_chars & Hrepo_least & _). cbn in Hrepo_least.
  assert (Hrepo_plain : Forall (fun c => c <> "/"%char /\ c <> "."%char) repo').
  { eapply Forall_impl; [exact Hrepo_chars |]. intros c Hc.
    cbn [Re.test Re.class] in Hc.
    apply negb_true_iff, orb_false_iff in Hc as [Hslash Hdot].
    split; now apply Ascii.eqb_neq. }
  assert (Hclean : Re.remove GitHub.git_suffix false true repo' = repo').
  { apply remove_git_suffix. eapply Forall_impl; [exact Hrepo_plain |]. now intros c [_ Hc]. }
  change (Re.capture 11 _) with owner' in Hresult.
  change (Re.capture 13 _) with repo' in Hresult.
  rewrite Hclean in Hresult. injection Hresult as <- <-.
  rewrite concat_app, concat_singletons in Hurl. cbn [concat] in Hurl.
  rewrite app_nil_r, <- !app_assoc in Hurl. cbn [app] in Hurl.
  exists (take start (list_ascii_of_string repoUrl)), separator, owner', repo', after.
  split; [exact Hurl |]. split; [reflexivity |]. split; [reflexivity |].
  split.
  { apply orb_true_iff in Hseparator as [Hc | Hc]; apply Ascii.eqb_eq in Hc; auto. }
  split; [destruct owner'; [cbn in Howner_least; lia | discriminate] |].
  split.
  { eapply Forall_impl; [exact Howner_chars |]. intros c Hc.
    cbn [Re.test Re.class] in Hc. apply negb_true_iff in Hc. now apply Ascii.eqb_neq. }
  split; [destruct repo'; [cbn in Hrepo_least; lia | discriminate] |].
  split; assumption.
Qed.

(** X23.  A URL that has [github.com], [/] or [:], an owner without [/], [/] and
    a repository name without [/] and [.], followed by nothing or by [/]
    or [.], and that has no [github.com] before that, gives this owner and
    this repository: the suffix [.git] goes, and so does everything else
    from the first dot of the name on. *)
Theorem ownerAndRepo_reads before separator owner repo rest :
  Re.search (Re.char <$> list_ascii_of_string "github.com") false before = None ->
  (separator = "/" \/ separator = ":")%char ->
  owner <> [] -> Forall (fun c => c <> "/"%char) owner ->
  repo <> [] -> Forall (fun c => c <> "/"%char /\ c <> "."%char) repo ->
  (rest = [] \/ exists c t, rest = c :: t /\ (c = "/" \/ c = ".")%char) ->
  GitHub.ownerAndRepo
    (string_of_list_ascii
       (before ++ list_ascii_of_string "github.com" ++ separator :: owner ++ "/"%char
        :: repo ++ rest))
  = Some (string_of_list_ascii owner, string_of_list_ascii repo).
Proof.
  intros Hbefore Hseparator Howner Howner_chars Hrepo Hrepo_chars Hrest.
  unfold GitHub.ownerAndRepo. rewrite list_ascii_of_string_of_list_ascii.
  destruct (search_after before _ _ Hbefore
              (repository_url_match separator owner repo rest Hseparator Howner
                 Howner_chars Hrepo Hrepo_chars Hrest)) as (start & ->).
  change (Re.capture 11 _) with owner. change (Re.capture 13 _) with repo.
  cbv zeta. rewrite remove_git_suffix; [reflexivity |].
  eapply Forall_impl; [exact Hrepo_chars |]. now intros c [_ Hc].
Qed.

End RepositoryUrl.

(** The URL of [socket.io]: the owner is [socketio], and the repository is
    cut at its first dot. *)
Lemma ownerAndRepo_shape_witness :
  GitHub.ownerAndRepo "git+https://github.com/socketio/socket.io.git"
  = Some ("socketio", "socket")%string
  /\ exists before separator owner repo after,
       list_ascii_of_string "git+https://github.com/socketio/socket.io.git"
       = before ++ list_ascii_of_string "github.com" ++ separator :: owner ++ "/"%char
         :: repo ++ after
       /\ "socketio"%string = string_of_list_ascii owner
       /\ "socket"%string = string_of_list_ascii repo
       /\ (separator = "/" \/ separator = ":")%char
       /\ owner <> [] /\ Forall (fun c => c <> "/"%char) owner
       /\ repo <> [] /\ Forall (fun c => c <> "/"%char /\ c <> "."%char) repo
       /\ Re.remove GitHub.git_suffix false true repo = repo.
Proof.
  split; [vm_compute; reflexivity |].
  apply (ownerAndRepo_shape "git+https://github.com/socketio/socket.io.git").
  vm_compute. reflexivity.
Defined.

(** [git+ssh://git@github.com:lodash/lodash.git] *)
Lemma ownerAndRepo_reads_witness :
  GitHub.ownerAndRepo "git+ssh://git@github.com:lodash/lodash.git"
  = Some ("lodash", "lodash")%string.
Proof.
  apply (ownerAndRepo_reads (list_ascii_of_string "git+ssh://git@") ":"%char
           (list_ascii_of_string "lodash") (list_ascii_of_string "lodash")
           (list_ascii_of_string ".git")).
  - vm_compute. reflexivity.
  - right. reflexivity.
  - discriminate.
  - repeat constructor; discriminate.
  - discriminate.
  - repeat constructor; discriminate.
  - right. eexists _, _. split; [reflexivity | right; reflexivity].
Defined.

(** ** The scan route *)

Section RouteFacts.
Context {W : Type} {dates : Js.DateParser} {numbers : Js.NumberParser}
  {upstream : Upstream W}
  {runtime : Route.Runtime W} {json : Json.Parser}.

Lemma vulnerable_packages (analyses : list PackageAnalysis) :
  let vulnerable :=
    length (List.filter (fun p => 0 <? Z.of_nat (length (vulnerabilities p))) analyses) in
  (vulnerable <= length analyses)%nat
  /\ (vulnerable <= length (flat_map vulnerabilities analyses))%nat
  /\ (vulnerable = 0%nat <-> flat_map vulnerabilities analyses = []).
Proof.
  cbv zeta. induction analyses as [| p analyses (IHall & IHle & IHnone)];
    cbn [List.filter flat_map length]; [split; [lia | split; [lia | tauto]] |].
  destruct (vulnerabilities p) as [| v vs]; cbn [length].
  - change (0 <? Z.of_nat 0) with false. cbn [app]. split; [lia | now split].
  - replace (0 <? Z.of_nat (S (length vs))) with true by (symmetry; apply Z.ltb_lt; lia).
    cbn [length app]. rewrite length_app. split; [lia |]. split; [lia |].
    split; discriminate.
Qed.

Lemma severity_counts vulns :
  Trust.countSeverity "critical" vulns + Trust.countSeverity "high" vulns
  + Trust.countSeverity "medium" vulns + Trust.countSeverity "low" vulns
  <= Z.of_nat (length vulns).
Proof.
  induction vulns as [| v vulns IH]; [vm_compute; discriminate |].
  rewrite !countSeverity_cons. cbn [length].
  destruct (String.eqb_spec (vuln_severity v) "critical") as [-> | _];
    cbn [String.eqb Ascii.eqb Bool.eqb]; [lia |].
  destruct (String.eqb_spec (vuln_severity v) "high") as [-> | _];
    cbn [String.eqb Ascii.eqb Bool.eqb]; [lia |].
  destruct (String.eqb_spec (vuln_severity v) "medium") as [-> | _];
    cbn [String.eqb Ascii.eqb Bool.eqb]; [lia |].
  destruct (String.eqb (vuln_severity v) "low"); lia.
Qed.

(** The replies of the handler, case by case. *)
Lemma POST_cases form (w : W) :
  exists reply w',
    Route.POST form w = (inr reply, w')
    /\ ((exists message file type,
           reply = {| Route.status := 400; Route.body := Route.Failure message |} /\ w' = w
           /\ form = inr (file, type)
           /\ (file = Route.Missing \/ file = Route.Field ""
               \/ (forall value, type = Route.Field value -> Route.ecosystemOf value = None)
               \/ exists name content value scanType,
                    file = Route.Upload name content /\ type = Route.Field value
                    /\ Route.ecosystemOf value = Some scanType
                    /\ (Route.parse scanType content = inr []
                        \/ exists reason,
                             Route.parse scanType content = inl (Parse.Error reason))))
        \/ (exists e,
              reply = {| Route.status := 500; Route.body := Route.Failure (Route.messageOf e) |}
              /\ w' = w
              /\ (form = inl e
                  \/ e = TypeError "file.text is not a function"
                     /\ exists value type scanType,
                          form = inr (Route.Field value, Route.Field type)
                          /\ value <> ""%string
                          /\ Route.ecosystemOf type = Some scanType))
        \/ (exists name content type scanType packages analyses w1,
              form = inr (Route.Upload name content, Route.Field type)
              /\ Route.ecosystemOf type = Some scanType
              /\ Route.parse scanType content = inr packages
              /\ packages <> []
              /\ Scanned packages w analyses w1
              /\ let scan :=
                   Route.buildScanResult (Route.newScanId w1).1 (Route.isoNow w1) scanType
                     name packages analyses in
                 reply = {| Route.status := 200; Route.body := Route.Result scan |}
                 /\ w' = Route.startSave scan (Route.newScanId w1).2)).
Proof.
  unfold Route.POST, Route.respond.
  destruct form as [e | [file type]].
  { run_async. eexists _, _. split; [reflexivity |]. right. left.
    exists e. split; [reflexivity |]. split; [reflexivity |]. now left. }
  destruct file as [| [| c value] | name content].
  1, 2: run_async; eexists _, _; (split; [reflexivity |]); left; eexists _, _, _;
    (split; [reflexivity |]); (split; [reflexivity |]); (split; [reflexivity |]); auto.
  - destruct type as [| type |]; [| destruct (Route.ecosystemOf type) as [scanType |] eqn:Htype |].
    1, 3, 4: run_async; eexists _, _; (split; [reflexivity |]); left; eexists _, _, _;
      (split; [reflexivity |]); (split; [reflexivity |]); (split; [reflexivity |]);
      right; right; left; intros ? [=]; congruence.
    run_async. eexists _, _. split; [reflexivity |]. right. left.
    exists (TypeError "file.text is not a function").
    split; [reflexivity |]. split; [reflexivity |]. right. split; [reflexivity |].
    exists (String c value), type, scanType. split; [reflexivity |]. split; [discriminate |].
    exact Htype.
  - destruct type as [| type |]; [| destruct (Route.ecosystemOf type) as [scanType |] eqn:Htype |].
    1, 3, 4: run_async; eexists _, _; (split; [reflexivity |]); left; eexists _, _, _;
      (split; [reflexivity |]); (split; [reflexivity |]); (split; [reflexivity |]);
      right; right; left; intros ? [=]; congruence.
    destruct (Route.parse scanType content) as [[reason] | [| pkg packages]] eqn:Hparse.
    1, 2: run_async; eexists _, _; (split; [reflexivity |]); left; eexists _, _, _;
      (split; [reflexivity |]); (split; [reflexivity |]); (split; [reflexivity |]);
      right; right; right; exists name, content, type, scanType; eauto 10.
    destruct (scanLoop_scanned (pkg :: packages) [] w) as (analyses & w1 & Hrun & Hscanned).
    cbn [app] in Hrun. unfold Scan.scanPackages, Route.freshScanId, Route.saveInBackground.
    run_async. rewrite Hrun.
    destruct (Route.newScanId w1) as [id w2] eqn:Hid.
    eexists _, _. split; [reflexivity |]. right. right.
    exists name, content, type, scanType, (pkg :: packages), analyses, w1.
    split; [reflexivity |]. split; [exact Htype |]. split; [exact Hparse |].
    split; [discriminate |]. split; [exact Hscanned |].
    rewrite Hid. cbv zeta. cbn [fst snd]. split; reflexivity.
Qed.

(** X24.  [POST] never throws, and replies with 200, 400 or 500.  The reply is
    200 exactly when its body is a scan result.  It is 500 exactly when
    reading the form data failed, or when the [file] entry is a non-empty
    string instead of a file and the type is valid, so that [file.text()]
    throws; the reply 500 of the handler's own [catch] around
    [scanPackages] is never sent.  Unless the reply is 200, nothing was
    fetched and nothing is saved. *)
Theorem POST_status form (w : W) :
  exists reply w',
    Route.POST form w = (inr reply, w')
    /\ (Route.status reply = 200 \/ Route.status reply = 400 \/ Route.status reply = 500)
    /\ (Route.status reply = 200 <-> exists scan, Route.body reply = Route.Result scan)
    /\ (Route.status reply = 500
        <-> (exists e, form = inl e)
            \/ exists value type scanType,
                 form = inr (Route.Field value, Route.Field type)
                 /\ value <> ""%string /\ Route.ecosystemOf type = Some scanType)
    /\ (Route.status reply = 500 ->
        exists e,
          Route.body reply = Route.Failure (Route.messageOf e)
          /\ (form = inl e \/ e = TypeError "file.text is not a function"))
    /\ (Route.status reply <> 200 -> w' = w).
Proof.
  destruct (POST_cases form w) as (reply & w' & Hrun & Hcases).
  exists reply, w'. split; [exact Hrun |].
  destruct Hcases as [(message & file & type & -> & -> & -> & Hwhy)
                      | [(e & -> & -> & Hwhy)
                         | (name & content & type & scanType & packages & analyses & w1 & ->
                            & Htype & Hparse & Hpackages & Hscanned & Hreply)]];
    cbv zeta in *; [| | destruct Hreply as [-> ->]]; cbn [Route.status Route.body].
  - split; [auto |]. split; [split; [discriminate | intros (scan & [=])] |].
    split; [| split; [discriminate | reflexivity]].
    split; [discriminate |].
    intros [(e & [=]) | (value & type' & scanType & [= -> ->] & Hvalue & Htype)];
      destruct Hwhy as [[=] | [[= ->] | [Hnone | (? & ? & ? & ? & [=] & _)]]];
      [contradiction | rewrite (Hnone type' eq_refl) in Htype; discriminate].
  - split; [auto |]. split; [split; [discriminate | intros (scan & [=])] |].
    split; [| split; [| reflexivity]].
    + split; [intros _ | reflexivity].
      destruct Hwhy as [-> | (_ & value & type & scanType & -> & Hvalue & Htype)];
        [left; eauto | right; eauto 10].
    + intros _. exists e. split; [reflexivity |]. destruct Hwhy as [-> | [-> _]]; auto.
  - split; [auto |]. split; [split; eauto |].
    split; [| split; [discriminate | contradiction]].
    split; [discriminate |]. intros [(e & [=]) | (? & ? & ? & [=] & _)].
Qed.

(** X25.  The statistics of a scan result are consistent.  A reply with a scan
    result has the status 200 and answers an uploaded file with a valid
    type that parsed to at least one package; the result has one record
    per parsed package, in order; the vulnerable packages are at most all
    packages and at most all vulnerabilities, and there is none exactly
    when there is no vulnerability; the four counts by severity add up to
    at most the total, since a severity other than the four is counted in
    the total only; and the three timestamps are equal. *)
Theorem POST_statistics form (w w' : W) reply scan :
  Route.POST form w = (inr reply, w') ->
  Route.body reply = Route.Result scan ->
  Route.status reply = 200
  /\ (exists name content type packages,
        form = inr (Route.Upload name content, Route.Field type)
        /\ Route.ecosystemOf type = Some (Route.scanType scan)
        /\ Route.parse (Route.scanType scan) content = inr packages
        /\ Route.fileName scan = name
        /\ package <$> Route.packages scan = packages
        /\ Route.totalPackages scan = Z.of_nat (length (Route.packages scan)))
  /\ 1 <= Route.totalPackages scan
  /\ 0 <= Route.vulnerablePackages scan <= Route.totalPackages scan
  /\ Route.vulnerablePackages scan <= Route.totalVulnerabilities scan
  /\ (Route.vulnerablePackages scan = 0 <-> Route.totalVulnerabilities scan = 0)
  /\ 0 <= Route.criticalCount scan /\ 0 <= Route.highCount scan
  /\ 0 <= Route.mediumCount scan /\ 0 <= Route.lowCount scan
  /\ Route.criticalCount scan + Route.highCount scan + Route.mediumCount scan
     + Route.lowCount scan <= Route.totalVulnerabilities scan
  /\ Route.timestamp scan = Route.scanDate scan
  /\ Route.scanDate scan = Route.createdAt scan.
Proof.
  intros Hpost Hbody.
  destruct (POST_cases form w) as (reply' & w'' & Hrun & Hcases).
  rewrite Hrun in Hpost. injection Hpost as -> ->.
  destruct Hcases as [(message & file & type & -> & _) | [(e & -> & _) | Hdone]];
    [discriminate | discriminate |].
  destruct Hdone as (name & content & type & scanType & packages & analyses & w1 & ->
                     & Htype & Hparse & Hpackages & Hscanned & Hreply).
  cbv zeta in Hreply. destruct Hreply as [-> _]. cbn [Route.body] in Hbody.
  injection Hbody as <-.
  cbn [Route.status Route.buildScanResult Route.scanType Route.fileName Route.packages
         Route.totalPackages Route.vulnerablePackages Route.totalVulnerabilities
         Route.criticalCount Route.highCount Route.mediumCount Route.lowCount
         Route.timestamp Route.scanDate Route.createdAt].
  pose proof (Scanned_length _ _ _ _ Hscanned) as Hlength.
  pose proof (Scanned_order _ _ _ _ Hscanned) as Horder.
  pose proof (vulnerable_packages analyses) as (Hall & Hle & Hnone). cbv zeta in *.
  pose proof (severity_counts (flat_map vulnerabilities analyses)) as Hcounts.
  pose proof (countSeverity_nonneg "critical" (flat_map vulnerabilities analyses)).
  pose proof (countSeverity_nonneg "high" (flat_map vulnerabilities analyses)).
  pose proof (countSeverity_nonneg "medium" (flat_map vulnerabilities analyses)).
  pose proof (countSeverity_nonneg "low" (flat_map vulnerabilities analyses)).
  assert (Hsome : (1 <= length packages)%nat)
    by (destruct packages; [contradiction | cbn [length]; lia]).
  split; [reflexivity |].
  split; [exists name, content, type, packages; rewrite Hlength; auto 10 |].
  split; [lia |]. split; [lia |]. split; [lia |].
  split.
  { rewrite <- length_zero_iff_nil in Hnone. lia. }
  repeat (split; [first [assumption | lia | reflexivity] |]). reflexivity.
Qed.

End RouteFacts.

(** A Dockerfile with two images, uploaded offline: two packages, of which
    [nginx] has the one advisory of the fallback table, a high one. *)
Lemma POST_statistics_witness :
  let form :=
    inr (Route.Upload "Dockerfile"
           ("FROM node:18-alpine AS build" +:+ String "010" "FROM nginx:1.21"),
         Route.Field "docker") in
  exists scan,
    Route.POST (dates := IsoDate.parser) (numbers := Samples.numbers) (upstream := Samples.offline)
      (runtime := Fixtures.runtime) (json := Fixtures.parser) form tt
    = (inr {| Route.status := 200; Route.body := Route.Result scan |}, tt)
    /\ Route.totalPackages scan = 2 /\ Route.vulnerablePackages scan = 1
    /\ Route.totalVulnerabilities scan = 1 /\ Route.highCount scan = 1
    /\ Route.criticalCount scan + Route.highCount scan + Route.mediumCount scan
       + Route.lowCount scan <= Route.totalVulnerabilities scan.
Proof.
  intros form. eexists. split; [vm_compute; reflexivity |].
  do 4 (split; [vm_compute; reflexivity |]).
  eapply (POST_statistics (dates := IsoDate.parser) (numbers := Samples.numbers) (upstream := Samples.offline)
            (runtime := Fixtures.runtime) (json := Fixtures.parser) form tt tt).
  - vm_compute. reflexivity.
  - reflexivity.
Defined.

(** ** The parsers on sample files *)

Example parseDockerfile_samples :
  Parse.parseDockerfile
    ("# build" +:+ String "010" ("  from node:18-alpine AS build" +:+ String "010"
     ("RUN npm ci" +:+ String "010" ("FROM redis" +:+ String "010"
     ("FROM localhost:5000/app:1.0" +:+ String "010" "FROM --platform=linux/amd64 nginx:1.21")))))
  = [ Samples.pkg "node" "18-alpine" docker; Samples.pkg "redis" "latest" docker;
      Samples.pkg "localhost" "5000/app:1.0" docker;
      Samples.pkg "--platform=linux/amd64" "latest" docker ].
Proof. vm_compute. reflexivity. Qed.

Example parseRequirementsTxt_samples :
  Parse.parseRequirementsTxt
    ("# pinned" +:+ String "010" ("requests==2.31.0" +:+ String "010"
     ("django >= 3.2, <4.0" +:+ String "010" ("flask" +:+ String "010"
     ("numpy~=1.24" +:+ String "010" ("uvicorn[standard]==0.23" +:+ String "010"
     ("pkg==" +:+ String "010" "-r other.txt")))))))
  = [ Samples.pkg "requests" "2.31.0" python; Samples.pkg "django" "3.2" python;
      Samples.pkg "flask" "latest" python; Samples.pkg "pkg" "=" python ].
Proof. vm_compute. reflexivity. Qed.

Example parsePackageJson_samples :
  Parse.parsePackageJson (json := Fixtures.parser) "{}"
  = inl (Parse.Error "Invalid package.json format")
  /\ Parse.packagesOf (Json.Object []) = inr []
  /\ Parse.packagesOf (Json.Number 1) = inr []
  /\ Parse.packagesOf (Json.Object [("dependencies", Json.Str "ab")]%string)
     = inr [ Samples.pkg "0" "a" npm; Samples.pkg "1" "b" npm ]
  /\ Parse.packagesOf
       (Json.Object [("dependencies",
                      Json.Object [("left-pad", Json.Number 1)]%string)]%string)
     = inl (TypeError "version.replace is not a function").
Proof. vm_compute. repeat split; reflexivity. Qed.
